(** * kmail2maildir: a shallow embedding of [kmail2maildir.py]

    The script converts a mail store in KMail's nested maildir layout into a
    flat Maildir++ layout.  This development embeds the three classes of the
    script ([Maildir], [FileSystemAction], [Kmail2Maildir]) and the entry
    point [kmail2maildir] over an explicit model of the file system, and
    states the properties of the specification on that embedding.

    Conventions of the embedding.
    - The file system below the mailbox root [args.folder] is a finite tree
      ([node]).  The entries of a directory are kept in a list whose order
      is the order in which [os.scandir] reports them.  There are no
      symbolic links, and entry names are those of a real directory: unique
      within it and free of ['/'].
    - A path handled by the script is represented by its components below
      the mailbox root ([path]); the text of the path, as the script holds
      it, is recovered by [path_str].  [path.relpath(d, args.folder)] is
      therefore the component list itself.
    - The hierarchy separator is taken free of ['/'], so that the flattened
      destination is one entry directly below the root.  The theorems on
      the effect of a pass assume it ([flat_destination]).
    - [glob] patterns are matched with the wildcards ['*'] and ['?'];
      bracket classes do not occur in the patterns the script builds from
      names without ['['].  [glob] reads the directory part of its pattern
      as a pattern too; the embedding looks that directory up as it is
      written, which is what [glob] does when the text of the base folder
      and the entry names hold none of ['*'], ['?'] and ['['].  The
      theorems that depend on what [glob] reports assume it
      ([glob_exact]).
    - Every call of [FileSystemAction.__run] is recorded in [calls] (also in
      quiet mode), the messages it prints in [stdout].  The line that
      [kmail2maildir] itself prints before the validation pass is no message
      of the gateway; the standard output of an invocation, that line
      included, is [printed]. *)

From Stdlib Require Import String Ascii List Bool Arith Lia.
From Stdlib Require Import Sorting.Sorted Sorting.Permutation.
From Stdlib Require Import Structures.OrderedTypeEx.
Import ListNotations.
Open Scope string_scope.
Open Scope list_scope.

(** ** Module constants *)

Definition HIDDEN_FILE_PREFIX : string := ".".
Definition KMAIL_SUBDIR_PREFIX : string := ".".
Definition KMAIL_SUBDIR_SUFFIX : string := ".directory".
Definition DEFAULT_HIERARCHY_SEPARATOR : string := ".".
Definition MAILDIR_SPECIAL_DIRS : list string := ["cur"; "new"; "tmp"].

(** ** Python string operations used by the script *)

Module Py.

(** [s.startswith(pre)] *)
Definition startswith (s pre : string) : bool := String.prefix pre s.

(** [s.endswith(suf)] *)
Definition endswith (s suf : string) : bool :=
  Nat.leb (String.length suf) (String.length s) &&
  String.eqb (substring (String.length s - String.length suf) (String.length suf) s) suf.

(** [s[a:b]] for [0 <= a] and [0 <= b <= len(s)]; empty when [b <= a]. *)
Definition slice (s : string) (a b : nat) : string := substring a (b - a) s.

(** [sep.join(l)] *)
Definition join (sep : string) (l : list string) : string := String.concat sep l.

(** [s[0] == c], false on the empty string *)
Definition first_is (c : ascii) (s : string) : bool :=
  match s with
  | String d _ => Ascii.eqb d c
  | EmptyString => false
  end.

(** [c in s] for a single character *)
Fixpoint contains_char (c : ascii) (s : string) : bool :=
  match s with
  | EmptyString => false
  | String d s' => Ascii.eqb d c || contains_char c s'
  end.

(** [s.rstrip('/')] *)
Fixpoint rstrip_slash (s : string) : string :=
  match s with
  | EmptyString => EmptyString
  | String c s' =>
      match rstrip_slash s' with
      | EmptyString => if Ascii.eqb c "/" then EmptyString else String c EmptyString
      | r => String c r
      end
  end.

(** [s == '/' * len(s)] *)
Fixpoint all_slashes (s : string) : bool :=
  match s with
  | EmptyString => true
  | String c s' => Ascii.eqb c "/" && all_slashes s'
  end.

(** [s1 < s2] on [str] *)
Definition lt (s1 s2 : string) : bool := String.ltb s1 s2.

End Py.

(** ** [posixpath] *)

Module PosixPath.

(** [posixpath.join(a, b)] *)
Definition join (a b : string) : string :=
  if Py.startswith b "/" then b
  else if String.eqb a "" || Py.endswith a "/" then (a ++ b)%string
  else (a ++ "/" ++ b)%string.

(** Head of [posixpath.split(join(d, pattern))] for a pattern without
    ['/']: the directory part [glob] joins the matched names to. *)
Definition split_head (d : string) : string :=
  if Py.all_slashes d then d else Py.rstrip_slash d.

End PosixPath.

(** ** [fnmatch] *)

Module Fnmatch.

(** [fnmatch.fnmatchcase(name, pat)] for patterns over ['*'], ['?'] and
    literal characters. *)
Fixpoint fnmatch (pat name : string) : bool :=
  match pat with
  | EmptyString =>
      match name with
      | EmptyString => true
      | String _ _ => false
      end
  | String c pat' =>
      if Ascii.eqb c "*" then
        (fix star (n : string) : bool :=
           fnmatch pat' n ||
           match n with
           | EmptyString => false
           | String _ n' => star n'
           end) name
      else
        match name with
        | EmptyString => false
        | String d n' =>
            (if Ascii.eqb c "?" then true else Ascii.eqb c d) && fnmatch pat' n'
        end
  end.

(** [glob._ishidden] *)
Definition ishidden (s : string) : bool := Py.first_is "." s.

(** Whether [glob] reports the entry [x] of a directory for [pattern]. *)
Definition selects (pattern x : string) : bool :=
  (ishidden pattern || negb (ishidden x)) && fnmatch pattern x.

(** [glob._glob1] on the names of one directory: hidden names are dropped
    unless the pattern itself is hidden, then [fnmatch.filter]. *)
Definition glob1 (names : list string) (pattern : string) : list string :=
  let names :=
    if ishidden pattern then names
    else filter (fun x => negb (ishidden x)) names in
  filter (fnmatch pattern) names.

End Fnmatch.

(** ** The file system *)

Definition path : Type := list string.

#[local] Set Warnings "-register-all".

Inductive node : Type :=
| File
| Dir (entries : list (string * node)).

Module FS.

Definition is_dir_node (n : node) : bool :=
  match n with
  | Dir _ => true
  | File => false
  end.

Fixpoint assoc (x : string) (es : list (string * node)) : option node :=
  match es with
  | [] => None
  | (y, n) :: es' => if String.eqb x y then Some n else assoc x es'
  end.

Fixpoint remove_entry (x : string) (es : list (string * node)) : list (string * node) :=
  match es with
  | [] => []
  | (y, n) :: es' => if String.eqb x y then es' else (y, n) :: remove_entry x es'
  end.

Fixpoint replace_entry (x : string) (c : node) (es : list (string * node))
  : list (string * node) :=
  match es with
  | [] => []
  | (y, n) :: es' =>
      if String.eqb x y then (y, c) :: es' else (y, n) :: replace_entry x c es'
  end.

(** Resolution of a path from the mailbox root. *)
Fixpoint lookup (n : node) (p : path) : option node :=
  match p with
  | [] => Some n
  | x :: p' =>
      match n with
      | Dir es =>
          match assoc x es with
          | Some c => lookup c p'
          | None => None
          end
      | File => None
      end
  end.

(** [path.exists] *)
Definition exists_ (fs : node) (p : path) : bool :=
  match lookup fs p with
  | Some _ => true
  | None => false
  end.

(** [path.isdir] *)
Definition isdir (fs : node) (p : path) : bool :=
  match lookup fs p with
  | Some n => is_dir_node n
  | None => false
  end.

(** [os.listdir]; [None] is [OSError]. *)
Definition listdir (fs : node) (p : path) : option (list string) :=
  match lookup fs p with
  | Some (Dir es) => Some (map fst es)
  | _ => None
  end.

(** Rewrites the entry list of the directory at [p]; [None] when [p] is
    not a directory or the rewriting fails. *)
Fixpoint update (n : node) (p : path)
         (f : list (string * node) -> option (list (string * node)))
  : option node :=
  match n with
  | File => None
  | Dir es =>
      match p with
      | [] =>
          match f es with
          | Some es' => Some (Dir es')
          | None => None
          end
      | x :: p' =>
          match assoc x es with
          | Some c =>
              match update c p' f with
              | Some c' => Some (Dir (replace_entry x c' es))
              | None => None
              end
          | None => None
          end
      end
  end.

Definition dirname (p : path) : path := removelast p.
Definition basename (p : path) : string := last p "".

(** [os.remove]: the target must be an existing non-directory. *)
Definition remove (fs : node) (p : path) : option node :=
  match p with
  | [] => None
  | _ =>
      update fs (dirname p)
        (fun es =>
           match assoc (basename p) es with
           | Some File => Some (remove_entry (basename p) es)
           | _ => None
           end)
  end.

(** [os.rmdir]: the target must be an existing empty directory. *)
Definition rmdir (fs : node) (p : path) : option node :=
  match p with
  | [] => None
  | _ =>
      update fs (dirname p)
        (fun es =>
           match assoc (basename p) es with
           | Some (Dir []) => Some (remove_entry (basename p) es)
           | _ => None
           end)
  end.

(** [os.rename(src, dst)] towards a destination that does not exist, the
    only way [FileSystemAction.rename] calls it: the source must exist and
    the parent of the destination must be a directory once the source has
    been unlinked.  The moved entry is appended to the listing of its new
    directory. *)
Definition rename (fs : node) (src dst : path) : option node :=
  match src, dst with
  | [], _ | _, [] => None
  | _, _ =>
      match lookup fs src with
      | None => None
      | Some moved =>
          if exists_ fs dst then None
          else
            match update fs (dirname src)
                    (fun es => Some (remove_entry (basename src) es)) with
            | None => None
            | Some fs1 =>
                update fs1 (dirname dst)
                  (fun es => Some (es ++ [(basename dst, moved)]))
            end
      end
  end.

(** [glob.glob(path.join(d, pattern))] for a pattern without ['/'] and a
    directory [d] whose text holds none of ['*'], ['?'] and ['[']: [glob]
    then looks in the one directory [d] ([glob_exact]). *)
Definition glob (fs : node) (d : path) (pattern : string) : list path :=
  match lookup fs d with
  | Some (Dir es) => map (fun x => d ++ [x]) (Fnmatch.glob1 (map fst es) pattern)
  | _ => []
  end.

(** The text of a path as the script holds it: the root is [folder] as
    given on the command line and every further component was joined by
    [glob] to the head of its directory. *)
Definition path_str (folder : string) (p : path) : string :=
  fold_left (fun acc x => PosixPath.join (PosixPath.split_head acc) x) p folder.

End FS.

(** ** Command line options ([argparse] namespace) *)

Record options : Type := {
  folder : string;
  hierarchy_separator : string;
  remove_index_files_opt : bool;
  dry_run_opt : bool
}.

(** ** class [Maildir] *)

Record Maildir : Type := {
  name : string;
  directory : path;
  path_list : list string
}.

Module MaildirM.

(** The body of the loop of [Maildir.__init__]: one path component with
    the leading dot and the trailing [.directory] removed when both are
    there. *)
Definition strip_component (p : string) : string :=
  if Py.startswith p KMAIL_SUBDIR_PREFIX && Py.endswith p KMAIL_SUBDIR_SUFFIX
  then Py.slice p (String.length KMAIL_SUBDIR_PREFIX)
                  (String.length p - String.length KMAIL_SUBDIR_SUFFIX)
  else p.

(** [Maildir.__init__(options, directory)] *)
Definition init (opts : options) (d : path) : Maildir :=
  let path_components := d in
  {| name := FS.basename d;
     directory := d;
     path_list := map strip_component path_components |}.

(** The last component of [get_folder_path]. *)
Definition folder_path (opts : options) (m : Maildir) : string :=
  (HIDDEN_FILE_PREFIX ++ Py.join (hierarchy_separator opts) (path_list m))%string.

(** [Maildir.get_folder_path()], as text: the sort key. *)
Definition get_folder_path (opts : options) (m : Maildir) : string :=
  PosixPath.join (folder opts) (folder_path opts m).

(** [Maildir.get_folder_path()], as a location below the root: one entry
    of the base folder, the hierarchy separator holding no ['/']
    ([flat_destination]). *)
Definition get_folder_path_loc (opts : options) (m : Maildir) : path :=
  [folder_path opts m].

(** [Maildir.get_parent_maildir()] *)
Definition get_parent_maildir (m : Maildir) : option path :=
  if Nat.eqb (List.length (path_list m)) 1 then None
  else Some (FS.dirname (directory m)).

End MaildirM.

(** ** class [FileSystemAction] *)

(** The three messages of the gateway. *)
Inductive action : Type :=
| Moving (src dst : path)
| RemovingFile (file : path)
| RemovingFolder (dir : path).

Inductive error : Type :=
| DestinationExists (dst : path)   (* raise Exception("Destination ... already exists") *)
| OSError.                         (* raised by an [os.*] call *)

Inductive result : Type :=
| Ok
| Raised (e : error).

Record world : Type := {
  fs : node;
  calls : list action;
  stdout : list action
}.

(** Computations of the script: they transform the world and either
    return or raise. *)
Definition M : Type := world -> world * result.

Definition ret : M := fun w => (w, Ok).

Definition seq (m k : M) : M :=
  fun w =>
    match m w with
    | (w', Ok) => k w'
    | (w', Raised e) => (w', Raised e)
    end.

Notation "m ;; k" := (seq m k) (at level 61, right associativity).

(** [for x in l: body(x)] *)
Fixpoint for_each {A : Type} (l : list A) (body : A -> M) : M :=
  match l with
  | [] => ret
  | x :: l' => body x ;; for_each l' body
  end.

Record FileSystemAction : Type := {
  dry_run : bool;
  quiet : bool
}.

Module FSA.

(** [FileSystemAction.__run(message, function)] *)
Definition run (self : FileSystemAction) (message : action)
           (function : node -> option node) : M :=
  fun w =>
    let w1 := {| fs := fs w;
                 calls := calls w ++ [message];
                 stdout := if quiet self then stdout w else stdout w ++ [message] |} in
    if dry_run self then (w1, Ok)
    else
      match function (fs w1) with
      | Some fs' => ({| fs := fs'; calls := calls w1; stdout := stdout w1 |}, Ok)
      | None => (w1, Raised OSError)
      end.

(** [FileSystemAction.rename(src, dst)] *)
Definition rename (self : FileSystemAction) (src dst : path) : M :=
  fun w =>
    if FS.exists_ (fs w) dst then (w, Raised (DestinationExists dst))
    else run self (Moving src dst) (fun f => FS.rename f src dst) w.

(** [FileSystemAction.delete(file)] *)
Definition delete (self : FileSystemAction) (file : path) : M :=
  run self (RemovingFile file) (fun f => FS.remove f file).

(** [FileSystemAction.rmdir(directory)] *)
Definition rmdir (self : FileSystemAction) (d : path) : M :=
  run self (RemovingFolder d) (fun f => FS.rmdir f d).

End FSA.

(** ** class [Kmail2Maildir] *)

Module Kmail2Maildir.

(** [Kmail2Maildir.__is_empty_dir(directory)]; [None] is the [OSError] of
    [os.listdir]. *)
Definition is_empty_dir (f : node) (d : path) : option bool :=
  match FS.listdir f d with
  | Some [] => Some true
  | Some (_ :: _) => Some false
  | None => None
  end.

(** [Kmail2Maildir.__is_maildir(directory)] *)
Definition is_maildir (f : node) (d : path) : bool :=
  let dirs_exist := map (fun s => FS.isdir f (d ++ [s])) MAILDIR_SPECIAL_DIRS in
  forallb (fun b => b) dirs_exist.

(** The pattern of kmail's containers, [.*.directory]. *)
Definition container_pattern : string :=
  (KMAIL_SUBDIR_PREFIX ++ "*" ++ KMAIL_SUBDIR_SUFFIX)%string.

(** [Kmail2Maildir.__get_subfolders_containers_recursive(directory)], on
    the subtree [sub] found at [directory].  An entry is followed when
    [glob] reports it for the container pattern and it is a directory. *)
Fixpoint containers_rec (sub : node) (d : path) : list path :=
  d ::
  match sub with
  | File => []
  | Dir es =>
      flat_map
        (fun e =>
           match e with
           | (x, child) =>
               if Fnmatch.selects container_pattern x && FS.is_dir_node child
               then containers_rec child (d ++ [x])
               else []
           end) es
  end.

Definition get_subfolders_containers_recursive (f : node) : list path :=
  containers_rec f [].

(** [Kmail2Maildir.__get_maildirs_from_subfoldercontainers(containers)].
    The test [d[0] != HIDDEN_FILE_PREFIX] reads the first character of the
    text of the path. *)
Definition get_maildirs_from_subfoldercontainers
           (root : string) (f : node) (subfolder_containers : list path) : list path :=
  flat_map
    (fun subdir_container =>
       let files := FS.glob f subdir_container "*" in
       let directories := filter (FS.isdir f) files in
       let potential_maildirs :=
         filter (fun d => negb (Py.first_is "." (FS.path_str root d))) directories in
       filter (is_maildir f) potential_maildirs)
    subfolder_containers.

(** [list.sort(key=..., reverse=True)]: stable, descending. *)
Fixpoint insert_desc {A : Type} (key : A -> string) (x : A) (l : list A) : list A :=
  match l with
  | [] => [x]
  | y :: l' =>
      if Py.lt (key x) (key y) then y :: insert_desc key x l' else x :: l
  end.

Definition sort_desc {A : Type} (key : A -> string) (l : list A) : list A :=
  fold_right (insert_desc key) [] l.

(** [Kmail2Maildir.remove_index_files(maildir)] *)
Definition remove_index_files (fsa : FileSystemAction) (maildir : Maildir) : M :=
  fun w =>
    let index_file_glob := (HIDDEN_FILE_PREFIX ++ name maildir ++ ".index*")%string in
    let index_files := FS.glob (fs w) (FS.dirname (directory maildir)) index_file_glob in
    for_each index_files (fun index_file => FSA.delete fsa index_file) w.

(** The discovered maildirs, in the order of the renames. *)
Definition discover (opts : options) (f : node) : list Maildir :=
  let subdir_containers := get_subfolders_containers_recursive f in
  let maildirs_paths :=
    get_maildirs_from_subfoldercontainers (folder opts) f subdir_containers in
  map (MaildirM.init opts) maildirs_paths.

Definition sorted_maildirs (opts : options) (f : node) : list Maildir :=
  sort_desc (MaildirM.get_folder_path opts) (discover opts f).

(** The removal of the parent container at the end of the loop body. *)
Definition prune_parent (fsa : FileSystemAction) (parent_maildir : option path) : M :=
  fun w =>
    match parent_maildir with
    | None => (w, Ok)
    | Some parent =>
        match is_empty_dir (fs w) parent with
        | None => (w, Raised OSError)
        | Some true => FSA.rmdir fsa parent w
        | Some false => (w, Ok)
        end
    end.

(** The body of the loop over the maildirs in [move_kmail_folders]. *)
Definition move_one (opts : options) (fsa : FileSystemAction) (maildir : Maildir) : M :=
  FSA.rename fsa (directory maildir) (MaildirM.get_folder_path_loc opts maildir) ;;
  (let parent_maildir := MaildirM.get_parent_maildir maildir in
   (if remove_index_files_opt opts then remove_index_files fsa maildir else ret) ;;
   prune_parent fsa parent_maildir).

(** The end of [move_kmail_folders]: the inbox goes to the base folder. *)
Definition kmail_inbox : path := [(HIDDEN_FILE_PREFIX ++ "inbox")%string].

Definition move_inbox (fsa : FileSystemAction) : M :=
  for_each MAILDIR_SPECIAL_DIRS
    (fun maildir_dir => FSA.rename fsa (kmail_inbox ++ [maildir_dir]) [maildir_dir]) ;;
  FSA.rmdir fsa kmail_inbox.

(** [Kmail2Maildir.move_kmail_folders()] *)
Definition move_kmail_folders (opts : options) (fsa : FileSystemAction) : M :=
  fun w =>
    let maildirs := sorted_maildirs opts (fs w) in
    (for_each maildirs (move_one opts fsa) ;; move_inbox fsa) w.

End Kmail2Maildir.

(** ** [kmail2maildir(args)] *)

(** The two passes of [kmail2maildir(args)].  The line the function prints
    before the validation pass does not go through the gateway; it is
    part of [printed]. *)
Definition kmail2maildir (args : options) : M :=
  (if negb (dry_run_opt args)
   then Kmail2Maildir.move_kmail_folders args {| dry_run := true; quiet := true |}
   else ret) ;;
  Kmail2Maildir.move_kmail_folders args {| dry_run := dry_run_opt args; quiet := false |}.

Definition initial (f : node) : world := {| fs := f; calls := []; stdout := [] |}.

(** * The sequence of gateway calls of a pass *)

Module Trace.

Definition is_moving (a : action) : bool :=
  match a with
  | Moving _ _ => true
  | _ => false
  end.

(** The renames among a sequence of gateway calls, in their order. *)
Definition renames_of (l : list action) : list action := filter is_moving l.

(** The rename of one maildir, as [move_kmail_folders] issues it. *)
Definition mv (opts : options) (m : Maildir) : action :=
  Moving (directory m) (MaildirM.get_folder_path_loc opts m).

(** The calls that move the inbox to the base folder. *)
Definition inbox_relocation : list action :=
  [ Moving [".inbox"; "cur"] ["cur"];
    Moving [".inbox"; "new"] ["new"];
    Moving [".inbox"; "tmp"] ["tmp"];
    RemovingFolder [".inbox"] ].

(** The loop over the sorted maildirs in [move_kmail_folders]. *)
Definition per_folder_loop (opts : options) (fsa : FileSystemAction) (w : world)
  : world * result :=
  for_each (Kmail2Maildir.sorted_maildirs opts (fs w)) (Kmail2Maildir.move_one opts fsa) w.

End Trace.


(** * Nesting of folders *)

Module Nesting.

(** [F] is an ancestor of [G] in the original hierarchy: the logical
    segments of [F] lead to [F] on the way from the root to [G]. *)
Definition ancestor (F G : Maildir) : Prop :=
  exists rest, rest <> [] /\ path_list G = path_list F ++ rest.

(** The container kmail keeps the subfolders of the folder [x] in. *)
Definition container_of (x : string) : string :=
  (KMAIL_SUBDIR_PREFIX ++ x ++ KMAIL_SUBDIR_SUFFIX)%string.

End Nesting.


(** * Mail stores used as examples *)

Module Examples.

(** An empty maildir. *)
Definition maildir : node := Dir [("cur", Dir []); ("new", Dir []); ("tmp", Dir [])].

Definition args (root : string) (rm dry : bool) : options :=
  {| folder := root;
     hierarchy_separator := DEFAULT_HIERARCHY_SEPARATOR;
     remove_index_files_opt := rm;
     dry_run_opt := dry |}.

(** [/mail] with the folder [Archive], its subfolder [Projects] and the
    subfolder [Old] of that one. *)
Definition nested_store : node :=
  Dir [ (".inbox", maildir);
        ("Archive", maildir);
        (".Archive.directory",
         Dir [ ("Projects", maildir);
               (".Projects.index", File);
               (".Projects.index.ids", File);
               (".Projects.directory", Dir [("Old", maildir)]) ]) ].

(** A folder named [A.B] next to the subfolder [B] of the folder [A]. *)
Definition colliding_store : node :=
  Dir [ (".inbox", maildir);
        ("A.B", maildir);
        (".A.directory", Dir [("B", maildir)]) ].

(** A store with one folder besides the inbox. *)
Definition small_store : node :=
  Dir [ (".inbox", maildir); ("Archive", maildir) ].

(** A subfolder with an index file beside it, alone in its container. *)
Definition indexed_store : node :=
  Dir [ (".inbox", maildir);
        ("Archive", maildir);
        (".Archive.directory",
         Dir [ ("Projects", maildir); (".Projects.index", File) ]) ].

Definition validation : FileSystemAction := {| dry_run := true; quiet := true |}.
Definition real : FileSystemAction := {| dry_run := false; quiet := false |}.

End Examples.

(** ** Properties of computations and of names used in the statements *)

(** A pattern without wildcards. *)
Definition plain (pat : string) : bool :=
  negb (Py.contains_char "*" pat) && negb (Py.contains_char "?" pat).

(** Names that [glob] reports for the container pattern. *)
Definition container_names (cs : path) : Prop :=
  Forall (fun x => Fnmatch.selects Kmail2Maildir.container_pattern x = true) cs.

(** [x] may stand before [y] in a descending list. *)
Definition desc {A : Type} (key : A -> string) (x y : A) : Prop :=
  Py.lt (key x) (key y) = false.

(** The computation leaves the file system as it found it. *)
Definition keeps_fs (m : M) : Prop := forall w, fs (fst (m w)) = fs w.

(** The computation issues no rename. *)
Definition adds_no_rename (m : M) : Prop :=
  forall w, exists rest, calls (fst (m w)) = calls w ++ rest /\ Trace.renames_of rest = [].

(** The calls of [k] are a prefix of [l], the whole of it when [k] returns. *)
Definition prefix_trace (k : M) (l : list action) : Prop :=
  forall w, exists n,
    calls (fst (k w)) = calls w ++ firstn n l /\
    (snd (k w) = Ok -> n = List.length l).

(** ** Well-formed trees and paths *)

Module Tree.

(** An entry name of a real directory: not empty and free of ['/']. *)
Definition valid_name (x : string) : bool :=
  negb (String.eqb x "") && negb (Py.contains_char "/" x).

(** Entry names are valid and unique in every directory of the tree. *)
Fixpoint wf (n : node) : Prop :=
  match n with
  | File => True
  | Dir es =>
      NoDup (map fst es) /\
      (fix all (l : list (string * node)) : Prop :=
         match l with
         | [] => True
         | (x, c) :: l' => (valid_name x = true /\ wf c) /\ all l'
         end) es
  end.

(** [p] leads to [q]. *)
Definition is_prefix (p q : path) : Prop := exists r, q = p ++ r.

End Tree.

(** ** Relations between computations *)

(** The computation prints the calls it issues, or nothing when the
    gateway is quiet. *)
Definition prints (fsa : FileSystemAction) (m : M) : Prop :=
  forall w, exists new,
    calls (fst (m w)) = calls w ++ new /\
    stdout (fst (m w)) = stdout w ++ (if quiet fsa then [] else new).

(** Two computations change the file system alike, issue the same calls
    and end alike. *)
Definition agree (m1 m2 : M) : Prop :=
  forall w1 w2,
    fs w1 = fs w2 -> calls w1 = calls w2 ->
    fs (fst (m1 w1)) = fs (fst (m2 w2)) /\
    calls (fst (m1 w1)) = calls (fst (m2 w2)) /\
    snd (m1 w1) = snd (m2 w2).

(** A computation that returns leaves the directory found at [q] where
    it is, with all it holds. *)
Definition preserves (q : path) (m : M) : Prop :=
  forall w w' n,
    m w = (w', Ok) -> FS.lookup (fs w) q = Some n -> FS.is_dir_node n = true ->
    FS.lookup (fs w') q = Some n.

(** Two folders that do not stand in each other's way: the second lies
    neither on the way to the directory beside the first nor below the
    first. *)
Definition apart (m m' : Maildir) : Prop :=
  ~ Tree.is_prefix (directory m') (FS.dirname (directory m)) /\
  ~ Tree.is_prefix (directory m) (directory m').

(** The names listed in the root are pairwise distinct. *)
Definition root_nodup (f : node) : Prop :=
  match f with
  | Dir es => NoDup (map fst es)
  | File => True
  end.

(** A computation that returns keeps a property of the file system. *)
Definition keeps (P : node -> Prop) (m : M) : Prop :=
  forall w w', m w = (w', Ok) -> P (fs w) -> P (fs w').

(** Calls among which no directory is removed. *)
Definition no_removal_of_folder (l : list action) : Prop :=
  forall p, ~ In (RemovingFolder p) l.

(** ** Listings and index files *)

(** The pattern of the index files of a folder: [index_file_glob] in
    [remove_index_files]. *)
Definition index_file_glob (m : Maildir) : string :=
  (HIDDEN_FILE_PREFIX ++ name m ++ ".index*")%string.

(** [es'] lists entries of [es] only, each of the kind it had, and lists
    none twice when [es] does not. *)
Definition shrinks (es es' : list (string * node)) : Prop :=
  (NoDup (map fst es) -> NoDup (map fst es')) /\
  forall x n', In (x, n') es' ->
               exists n, In (x, n) es /\ FS.is_dir_node n' = FS.is_dir_node n.

(** The directory at [q] lists distinct names, and those that [glob]
    reports for [pat] are files. *)
Definition only_files (pat : string) (q : path) (f : node) : Prop :=
  exists es, FS.lookup f q = Some (Dir es) /\ NoDup (map fst es) /\
             forall x n, In (x, n) es -> Fnmatch.selects pat x = true -> n = File.

(** ** The calls a pass may issue *)

(** A call that concerns a discovered folder of the store [f], an index
    file beside one, the container of one, or the inbox. *)
Definition accounted (opts : options) (f : node) (a : action) : Prop :=
  match a with
  | Moving src dst =>
      (exists m, In m (Kmail2Maildir.discover opts f) /\
                 src = directory m /\ dst = MaildirM.get_folder_path_loc opts m) \/
      (exists d, In d MAILDIR_SPECIAL_DIRS /\
                 src = Kmail2Maildir.kmail_inbox ++ [d] /\ dst = [d])
  | RemovingFile file =>
      remove_index_files_opt opts = true /\
      exists m x, In m (Kmail2Maildir.discover opts f) /\
                  file = FS.dirname (directory m) ++ [x] /\
                  Fnmatch.selects (index_file_glob m) x = true
  | RemovingFolder d =>
      d = Kmail2Maildir.kmail_inbox \/
      exists m, In m (Kmail2Maildir.discover opts f) /\
                MaildirM.get_parent_maildir m = Some d
  end.

(** The computation issues calls with the property [A] only. *)
Definition issues_only (A : action -> Prop) (m : M) : Prop :=
  forall w, exists new, calls (fst (m w)) = calls w ++ new /\ Forall A new.

(** ** The errors a pass may raise *)

(** A [Destination ... already exists] error that names the flattened
    path of a discovered folder of the store [f] or one of [cur], [new],
    [tmp] in the base folder; an error of the operating system is not
    restricted. *)
Definition explained (opts : options) (f : node) (e : error) : Prop :=
  match e with
  | DestinationExists dst =>
      (exists m, In m (Kmail2Maildir.discover opts f) /\
                 dst = MaildirM.get_folder_path_loc opts m) \/
      (exists d, In d MAILDIR_SPECIAL_DIRS /\ dst = [d])
  | OSError => True
  end.

(** The computation raises errors with the property [E] only. *)
Definition raises_only (E : error -> Prop) (m : M) : Prop :=
  forall w e, snd (m w) = Raised e -> E e.

(** ** The inputs on which [glob] and the destination are embedded exactly *)

(** [glob.has_magic]: the text holds one of ['*'], ['?'] and ['[']. *)
Definition has_magic (s : string) : bool :=
  Py.contains_char "*" s || Py.contains_char "?" s || Py.contains_char "[" s.

(** No entry name of the tree is read as a pattern by [glob]. *)
Fixpoint literal_names (n : node) : Prop :=
  match n with
  | File => True
  | Dir es =>
      (fix all (l : list (string * node)) : Prop :=
         match l with
         | [] => True
         | (x, c) :: l' => (has_magic x = false /\ literal_names c) /\ all l'
         end) es
  end.

(** [glob.glob(path.join(d, pattern))] looks for [pattern] in the one
    directory [d], and the patterns built from names hold no bracket: the
    text of the base folder and the names of the store hold no special
    character. *)
Definition glob_exact (root : string) (f : node) : Prop :=
  has_magic root = false /\ literal_names f.

(** [get_folder_path] names one entry of the base folder: the hierarchy
    separator holds no ['/']. *)
Definition flat_destination (opts : options) : Prop :=
  Py.contains_char "/" (hierarchy_separator opts) = false.

(** ** Standard output *)



(** * Facts about the string operations *)

Module StrFacts.

Lemma append_nil_r (s : string) : (s ++ "")%string = s.
Proof. induction s as [|c s IH]; simpl; [reflexivity | now rewrite IH]. Qed.

Lemma append_assoc (a b c : string) : ((a ++ b) ++ c)%string = (a ++ (b ++ c))%string.
Proof. induction a as [|x a IH]; simpl; [reflexivity | now rewrite IH]. Qed.

Lemma length_append (a b : string) :
  String.length (a ++ b) = String.length a + String.length b.
Proof. induction a as [|x a IH]; simpl; [reflexivity | now rewrite IH]. Qed.

Lemma append_inv_head (a b c : string) : (a ++ b)%string = (a ++ c)%string -> b = c.
Proof.
  induction a as [|x a IH]; simpl; intros H; [exact H|].
  injection H as H. now apply IH.
Qed.

Lemma substring_all (s : string) : substring 0 (String.length s) s = s.
Proof. induction s as [|c s IH]; simpl; [reflexivity | now rewrite IH]. Qed.

Lemma substring_head (a b : string) : substring 0 (String.length a) (a ++ b) = a.
Proof.
  induction a as [|x a IH]; simpl.
  - destruct b; reflexivity.
  - now rewrite IH.
Qed.

Lemma substring_skip (a b : string) (n m : nat) :
  substring (String.length a + n) m (a ++ b) = substring n m b.
Proof. induction a as [|x a IH]; simpl; [reflexivity | exact IH]. Qed.

Lemma substring_split (s : string) (n : nat) :
  n <= String.length s ->
  s = (substring 0 n s ++ substring n (String.length s - n) s)%string.
Proof.
  revert n; induction s as [|c s IH]; intros [|n] H; simpl in *.
  - reflexivity.
  - lia.
  - now rewrite substring_all.
  - f_equal. apply IH. lia.
Qed.

Lemma substring_length (s : string) (n m : nat) :
  n + m <= String.length s -> String.length (substring n m s) = m.
Proof.
  revert n m; induction s as [|c s IH]; intros [|n] [|m] H; simpl in *;
    try reflexivity; try lia.
  - f_equal. apply (IH 0 m). lia.
  - apply IH. lia.
  - apply IH. lia.
Qed.

Lemma prefix_append (a b : string) : String.prefix a (a ++ b) = true.
Proof.
  induction a as [|x a IH]; simpl.
  - destruct b; reflexivity.
  - destruct (ascii_dec x x) as [_|N]; [exact IH | now elim N].
Qed.

Lemma prefix_inv (a s : string) :
  String.prefix a s = true -> exists r, s = (a ++ r)%string.
Proof.
  revert s; induction a as [|x a IH]; intros s H.
  - now exists s.
  - destruct s as [|y s]; simpl in H; [discriminate|].
    destruct (ascii_dec x y) as [->|]; [|discriminate].
    destruct (IH s H) as [r ->]. now exists r.
Qed.

Lemma startswith_iff (s pre : string) :
  Py.startswith s pre = true <-> exists r, s = (pre ++ r)%string.
Proof.
  unfold Py.startswith; split.
  - apply prefix_inv.
  - intros [r ->]. apply prefix_append.
Qed.

Lemma endswith_iff (s suf : string) :
  Py.endswith s suf = true <-> exists r, s = (r ++ suf)%string.
Proof.
  unfold Py.endswith; split.
  - intros H. apply andb_true_iff in H as [Hl He].
    apply Nat.leb_le in Hl. apply String.eqb_eq in He.
    exists (substring 0 (String.length s - String.length suf) s).
    pose proof (substring_split s (String.length s - String.length suf)) as E.
    replace (String.length s - (String.length s - String.length suf))
      with (String.length suf) in E by lia.
    rewrite He in E. apply E. lia.
  - intros [r ->]. rewrite length_append. apply andb_true_iff; split.
    + apply Nat.leb_le. lia.
    + apply String.eqb_eq.
      replace (String.length r + String.length suf - String.length suf)
        with (String.length r + 0) by lia.
      rewrite substring_skip. apply substring_all.
Qed.

Lemma first_is_append (c : ascii) (a b : string) :
  a <> "" -> Py.first_is c (a ++ b) = Py.first_is c a.
Proof. destruct a; simpl; [now intros [] | reflexivity]. Qed.

End StrFacts.

(** * Facts about [Maildir] *)

Module MaildirFacts.
Import StrFacts.

Lemma strip_exact (token : string) :
  MaildirM.strip_component
    (KMAIL_SUBDIR_PREFIX ++ token ++ KMAIL_SUBDIR_SUFFIX)%string = token.
Proof.
  unfold MaildirM.strip_component.
  assert (Hs : Py.startswith (KMAIL_SUBDIR_PREFIX ++ token ++ KMAIL_SUBDIR_SUFFIX)
                 KMAIL_SUBDIR_PREFIX = true)
    by (apply startswith_iff; eauto).
  assert (He : Py.endswith (KMAIL_SUBDIR_PREFIX ++ token ++ KMAIL_SUBDIR_SUFFIX)
                 KMAIL_SUBDIR_SUFFIX = true)
    by (apply endswith_iff; exists (KMAIL_SUBDIR_PREFIX ++ token)%string;
        now rewrite append_assoc).
  rewrite Hs, He. cbn [andb]. unfold Py.slice.
  rewrite !length_append.
  replace (String.length KMAIL_SUBDIR_PREFIX
           + (String.length token + String.length KMAIL_SUBDIR_SUFFIX)
           - String.length KMAIL_SUBDIR_SUFFIX - String.length KMAIL_SUBDIR_PREFIX)
    with (String.length token) by lia.
  replace (String.length KMAIL_SUBDIR_PREFIX)
    with (String.length KMAIL_SUBDIR_PREFIX + 0) at 1 by lia.
  rewrite substring_skip. apply substring_head.
Qed.

Lemma strip_unchanged (p : string) :
  Py.startswith p KMAIL_SUBDIR_PREFIX && Py.endswith p KMAIL_SUBDIR_SUFFIX = false ->
  MaildirM.strip_component p = p.
Proof. unfold MaildirM.strip_component. now intros ->. Qed.

(** A component that starts with the prefix and ends with the suffix is
    either the suffix alone (the two overlap) or a decorated token. *)
Lemma decorated_cases (p : string) :
  Py.startswith p KMAIL_SUBDIR_PREFIX = true ->
  Py.endswith p KMAIL_SUBDIR_SUFFIX = true ->
  p = KMAIL_SUBDIR_SUFFIX \/
  exists token, p = (KMAIL_SUBDIR_PREFIX ++ token ++ KMAIL_SUBDIR_SUFFIX)%string.
Proof.
  intros Hs He.
  apply startswith_iff in Hs as [r Hr].
  apply endswith_iff in He as [q Hq].
  destruct q as [|c q].
  - left. exact Hq.
  - right. exists q. rewrite Hq in Hr |- *.
    unfold KMAIL_SUBDIR_PREFIX in *. simpl in Hr |- *.
    injection Hr as -> _. reflexivity.
Qed.

Lemma strip_suffix_alone : MaildirM.strip_component KMAIL_SUBDIR_SUFFIX = "".
Proof. reflexivity. Qed.

Lemma path_list_nth (opts : options) (d : path) (i : nat) :
  nth_error (path_list (MaildirM.init opts d)) i =
  option_map MaildirM.strip_component (nth_error d i).
Proof. simpl. apply nth_error_map. Qed.

(** A name that [glob] does not treat as hidden is kept by the stripping. *)
Lemma strip_not_hidden (x : string) :
  Fnmatch.ishidden x = false -> MaildirM.strip_component x = x.
Proof.
  intros H. apply strip_unchanged.
  destruct (Py.startswith x KMAIL_SUBDIR_PREFIX) eqn:E; [|reflexivity].
  apply startswith_iff in E as [r ->]. discriminate H.
Qed.

End MaildirFacts.

(** * Facts about [fnmatch] and the discovery *)

Module DiscoveryFacts.
Import StrFacts.

(** Induction on the file system tree. *)
Lemma node_nested_ind (P : node -> Prop) :
  P File ->
  (forall es, Forall (fun e => P (snd e)) es -> P (Dir es)) ->
  forall n, P n.
Proof.
  intros HFile HDir. fix IH 1. intros [|es]; [exact HFile|].
  apply HDir. induction es as [|[x c] es IHes]; constructor.
  - apply IH.
  - exact IHes.
Qed.

Lemma fnmatch_plain (pat x : string) :
  plain pat = true -> Fnmatch.fnmatch pat x = true -> x = pat.
Proof.
  revert x; induction pat as [|c pat IH]; intros x Hp Hm.
  - destruct x; [reflexivity | discriminate Hm].
  - unfold plain in Hp. simpl in Hp.
    rewrite !negb_orb in Hp.
    apply andb_true_iff in Hp as [Hs Hq].
    apply andb_true_iff in Hs as [Hs1 Hs2].
    apply andb_true_iff in Hq as [Hq1 Hq2].
    apply negb_true_iff in Hs1, Hq1.
    simpl in Hm. rewrite Hs1, Hq1 in Hm.
    destruct x as [|d x]; [discriminate Hm|].
    apply andb_true_iff in Hm as [Hc Hm].
    apply Ascii.eqb_eq in Hc as <-.
    f_equal. apply IH; [|exact Hm].
    unfold plain. now rewrite Hs2, Hq2.
Qed.

Lemma fnmatch_star (pat x : string) :
  Fnmatch.fnmatch (String "*" pat) x = true ->
  exists a b, x = (a ++ b)%string /\ Fnmatch.fnmatch pat b = true.
Proof.
  simpl. induction x as [|d x IH]; intros H.
  - apply orb_true_iff in H as [H|H]; [|discriminate H].
    now exists "", "".
  - apply orb_true_iff in H as [H|H].
    + now exists "", (String d x).
    + destruct (IH H) as (a & b & -> & Hb).
      now exists (String d a), b.
Qed.

(** The names [glob] reports for [.*.directory]. *)
Lemma container_name (x : string) :
  Fnmatch.selects Kmail2Maildir.container_pattern x = true ->
  exists token, x = (KMAIL_SUBDIR_PREFIX ++ token ++ KMAIL_SUBDIR_SUFFIX)%string.
Proof.
  unfold Fnmatch.selects. intros H.
  apply andb_true_iff in H as [_ H].
  destruct x as [|d x]; [discriminate H|].
  change Kmail2Maildir.container_pattern
    with (String "." (String "*" ".directory")) in H.
  cbn [Fnmatch.fnmatch] in H.
  change (Ascii.eqb "." "*") with false in H.
  change (Ascii.eqb "." "?") with false in H.
  cbv iota in H.
  apply andb_true_iff in H as [Hd H].
  apply Ascii.eqb_eq in Hd as <-.
  apply (fnmatch_star ".directory" x) in H as (a & b & -> & Hb).
  apply fnmatch_plain in Hb as ->; [|reflexivity].
  now exists a.
Qed.

Lemma fnmatch_star_eq (pat x : string) :
  Fnmatch.fnmatch (String "*" pat) x =
  Fnmatch.fnmatch pat x ||
  match x with
  | EmptyString => false
  | String _ x' => Fnmatch.fnmatch (String "*" pat) x'
  end.
Proof. destruct x; reflexivity. Qed.

Lemma fnmatch_star_suffix (pat a b : string) :
  Fnmatch.fnmatch pat b = true -> Fnmatch.fnmatch (String "*" pat) (a ++ b) = true.
Proof.
  intros H. induction a as [|c a IH]; rewrite fnmatch_star_eq.
  - simpl. now rewrite H.
  - change (String c a ++ b)%string with (String c (a ++ b)).
    cbv iota. rewrite IH. apply orb_true_r.
Qed.

Lemma container_name_selected (token : string) :
  Fnmatch.selects Kmail2Maildir.container_pattern
    (KMAIL_SUBDIR_PREFIX ++ token ++ KMAIL_SUBDIR_SUFFIX)%string = true.
Proof.
  unfold Fnmatch.selects. apply andb_true_iff; split; [reflexivity|].
  change Kmail2Maildir.container_pattern
    with (String "." (String "*" ".directory")).
  change (KMAIL_SUBDIR_PREFIX ++ token ++ KMAIL_SUBDIR_SUFFIX)%string
    with (String "." (token ++ ".directory")).
  change (Fnmatch.fnmatch (String "." (String "*" ".directory"))
            (String "." (token ++ ".directory")))
    with (true && Fnmatch.fnmatch (String "*" ".directory") (token ++ ".directory")).
  now rewrite fnmatch_star_suffix.
Qed.

Lemma glob1_spec (names : list string) (pattern x : string) :
  In x (Fnmatch.glob1 names pattern) <->
  In x names /\ Fnmatch.selects pattern x = true.
Proof.
  unfold Fnmatch.glob1, Fnmatch.selects.
  destruct (Fnmatch.ishidden pattern); cbn [orb];
    rewrite !filter_In; [tauto|].
  rewrite negb_true_iff, andb_true_iff, negb_true_iff. tauto.
Qed.

Lemma glob_spec (f : node) (d : path) (pattern : string) (p : path) :
  In p (FS.glob f d pattern) <->
  exists es x, FS.lookup f d = Some (Dir es) /\ In x (map fst es) /\
               Fnmatch.selects pattern x = true /\ p = d ++ [x].
Proof.
  unfold FS.glob. split.
  - destruct (FS.lookup f d) as [[|es]|]; try (now intros []).
    intros H. apply in_map_iff in H as (x & <- & Hx).
    apply glob1_spec in Hx as [Hx Hs]. now exists es, x.
  - intros (es & x & -> & Hx & Hs & ->).
    apply (in_map (fun y => d ++ [y])). now apply glob1_spec.
Qed.

(** [glob] with the pattern [*] reports the entries that are not hidden. *)
Lemma selects_star (x : string) :
  Fnmatch.selects "*" x = negb (Fnmatch.ishidden x).
Proof.
  unfold Fnmatch.selects.
  change (Fnmatch.ishidden "*") with false. cbn [orb].
  replace (Fnmatch.fnmatch "*" x) with true; [apply andb_true_r|].
  symmetry. rewrite <- (append_nil_r x). now apply fnmatch_star_suffix.
Qed.

Lemma get_maildirs_spec (root : string) (f : node) (cs : list path) (p : path) :
  In p (Kmail2Maildir.get_maildirs_from_subfoldercontainers root f cs) <->
  exists c, In c cs /\ In p (FS.glob f c "*") /\ FS.isdir f p = true /\
            Py.first_is "." (FS.path_str root p) = false /\
            Kmail2Maildir.is_maildir f p = true.
Proof.
  unfold Kmail2Maildir.get_maildirs_from_subfoldercontainers.
  rewrite in_flat_map. split.
  - intros (c & Hc & H). rewrite !filter_In in H.
    destruct H as [[[Hg Hd] Hh] Hm]. apply negb_true_iff in Hh. now exists c.
  - intros (c & Hc & Hg & Hd & Hh & Hm). exists c. split; [exact Hc|].
    rewrite !filter_In. now rewrite Hh.
Qed.

(** The recursion of [__get_subfolders_containers_recursive] written
    with the list comprehensions of the script. *)
Lemma containers_rec_unfold (es : list (string * node)) (d : path) :
  Kmail2Maildir.containers_rec (Dir es) d =
  d :: flat_map (fun e => Kmail2Maildir.containers_rec (snd e) (d ++ [fst e]))
         (filter (fun e => FS.is_dir_node (snd e))
            (filter (fun e => Fnmatch.selects Kmail2Maildir.container_pattern (fst e)) es)).
Proof.
  cbn [Kmail2Maildir.containers_rec]. f_equal.
  induction es as [|[x c] es IH]; [reflexivity|].
  cbn [flat_map filter fst snd]. rewrite IH.
  destruct (Fnmatch.selects Kmail2Maildir.container_pattern x);
    cbn [andb filter fst snd]; [|reflexivity].
  destruct (FS.is_dir_node c); reflexivity.
Qed.

Lemma containers_rec_shape (sub : node) :
  forall d c, In c (Kmail2Maildir.containers_rec sub d) ->
              exists cs, c = d ++ cs /\ container_names cs.
Proof.
  induction sub as [|es IH] using node_nested_ind; intros d c H.
  - destruct H as [<-|[]]. exists []. split; [now rewrite app_nil_r | constructor].
  - cbn [Kmail2Maildir.containers_rec] in H. destruct H as [<-|H].
    + exists []. split; [now rewrite app_nil_r | constructor].
    + apply in_flat_map in H as ([x child] & He & H).
      destruct (Fnmatch.selects Kmail2Maildir.container_pattern x) eqn:Hs;
        [|now destruct H].
      destruct (FS.is_dir_node child); [|now destruct H].
      cbn [andb] in H. rewrite Forall_forall in IH.
      destruct (IH _ He _ _ H) as (cs & -> & Hcs).
      exists (x :: cs). split; [now rewrite <- app_assoc | now constructor].
Qed.

(** Every discovered maildir sits below a chain of containers and has a
    name that is not hidden. *)
Lemma discover_shape (opts : options) (f : node) (m : Maildir) :
  In m (Kmail2Maildir.discover opts f) ->
  exists cs x,
    m = MaildirM.init opts (cs ++ [x]) /\ container_names cs /\
    Fnmatch.ishidden x = false.
Proof.
  unfold Kmail2Maildir.discover. intros H.
  apply in_map_iff in H as (p & <- & H).
  apply get_maildirs_spec in H as (c & Hc & Hg & _).
  apply glob_spec in Hg as (es & x & _ & _ & Hs & ->).
  apply (containers_rec_shape f [] c) in Hc as (cs & -> & Hcs).
  rewrite selects_star in Hs. apply negb_true_iff in Hs.
  now exists cs, x.
Qed.

End DiscoveryFacts.

(** * The text of the root and the test on the first character *)

Module RootFacts.
Import StrFacts DiscoveryFacts.

Lemma rstrip_slash_first (s : string) :
  Py.all_slashes s = false ->
  exists c t t', s = String c t /\ Py.rstrip_slash s = String c t'.
Proof.
  induction s as [|c s IH]; intros H; [discriminate H|].
  cbn [Py.all_slashes] in H. cbn [Py.rstrip_slash].
  destruct (Py.rstrip_slash s) as [|d r] eqn:E.
  - destruct (Ascii.eqb c "/") eqn:Ec.
    + cbn [andb] in H. destruct (IH H) as (? & ? & ? & _ & N). discriminate N.
    + now exists c, s, "".
  - now exists c, s, (String d r).
Qed.

Lemma split_head_first (a : string) :
  a <> "" -> exists c t t', a = String c t /\ PosixPath.split_head a = String c t'.
Proof.
  intros H. unfold PosixPath.split_head.
  destruct (Py.all_slashes a) eqn:E.
  - destruct a as [|c t]; [now elim H|]. now exists c, t, t.
  - now apply rstrip_slash_first.
Qed.

Lemma join_first (c : ascii) (t x : string) :
  Py.startswith x "/" = false ->
  exists t', PosixPath.join (String c t) x = String c t'.
Proof.
  intros H. unfold PosixPath.join. rewrite H.
  destruct (String.eqb (String c t) "" || Py.endswith (String c t) "/"); simpl; eauto.
Qed.

(** Below a root with a non-empty text every path starts with the first
    character of that text. *)
Lemma path_str_first (root : string) (p : path) :
  root <> "" ->
  Forall (fun x => Py.startswith x "/" = false) p ->
  exists c t t', root = String c t /\ FS.path_str root p = String c t'.
Proof.
  intros Hr Hp. revert root Hr. unfold FS.path_str.
  induction Hp as [|x p Hx _ IH]; intros root Hr.
  - destruct root as [|c t]; [now elim Hr|]. now exists c, t, t.
  - cbn [fold_left].
    destruct (split_head_first root Hr) as (c & t & t' & -> & ->).
    destruct (join_first c t' x Hx) as (t'' & ->).
    destruct (IH (String c t'')) as (c' & u & u' & E & ->); [discriminate|].
    injection E as <- _. now exists c, t, u'.
Qed.

(** When the text of the root starts with a dot, no path passes the test
    [d[0] != '.']: nothing is discovered. *)
Lemma hidden_root_drops_everything (root : string) (f : node) (cs : list path) (p : path) :
  Py.first_is "." root = true ->
  Forall (fun x => Py.startswith x "/" = false) p ->
  ~ In p (Kmail2Maildir.get_maildirs_from_subfoldercontainers root f cs).
Proof.
  intros Hr Hp H. apply get_maildirs_spec in H as (_ & _ & _ & _ & Hd & _).
  destruct (path_str_first root p) as (c & t & t' & -> & E); [|exact Hp|].
  - intros ->. discriminate Hr.
  - rewrite E in Hd. cbn [Py.first_is] in Hr, Hd. congruence.
Qed.

(** When it starts with anything else, a child of a container is
    discovered exactly when it is a directory, is not hidden and holds the
    three special directories. *)
Lemma visible_root_discovery (root : string) (f : node) (cs : list path)
      (c : path) (x : string) :
  root <> "" -> Py.first_is "." root = false ->
  Forall (fun y => Py.startswith y "/" = false) (c ++ [x]) ->
  In c cs ->
  In (c ++ [x]) (Kmail2Maildir.get_maildirs_from_subfoldercontainers root f cs) <->
  (exists es, FS.lookup f c = Some (Dir es) /\ In x (map fst es)) /\
  FS.isdir f (c ++ [x]) = true /\
  Fnmatch.ishidden x = false /\
  Kmail2Maildir.is_maildir f (c ++ [x]) = true.
Proof.
  intros Hr Hv Hs Hc. rewrite get_maildirs_spec. split.
  - intros (c' & _ & Hg & Hd & _ & Hm).
    apply glob_spec in Hg as (es & x' & Hl & Hx & Hsel & E).
    apply app_inj_tail in E as [<- <-].
    rewrite selects_star in Hsel. apply negb_true_iff in Hsel.
    repeat split; try assumption. now exists es.
  - intros ((es & Hl & Hx) & Hd & Hh & Hm).
    exists c. repeat split; try assumption.
    + apply glob_spec. exists es, x. repeat split; try assumption.
      rewrite selects_star. now rewrite Hh.
    + destruct (path_str_first root (c ++ [x]) Hr Hs) as (a & t & t' & -> & ->).
      exact Hv.
Qed.

End RootFacts.

(** * Facts about the flattened paths and their order *)

Module FlattenFacts.
Import StrFacts MaildirFacts DiscoveryFacts.

Lemma contains_char_append (c : ascii) (a b : string) :
  Py.contains_char c (a ++ b) = Py.contains_char c a || Py.contains_char c b.
Proof.
  induction a as [|d a IH]; simpl; [reflexivity|].
  now rewrite IH, orb_assoc.
Qed.

Lemma split_at_char (c : ascii) (a a' r r' : string) :
  Py.contains_char c a = false -> Py.contains_char c a' = false ->
  (a ++ String c r)%string = (a' ++ String c r')%string -> a = a' /\ r = r'.
Proof.
  revert a'; induction a as [|d a IH]; intros [|d' a'] Ha Ha' E; simpl in *.
  - injection E as ->. now split.
  - injection E as <- _. apply orb_false_iff in Ha' as [Hd _].
    now rewrite Ascii.eqb_refl in Hd.
  - injection E as -> _. apply orb_false_iff in Ha as [Hd _].
    now rewrite Ascii.eqb_refl in Hd.
  - injection E as -> E.
    apply orb_false_iff in Ha as [_ Ha]. apply orb_false_iff in Ha' as [_ Ha'].
    destruct (IH _ Ha Ha' E) as [-> ->]. now split.
Qed.

(** [c.join] is injective on non-empty lists of segments free of [c]. *)
Lemma join_char_inj (c : ascii) (l1 l2 : list string) :
  l1 <> [] -> l2 <> [] ->
  Forall (fun s => Py.contains_char c s = false) l1 ->
  Forall (fun s => Py.contains_char c s = false) l2 ->
  Py.join (String c "") l1 = Py.join (String c "") l2 -> l1 = l2.
Proof.
  unfold Py.join.
  revert l2; induction l1 as [|x l1 IH]; intros [|y l2] N1 N2 F1 F2 E;
    try congruence.
  inversion F1 as [|? ? Hx F1']; inversion F2 as [|? ? Hy F2']; subst.
  destruct l1 as [|x' l1], l2 as [|y' l2].
  - simpl in E. now subst.
  - exfalso. change (x = (y ++ String c (String.concat (String c "") (y' :: l2)))%string) in E.
    rewrite E, contains_char_append in Hx. simpl in Hx.
    rewrite Ascii.eqb_refl, orb_true_r in Hx. discriminate.
  - exfalso. change ((x ++ String c (String.concat (String c "") (x' :: l1)))%string = y) in E.
    rewrite <- E, contains_char_append in Hy. simpl in Hy.
    rewrite Ascii.eqb_refl, orb_true_r in Hy. discriminate.
  - change ((x ++ String c (String.concat (String c "") (x' :: l1)))%string
            = (y ++ String c (String.concat (String c "") (y' :: l2)))%string) in E.
    apply split_at_char in E as [-> E]; [|assumption..].
    f_equal. apply IH; [discriminate | discriminate | assumption..].
Qed.

Lemma posix_join_inj (a b b' : string) :
  Py.startswith b "/" = false -> Py.startswith b' "/" = false ->
  PosixPath.join a b = PosixPath.join a b' -> b = b'.
Proof.
  unfold PosixPath.join. intros -> ->.
  destruct (String.eqb a "" || Py.endswith a "/"); intros E.
  - now apply append_inv_head in E.
  - apply append_inv_head in E. now injection E.
Qed.

Lemma folder_path_not_absolute (opts : options) (m : Maildir) :
  Py.startswith (MaildirM.folder_path opts m) "/" = false.
Proof. reflexivity. Qed.

Lemma strip_container_inj (x y : string) :
  Fnmatch.selects Kmail2Maildir.container_pattern x = true ->
  Fnmatch.selects Kmail2Maildir.container_pattern y = true ->
  MaildirM.strip_component x = MaildirM.strip_component y -> x = y.
Proof.
  intros Hx Hy. apply container_name in Hx as [tx ->]. apply container_name in Hy as [ty ->].
  rewrite !strip_exact. now intros ->.
Qed.

Lemma strip_path_inj (cs1 cs2 : path) (x1 x2 : string) :
  container_names cs1 -> container_names cs2 ->
  Fnmatch.ishidden x1 = false -> Fnmatch.ishidden x2 = false ->
  map MaildirM.strip_component (cs1 ++ [x1]) = map MaildirM.strip_component (cs2 ++ [x2]) ->
  cs1 ++ [x1] = cs2 ++ [x2].
Proof.
  intros H1 H2 Hx1 Hx2 E. rewrite !map_app in E. cbn [map] in E.
  apply app_inj_tail in E as [E Ex].
  rewrite !strip_not_hidden in Ex by assumption. subst x2. f_equal.
  clear Hx1. revert cs2 H2 E.
  induction H1 as [|c cs1 Hc _ IH]; intros [|c2 cs2] H2 E; try discriminate E.
  - reflexivity.
  - inversion H2; subst. injection E as Ec E.
    f_equal; [now apply strip_container_inj | now apply IH].
Qed.

(** ** The order of the keys *)

Lemma ascii_compare_refl (c : ascii) : Ascii.compare c c = Eq.
Proof. now apply Ascii_as_OT.cmp_eq. Qed.

Lemma compare_append_head (a b c : string) :
  String.compare (a ++ b) (a ++ c) = String.compare b c.
Proof.
  induction a as [|x a IH]; simpl; [reflexivity|].
  now rewrite ascii_compare_refl.
Qed.

Lemma ltb_irrefl (a : string) : Py.lt a a = false.
Proof.
  unfold Py.lt, String.ltb.
  replace (String.compare a a) with Eq; [reflexivity|].
  symmetry. now apply String_as_OT.cmp_eq.
Qed.

Lemma ltb_proper_prefix (a b : string) : b <> "" -> Py.lt a (a ++ b) = true.
Proof.
  intros Hb. unfold Py.lt, String.ltb.
  rewrite <- (append_nil_r a) at 1. rewrite compare_append_head.
  destruct b; [now elim Hb | reflexivity].
Qed.

Lemma posix_join_lt (a x y : string) :
  Py.startswith x "/" = false -> Py.startswith y "/" = false ->
  Py.lt (PosixPath.join a x) (PosixPath.join a y) = Py.lt x y.
Proof.
  unfold PosixPath.join, Py.lt, String.ltb. intros -> ->.
  destruct (String.eqb a "" || Py.endswith a "/").
  - now rewrite compare_append_head.
  - now rewrite !compare_append_head.
Qed.

Lemma ge_trans (x y z : string) :
  Py.lt x y = false -> Py.lt y z = false -> Py.lt x z = false.
Proof.
  unfold Py.lt, String.ltb. intros Hxy Hyz.
  destruct (String.compare x z) eqn:Hxz; try reflexivity.
  destruct (String.compare x y) eqn:Exy; try discriminate Hxy.
  - apply String_as_OT.cmp_eq in Exy. subst. now rewrite Hxz in Hyz.
  - assert (Hyx : String.compare y x = Lt)
      by (rewrite String.compare_antisym, Exy; reflexivity).
    apply String_as_OT.cmp_lt in Hyx, Hxz.
    pose proof (String_as_OT.lt_trans _ _ _ Hyx Hxz) as Hlt.
    apply String_as_OT.cmp_lt in Hlt. unfold String_as_OT.cmp in Hlt.
    now rewrite Hlt in Hyz.
Qed.

Lemma lt_not_ge (x y : string) : Py.lt x y = true -> Py.lt y x = false.
Proof.
  unfold Py.lt, String.ltb. rewrite (String.compare_antisym y x).
  now destruct (String.compare x y).
Qed.

End FlattenFacts.

(** * Facts about [list.sort(key=..., reverse=True)] *)

Section SortFacts.

Context {A : Type} (key : A -> string).

Lemma insert_desc_perm (x : A) (l : list A) :
  Permutation (x :: l) (Kmail2Maildir.insert_desc key x l).
Proof.
  induction l as [|y l IH]; simpl; [reflexivity|].
  destruct (Py.lt (key x) (key y)); [|reflexivity].
  rewrite perm_swap. now constructor.
Qed.

Lemma sort_desc_perm (l : list A) : Permutation l (Kmail2Maildir.sort_desc key l).
Proof.
  induction l as [|x l IH]; simpl; [constructor|].
  rewrite <- insert_desc_perm. now constructor.
Qed.

Lemma sort_desc_In (l : list A) (x : A) :
  In x (Kmail2Maildir.sort_desc key l) <-> In x l.
Proof.
  split; apply Permutation_in;
    [apply Permutation_sym|]; apply sort_desc_perm.
Qed.

Lemma insert_desc_sorted (x : A) (l : list A) :
  StronglySorted (desc key) l -> StronglySorted (desc key) (Kmail2Maildir.insert_desc key x l).
Proof.
  induction 1 as [|y l Hl IH Hy]; simpl.
  - repeat constructor.
  - destruct (Py.lt (key x) (key y)) eqn:E.
    + constructor; [exact IH|].
      rewrite Forall_forall in Hy |- *. intros z Hz.
      apply (Permutation_in _ (Permutation_sym (insert_desc_perm x l))) in Hz.
      destruct Hz as [<-|Hz]; [|now apply Hy].
      now apply FlattenFacts.lt_not_ge.
    + constructor; [now constructor|].
      constructor; [exact E|].
      rewrite Forall_forall in Hy |- *. intros z Hz.
      apply (FlattenFacts.ge_trans _ (key y)); [exact E | now apply Hy].
Qed.

Lemma sort_desc_sorted (l : list A) : StronglySorted (desc key) (Kmail2Maildir.sort_desc key l).
Proof.
  induction l as [|x l IH]; simpl; [constructor | now apply insert_desc_sorted].
Qed.

(** In a descending list an element with a strictly greater key stands
    before one with a smaller key. *)
Lemma sorted_greater_first (l : list A) (i j : nat) (x y : A) :
  StronglySorted (desc key) l ->
  nth_error l i = Some x -> nth_error l j = Some y ->
  Py.lt (key x) (key y) = true -> j < i.
Proof.
  intros Hs. revert i j. induction Hs as [|z l Hl IH Hz]; intros i j Hi Hj Hlt.
  - now destruct i.
  - destruct i as [|i], j as [|j]; simpl in Hi, Hj.
    + injection Hi as ->. injection Hj as ->.
      now rewrite FlattenFacts.ltb_irrefl in Hlt.
    + injection Hi as ->. apply nth_error_In in Hj.
      rewrite Forall_forall in Hz. specialize (Hz _ Hj). unfold desc in Hz.
      congruence.
    + lia.
    + specialize (IH _ _ Hi Hj Hlt). lia.
Qed.

End SortFacts.

(** * Facts about the gateway and the engine *)

Module EngineFacts.

(** ** Sequencing *)

Lemma seq_ok (m k : M) (w w' : world) : m w = (w', Ok) -> (m ;; k) w = k w'.
Proof. unfold seq. now intros ->. Qed.

Lemma seq_raised (m k : M) (w w' : world) (e : error) :
  m w = (w', Raised e) -> (m ;; k) w = (w', Raised e).
Proof. unfold seq. now intros ->. Qed.

Lemma seq_cases (m k : M) (w : world) :
  (snd (m w) = Ok /\ (m ;; k) w = k (fst (m w))) \/
  (snd (m w) <> Ok /\ (m ;; k) w = m w).
Proof.
  unfold seq. destruct (m w) as [w' [|e]]; simpl.
  - now left.
  - right. split; [discriminate | reflexivity].
Qed.

(** ** Dry runs leave the file system alone *)

Lemma keeps_fs_ret : keeps_fs ret.
Proof. now intros w. Qed.

Lemma keeps_fs_seq (m k : M) : keeps_fs m -> keeps_fs k -> keeps_fs (m ;; k).
Proof.
  intros Hm Hk w. destruct (seq_cases m k w) as [[_ ->]|[_ ->]].
  - now rewrite Hk, Hm.
  - apply Hm.
Qed.

Lemma keeps_fs_for_each {A : Type} (l : list A) (body : A -> M) :
  (forall x, keeps_fs (body x)) -> keeps_fs (for_each l body).
Proof.
  intros H. induction l as [|x l IH]; simpl.
  - apply keeps_fs_ret.
  - now apply keeps_fs_seq.
Qed.

Lemma keeps_fs_run (self : FileSystemAction) (msg : action) (fn : node -> option node) :
  dry_run self = true -> keeps_fs (FSA.run self msg fn).
Proof. intros H w. unfold FSA.run. now rewrite H. Qed.

Lemma keeps_fs_rename (self : FileSystemAction) (src dst : path) :
  dry_run self = true -> keeps_fs (FSA.rename self src dst).
Proof.
  intros H w. unfold FSA.rename.
  destruct (FS.exists_ (fs w) dst); [reflexivity | now apply keeps_fs_run].
Qed.

Lemma keeps_fs_delete (self : FileSystemAction) (p : path) :
  dry_run self = true -> keeps_fs (FSA.delete self p).
Proof. apply keeps_fs_run. Qed.

Lemma keeps_fs_rmdir (self : FileSystemAction) (p : path) :
  dry_run self = true -> keeps_fs (FSA.rmdir self p).
Proof. apply keeps_fs_run. Qed.

Lemma keeps_fs_remove_index_files (self : FileSystemAction) (m : Maildir) :
  dry_run self = true -> keeps_fs (Kmail2Maildir.remove_index_files self m).
Proof.
  intros H w. unfold Kmail2Maildir.remove_index_files.
  apply keeps_fs_for_each. intros x. now apply keeps_fs_delete.
Qed.

Lemma keeps_fs_prune_parent (self : FileSystemAction) (parent : option path) :
  dry_run self = true -> keeps_fs (Kmail2Maildir.prune_parent self parent).
Proof.
  intros H w. unfold Kmail2Maildir.prune_parent.
  destruct parent as [p|]; [|reflexivity].
  destruct (Kmail2Maildir.is_empty_dir (fs w) p) as [[|]|]; try reflexivity.
  now apply keeps_fs_rmdir.
Qed.

Lemma keeps_fs_move_one (opts : options) (self : FileSystemAction) (m : Maildir) :
  dry_run self = true -> keeps_fs (Kmail2Maildir.move_one opts self m).
Proof.
  intros H. unfold Kmail2Maildir.move_one.
  apply keeps_fs_seq; [now apply keeps_fs_rename|].
  apply keeps_fs_seq; [|now apply keeps_fs_prune_parent].
  destruct (remove_index_files_opt opts);
    [now apply keeps_fs_remove_index_files | apply keeps_fs_ret].
Qed.

Lemma keeps_fs_move_inbox (self : FileSystemAction) :
  dry_run self = true -> keeps_fs (Kmail2Maildir.move_inbox self).
Proof.
  intros H. unfold Kmail2Maildir.move_inbox.
  apply keeps_fs_seq; [|now apply keeps_fs_rmdir].
  apply keeps_fs_for_each. intros x. now apply keeps_fs_rename.
Qed.

Lemma keeps_fs_move_kmail_folders (opts : options) (self : FileSystemAction) :
  dry_run self = true -> keeps_fs (Kmail2Maildir.move_kmail_folders opts self).
Proof.
  intros H w. unfold Kmail2Maildir.move_kmail_folders.
  apply keeps_fs_seq; [|now apply keeps_fs_move_inbox].
  apply keeps_fs_for_each. intros x. now apply keeps_fs_move_one.
Qed.

End EngineFacts.

Module TraceFacts.
Import EngineFacts Trace.

Lemma renames_of_app (l1 l2 : list action) :
  renames_of (l1 ++ l2) = renames_of l1 ++ renames_of l2.
Proof. apply filter_app. Qed.

Lemma adds_no_rename_ret : adds_no_rename ret.
Proof. intros w. exists []. now rewrite app_nil_r. Qed.

Lemma adds_no_rename_seq (m k : M) :
  adds_no_rename m -> adds_no_rename k -> adds_no_rename (m ;; k).
Proof.
  intros Hm Hk w. destruct (Hm w) as (l1 & E1 & R1).
  destruct (seq_cases m k w) as [[_ ->]|[_ ->]].
  - destruct (Hk (fst (m w))) as (l2 & E2 & R2).
    exists (l1 ++ l2). rewrite E2, E1, app_assoc, renames_of_app, R1, R2. now split.
  - now exists l1.
Qed.

Lemma adds_no_rename_for_each {A : Type} (l : list A) (body : A -> M) :
  (forall x, adds_no_rename (body x)) -> adds_no_rename (for_each l body).
Proof.
  intros H. induction l as [|x l IH]; simpl.
  - apply adds_no_rename_ret.
  - now apply adds_no_rename_seq.
Qed.

Lemma run_calls (self : FileSystemAction) (msg : action) (fn : node -> option node)
      (w : world) :
  calls (fst (FSA.run self msg fn w)) = calls w ++ [msg].
Proof.
  unfold FSA.run. destruct (dry_run self); [reflexivity|].
  now destruct (fn _).
Qed.

Lemma adds_no_rename_delete (self : FileSystemAction) (p : path) :
  adds_no_rename (FSA.delete self p).
Proof. intros w. exists [RemovingFile p]. split; [apply run_calls | reflexivity]. Qed.

Lemma adds_no_rename_rmdir (self : FileSystemAction) (p : path) :
  adds_no_rename (FSA.rmdir self p).
Proof. intros w. exists [RemovingFolder p]. split; [apply run_calls | reflexivity]. Qed.

Lemma adds_no_rename_remove_index_files (self : FileSystemAction) (m : Maildir) :
  adds_no_rename (Kmail2Maildir.remove_index_files self m).
Proof.
  intros w. unfold Kmail2Maildir.remove_index_files.
  apply adds_no_rename_for_each. intros x. apply adds_no_rename_delete.
Qed.

Lemma adds_no_rename_prune_parent (self : FileSystemAction) (parent : option path) :
  adds_no_rename (Kmail2Maildir.prune_parent self parent).
Proof.
  intros w. unfold Kmail2Maildir.prune_parent.
  destruct parent as [p|]; [|apply adds_no_rename_ret].
  destruct (Kmail2Maildir.is_empty_dir (fs w) p) as [[|]|];
    [apply adds_no_rename_rmdir | apply adds_no_rename_ret | ].
  exists []. now rewrite app_nil_r.
Qed.

Lemma rename_cases (self : FileSystemAction) (src dst : path) (w : world) :
  (FS.exists_ (fs w) dst = true /\
   FSA.rename self src dst w = (w, Raised (DestinationExists dst))) \/
  (FS.exists_ (fs w) dst = false /\
   calls (fst (FSA.rename self src dst w)) = calls w ++ [Moving src dst]).
Proof.
  unfold FSA.rename. destruct (FS.exists_ (fs w) dst).
  - now left.
  - right. split; [reflexivity | apply run_calls].
Qed.

(** One turn of the loop either stops at the check of the destination or
    issues the rename of its maildir, followed by removals only. *)
Lemma move_one_trace (opts : options) (fsa : FileSystemAction) (m : Maildir) (w : world) :
  (snd (Kmail2Maildir.move_one opts fsa m w) <> Ok /\
   calls (fst (Kmail2Maildir.move_one opts fsa m w)) = calls w) \/
  (exists rest,
      calls (fst (Kmail2Maildir.move_one opts fsa m w)) = calls w ++ mv opts m :: rest /\
      renames_of rest = []).
Proof.
  unfold Kmail2Maildir.move_one.
  set (k := (if remove_index_files_opt opts
             then Kmail2Maildir.remove_index_files fsa m else ret) ;;
            Kmail2Maildir.prune_parent fsa (MaildirM.get_parent_maildir m)).
  assert (Hk : adds_no_rename k).
  { apply adds_no_rename_seq; [|apply adds_no_rename_prune_parent].
    destruct (remove_index_files_opt opts);
      [apply adds_no_rename_remove_index_files | apply adds_no_rename_ret]. }
  destruct (rename_cases fsa (directory m) (MaildirM.get_folder_path_loc opts m) w)
    as [[_ E]|[_ E]].
  - left. rewrite (seq_raised _ _ _ _ _ E). split; [discriminate | reflexivity].
  - right.
    destruct (seq_cases (FSA.rename fsa (directory m) (MaildirM.get_folder_path_loc opts m)) k w)
      as [[_ ->]|[_ ->]].
    + destruct (Hk (fst (FSA.rename fsa (directory m)
                           (MaildirM.get_folder_path_loc opts m) w))) as (rest & E2 & R).
      exists rest. rewrite E2, E, <- app_assoc. now split.
    + exists []. now split.
Qed.

(** The renames of the loop are those of a prefix of its list, of the
    whole list when the loop returns. *)
Lemma loop_renames (opts : options) (fsa : FileSystemAction) (l : list Maildir) :
  forall w, exists new k,
    calls (fst (for_each l (Kmail2Maildir.move_one opts fsa) w)) = calls w ++ new /\
    renames_of new = map (mv opts) (firstn k l) /\
    (snd (for_each l (Kmail2Maildir.move_one opts fsa) w) = Ok -> k = List.length l).
Proof.
  induction l as [|m l IH]; intros w.
  - exists [], 0. simpl. now rewrite app_nil_r.
  - cbn [for_each].
    destruct (seq_cases (Kmail2Maildir.move_one opts fsa m)
                (for_each l (Kmail2Maildir.move_one opts fsa)) w) as [[Hok ->]|[Hko ->]].
    + destruct (move_one_trace opts fsa m w) as [[N _]|(rest & E & R)]; [now elim N|].
      destruct (IH (fst (Kmail2Maildir.move_one opts fsa m w))) as (new & k & E' & R' & K).
      exists (mv opts m :: rest ++ new), (S k). repeat split.
      * rewrite E', E, <- app_assoc. reflexivity.
      * unfold renames_of in *. cbn [filter mv is_moving firstn map].
        fold (mv opts m). f_equal.
        now rewrite filter_app, R, R'.
      * intros H. simpl. f_equal. now apply K.
    + destruct (move_one_trace opts fsa m w) as [[_ E]|(rest & E & R)].
      * exists [], 0. rewrite E, app_nil_r. repeat split. intros H. now elim Hko.
      * exists (mv opts m :: rest), 1. repeat split.
        -- exact E.
        -- unfold renames_of in *. cbn [filter mv is_moving firstn map].
           fold (mv opts m). now rewrite R.
        -- intros H. now elim Hko.
Qed.

End TraceFacts.

(** * The calls of the inbox relocation *)

Module InboxFacts.
Import EngineFacts Trace TraceFacts.

Lemma prefix_trace_ret : prefix_trace ret [].
Proof. intros w. exists 0. simpl. now rewrite app_nil_r. Qed.

Lemma prefix_trace_seq (m k : M) (l1 l2 : list action) :
  prefix_trace m l1 -> prefix_trace k l2 -> prefix_trace (m ;; k) (l1 ++ l2).
Proof.
  intros Hm Hk w. destruct (Hm w) as (n1 & E1 & K1).
  destruct (seq_cases m k w) as [[Hok ->]|[Hko ->]].
  - destruct (Hk (fst (m w))) as (n2 & E2 & K2).
    specialize (K1 Hok). subst n1. rewrite firstn_all in E1.
    exists (List.length l1 + n2). split.
    + now rewrite firstn_app_2, E2, E1, app_assoc.
    + intros H. rewrite (K2 H). now rewrite length_app.
  - exists (Nat.min n1 (List.length l1)). split.
    + rewrite firstn_app.
      replace (Nat.min n1 (List.length l1) - List.length l1) with 0 by lia.
      rewrite firstn_O, app_nil_r, E1. f_equal.
      destruct (Nat.le_ge_cases n1 (List.length l1)) as [L|L].
      * now rewrite Nat.min_l.
      * rewrite Nat.min_r by exact L. now rewrite firstn_all, firstn_all2.
    + intros H. now elim Hko.
Qed.

Lemma prefix_trace_rename (self : FileSystemAction) (src dst : path) :
  prefix_trace (FSA.rename self src dst) [Moving src dst].
Proof.
  intros w. destruct (rename_cases self src dst w) as [[_ E]|[_ E]].
  - exists 0. rewrite E. simpl. rewrite app_nil_r. split; [reflexivity | discriminate].
  - exists 1. now split.
Qed.

Lemma prefix_trace_rmdir (self : FileSystemAction) (p : path) :
  prefix_trace (FSA.rmdir self p) [RemovingFolder p].
Proof. intros w. exists 1. split; [apply run_calls | reflexivity]. Qed.

Lemma move_inbox_trace (self : FileSystemAction) :
  prefix_trace (Kmail2Maildir.move_inbox self) inbox_relocation.
Proof.
  unfold Kmail2Maildir.move_inbox.
  change inbox_relocation
    with (([Moving [".inbox"; "cur"] ["cur"]] ++
           [Moving [".inbox"; "new"] ["new"]] ++
           [Moving [".inbox"; "tmp"] ["tmp"]] ++ []) ++ [RemovingFolder [".inbox"]]).
  apply prefix_trace_seq; [|apply prefix_trace_rmdir].
  cbn [for_each MAILDIR_SPECIAL_DIRS].
  repeat (apply prefix_trace_seq; [apply prefix_trace_rename|]).
  apply prefix_trace_ret.
Qed.

Lemma In_firstn {A : Type} (x : A) (n : nat) (l : list A) :
  In x (firstn n l) -> In x l.
Proof.
  revert l; induction n as [|n IH]; intros [|y l] H; simpl in *; try tauto.
  destruct H as [H|H]; [now left | right; now apply IH].
Qed.

(** The rename of a maildir is none of the calls of the relocation. *)
Lemma mv_not_inbox (opts : options) (m : Maildir) (n : nat) :
  ~ In (mv opts m) (firstn n inbox_relocation).
Proof.
  intros H. apply In_firstn in H.
  unfold mv, MaildirM.get_folder_path_loc, MaildirM.folder_path in H.
  simpl in H.
  destruct H as [H|[H|[H|[H|[]]]]]; discriminate H.
Qed.

End InboxFacts.

Module NestingFacts.
Import StrFacts MaildirFacts DiscoveryFacts FlattenFacts Nesting.

Lemma append_eq_nil (a b : string) : (a ++ b)%string = "" -> b = "".
Proof. destruct a; simpl; [tauto | discriminate]. Qed.

Lemma last_app_r {A : Type} (l1 l2 : list A) (d : A) :
  l2 <> [] -> last (l1 ++ l2) d = last l2 d.
Proof.
  intros H. induction l1 as [|x l1 IH]; [reflexivity|].
  cbn [app]. destruct (l1 ++ l2) eqn:E; [|exact IH].
  apply app_eq_nil in E as [_ ->]. now elim H.
Qed.

Lemma concat_last_nonempty (sep : string) (l : list string) :
  last l "" <> "" -> String.concat sep l <> "".
Proof.
  induction l as [|x [|y l] IH]; intros H.
  - now elim H.
  - exact H.
  - change (String.concat sep (x :: y :: l))
      with (x ++ sep ++ String.concat sep (y :: l))%string.
    intros E. apply append_eq_nil, append_eq_nil in E. now apply IH.
Qed.

Lemma concat_app_tail (sep : string) (l1 l2 : list string) :
  last l2 "" <> "" ->
  exists t, t <> "" /\
            String.concat sep (l1 ++ l2) = (String.concat sep l1 ++ t)%string.
Proof.
  intros H. induction l1 as [|x l1 (t & Ht & IH)].
  - exists (String.concat sep l2). split; [now apply concat_last_nonempty | reflexivity].
  - assert (N : l1 ++ l2 <> []).
    { destruct l1; [|discriminate]. destruct l2; [now elim H | discriminate]. }
    assert (E : String.concat sep (x :: l1 ++ l2)
                = (x ++ sep ++ String.concat sep (l1 ++ l2))%string).
    { destruct (l1 ++ l2); [now elim N | reflexivity]. }
    cbn [app]. rewrite E, IH. destruct l1 as [|y l1].
    + exists (sep ++ t)%string. split; [|reflexivity].
      intros E'. now apply append_eq_nil in E'.
    + exists t. split; [exact Ht|].
      change (String.concat sep (x :: y :: l1))
        with (x ++ sep ++ String.concat sep (y :: l1))%string.
      now rewrite !append_assoc.
Qed.

(** The flattened path of an ancestor is a proper prefix of the flattened
    path of its descendant, hence strictly smaller. *)
Lemma ancestor_key_lt (opts : options) (F G : Maildir) :
  ancestor F G -> last (path_list G) "" <> "" ->
  Py.lt (MaildirM.get_folder_path opts F) (MaildirM.get_folder_path opts G) = true.
Proof.
  intros (rest & Hr & E) Hl.
  unfold MaildirM.get_folder_path.
  rewrite posix_join_lt by apply folder_path_not_absolute.
  unfold MaildirM.folder_path, Py.join. rewrite E in Hl |- *.
  assert (Hl' : last rest "" <> "").
  { now rewrite last_app_r in Hl. }
  destruct (concat_app_tail (hierarchy_separator opts) (path_list F) rest Hl')
    as (t & Ht & ->).
  rewrite <- append_assoc. now apply ltb_proper_prefix.
Qed.

Lemma discovered_last_segment (opts : options) (f : node) (m : Maildir) :
  In m (Kmail2Maildir.discover opts f) ->
  last (path_list m) "" = name m /\ Fnmatch.ishidden (name m) = false.
Proof.
  intros H. apply discover_shape in H as (cs & x & -> & _ & Hx).
  unfold MaildirM.init, FS.basename. cbn [path_list name].
  rewrite map_app. cbn [map]. rewrite !last_last.
  now rewrite strip_not_hidden.
Qed.

(** Kmail's layout on disk: the subfolders of a discovered folder live
    below the container next to it. *)
Lemma kmail_nesting_ancestor (opts : options) (f : node) (F G : Maildir) (rest : path) :
  In F (Kmail2Maildir.discover opts f) ->
  G = MaildirM.init opts
        (FS.dirname (directory F) ++ container_of (name F) :: rest) ->
  rest <> [] -> ancestor F G.
Proof.
  intros HF -> Hr. apply discover_shape in HF as (cs & x & -> & _ & Hx).
  unfold ancestor, MaildirM.init, FS.dirname, FS.basename.
  cbn [path_list name directory].
  rewrite removelast_last, last_last.
  exists (map MaildirM.strip_component rest). split.
  - destruct rest; [now elim Hr | discriminate].
  - rewrite !map_app. cbn [map]. unfold container_of.
    rewrite strip_exact, (strip_not_hidden x Hx), <- app_assoc. reflexivity.
Qed.

End NestingFacts.

Module DryInboxFacts.
Import EngineFacts Trace TraceFacts InboxFacts.

Lemma rename_dry_result (self : FileSystemAction) (src dst : path) (w : world) :
  dry_run self = true ->
  snd (FSA.rename self src dst w) =
  if FS.exists_ (fs w) dst then Raised (DestinationExists dst) else Ok.
Proof.
  intros H. unfold FSA.rename, FSA.run.
  destruct (FS.exists_ (fs w) dst); [reflexivity | now rewrite H].
Qed.

Lemma run_dry_result (self : FileSystemAction) (msg : action)
      (fn : node -> option node) (w : world) :
  dry_run self = true -> snd (FSA.run self msg fn w) = Ok.
Proof. intros H. unfold FSA.run. now rewrite H. Qed.

(** In a dry run the relocation of the inbox returns as soon as the base
    folder has no [cur], [new] and [tmp]. *)
Lemma move_inbox_dry_ok (self : FileSystemAction) (w : world) :
  dry_run self = true ->
  FS.exists_ (fs w) ["cur"] = false ->
  FS.exists_ (fs w) ["new"] = false ->
  FS.exists_ (fs w) ["tmp"] = false ->
  snd (Kmail2Maildir.move_inbox self w) = Ok.
Proof.
  intros Hdry Hc Hn Ht.
  assert (step : forall (src dst : path) (k : M) (w1 : world),
             fs w1 = fs w -> FS.exists_ (fs w) dst = false ->
             (forall w2, fs w2 = fs w -> snd (k w2) = Ok) ->
             snd ((FSA.rename self src dst ;; k) w1) = Ok).
  { intros src dst k w1 E1 Hd Hk.
    destruct (seq_cases (FSA.rename self src dst) k w1) as [[_ ->]|[N _]].
    - apply Hk. rewrite keeps_fs_rename by exact Hdry. exact E1.
    - rewrite rename_dry_result, E1, Hd in N by exact Hdry. now elim N. }
  unfold Kmail2Maildir.move_inbox. cbn [for_each MAILDIR_SPECIAL_DIRS].
  destruct (seq_cases
              (FSA.rename self (Kmail2Maildir.kmail_inbox ++ ["cur"]) ["cur"];;
               FSA.rename self (Kmail2Maildir.kmail_inbox ++ ["new"]) ["new"];;
               FSA.rename self (Kmail2Maildir.kmail_inbox ++ ["tmp"]) ["tmp"];; ret)
              (FSA.rmdir self Kmail2Maildir.kmail_inbox) w) as [[_ ->]|[N _]].
  - now apply run_dry_result.
  - elim N. apply step; [reflexivity | exact Hc |].
    intros w2 E2. apply step; [exact E2 | exact Hn |].
    intros w3 E3. apply step; [exact E3 | exact Ht |].
    reflexivity.
Qed.

End DryInboxFacts.


Module PassFacts.
Import EngineFacts Trace TraceFacts InboxFacts.

(** The calls of one pass: those of the loop over the folders, then
    those of the relocation of the inbox, which are only issued once the
    loop has returned. *)
Lemma pass_trace (opts : options) (fsa : FileSystemAction) (w : world) :
  exists per_folder k n,
    calls (fst (per_folder_loop opts fsa w)) = calls w ++ per_folder /\
    calls (fst (Kmail2Maildir.move_kmail_folders opts fsa w))
      = calls w ++ per_folder ++ firstn n inbox_relocation /\
    renames_of per_folder
      = map (mv opts) (firstn k (Kmail2Maildir.sorted_maildirs opts (fs w))) /\
    (snd (per_folder_loop opts fsa w) = Ok ->
     k = List.length (Kmail2Maildir.sorted_maildirs opts (fs w))) /\
    (firstn n inbox_relocation <> [] -> snd (per_folder_loop opts fsa w) = Ok) /\
    (snd (Kmail2Maildir.move_kmail_folders opts fsa w) = Ok ->
     n = List.length inbox_relocation).
Proof.
  unfold per_folder_loop, Kmail2Maildir.move_kmail_folders.
  set (l := Kmail2Maildir.sorted_maildirs opts (fs w)).
  destruct (loop_renames opts fsa l w) as (pf & k & E & R & K).
  destruct (seq_cases (for_each l (Kmail2Maildir.move_one opts fsa))
              (Kmail2Maildir.move_inbox fsa) w) as [[Hok ->]|[Hko ->]].
  - destruct (move_inbox_trace fsa (fst (for_each l (Kmail2Maildir.move_one opts fsa) w)))
      as (n & E' & K').
    exists pf, k, n. repeat split; try assumption.
    + now rewrite E', E, app_assoc.
    + intros _. exact Hok.
  - exists pf, k, 0. cbn [firstn]. rewrite app_nil_r. repeat split; try assumption.
    + intros N. now elim N.
    + intros H. now elim Hko.
Qed.

Lemma mv_key (opts : options) (m1 m2 : Maildir) :
  mv opts m1 = mv opts m2 ->
  MaildirM.get_folder_path opts m1 = MaildirM.get_folder_path opts m2.
Proof.
  unfold mv, MaildirM.get_folder_path_loc, MaildirM.get_folder_path.
  intros E.
  assert (E' : MaildirM.folder_path opts m1 = MaildirM.folder_path opts m2)
    by congruence.
  now rewrite E'.
Qed.

(** The real pass of [kmail2maildir] is entered only when the validation
    pass has returned; a validation pass that raises ends the run with the
    file system untouched. *)
Lemma validation_gates_real_pass (args : options) (w : world) :
  dry_run_opt args = false ->
  snd (Kmail2Maildir.move_kmail_folders args Examples.validation w) <> Ok ->
  kmail2maildir args w = Kmail2Maildir.move_kmail_folders args Examples.validation w /\
  fs (fst (kmail2maildir args w)) = fs w.
Proof.
  intros Hd Hr. unfold kmail2maildir. rewrite Hd. cbn [negb].
  fold Examples.validation.
  destruct (seq_cases (Kmail2Maildir.move_kmail_folders args Examples.validation)
              (Kmail2Maildir.move_kmail_folders args {| dry_run := false; quiet := false |}) w)
    as [[Hok _]|[_ ->]]; [now elim Hr|].
  split; [reflexivity|]. now apply keeps_fs_move_kmail_folders.
Qed.

End PassFacts.


(** * The examples, evaluated *)

Module ExampleFacts.
Import Examples.

(** The scenario of the specification: [Old] is renamed before
    [Projects], the index files go, the emptied containers are removed
    and the inbox ends in the base folder. *)
Example nested_store_real_pass :
  Kmail2Maildir.move_kmail_folders (args "/mail" true false) real (initial nested_store) =
  ({| fs := Dir [ (".Archive.Projects.Old", maildir);
                  (".Archive.Projects", maildir);
                  (".Archive", maildir);
                  ("cur", Dir []); ("new", Dir []); ("tmp", Dir []) ];
      calls := [ Moving [".Archive.directory"; ".Projects.directory"; "Old"]
                        [".Archive.Projects.Old"];
                 RemovingFolder [".Archive.directory"; ".Projects.directory"];
                 Moving [".Archive.directory"; "Projects"] [".Archive.Projects"];
                 RemovingFile [".Archive.directory"; ".Projects.index"];
                 RemovingFile [".Archive.directory"; ".Projects.index.ids"];
                 RemovingFolder [".Archive.directory"];
                 Moving ["Archive"] [".Archive"];
                 Moving [".inbox"; "cur"] ["cur"];
                 Moving [".inbox"; "new"] ["new"];
                 Moving [".inbox"; "tmp"] ["tmp"];
                 RemovingFolder [".inbox"] ];
      stdout := [ Moving [".Archive.directory"; ".Projects.directory"; "Old"]
                         [".Archive.Projects.Old"];
                  RemovingFolder [".Archive.directory"; ".Projects.directory"];
                  Moving [".Archive.directory"; "Projects"] [".Archive.Projects"];
                  RemovingFile [".Archive.directory"; ".Projects.index"];
                  RemovingFile [".Archive.directory"; ".Projects.index.ids"];
                  RemovingFolder [".Archive.directory"];
                  Moving ["Archive"] [".Archive"];
                  Moving [".inbox"; "cur"] ["cur"];
                  Moving [".inbox"; "new"] ["new"];
                  Moving [".inbox"; "tmp"] ["tmp"];
                  RemovingFolder [".inbox"] ] |}, Ok).
Proof. vm_compute. reflexivity. Qed.

Example nested_store_flattened :
  map (MaildirM.get_folder_path (args "/mail" true false))
      (Kmail2Maildir.sorted_maildirs (args "/mail" true false) nested_store) =
  ["/mail/.Archive.Projects.Old"; "/mail/.Archive.Projects"; "/mail/.Archive"].
Proof. vm_compute. reflexivity. Qed.

End ExampleFacts.

(** * The claims *)

(** C1.  The store [colliding_store] holds two folders, [A.B] and
    [.A.directory/B], whose flattened path is [/mail/.A.B] both.  The
    validation pass of [kmail2maildir] returns without an error on it: its
    two checks of the destination see a file system in which nothing was
    renamed.  The real pass then renames [A.B], finds the destination taken
    for [B] and raises with the store changed. *)
Theorem C1_validation_misses_collision :
  let opts := Examples.args "/mail" false false in
  let w := initial Examples.colliding_store in
  map directory (Kmail2Maildir.discover opts (fs w)) = [["A.B"]; [".A.directory"; "B"]] /\
  map (MaildirM.get_folder_path opts) (Kmail2Maildir.discover opts (fs w)) =
    ["/mail/.A.B"; "/mail/.A.B"] /\
  snd (Kmail2Maildir.move_kmail_folders opts Examples.validation w) = Ok /\
  fs (fst (Kmail2Maildir.move_kmail_folders opts Examples.validation w)) = fs w /\
  snd (kmail2maildir opts w) = Raised (DestinationExists [".A.B"]) /\
  fs (fst (kmail2maildir opts w)) =
    Dir [ (".inbox", Examples.maildir);
          (".A.directory", Dir [("B", Examples.maildir)]);
          (".A.B", Examples.maildir) ].
Proof. vm_compute. repeat split; reflexivity. Qed.

(** C2, as stated, fails: in [colliding_store] two discovered folders
    with distinct original paths have the same flattened path. *)
Lemma C2_flattened_paths_collide :
  let opts := Examples.args "/mail" false false in
  let m1 := MaildirM.init opts ["A.B"] in
  let m2 := MaildirM.init opts [".A.directory"; "B"] in
  In m1 (Kmail2Maildir.discover opts Examples.colliding_store) /\
  In m2 (Kmail2Maildir.discover opts Examples.colliding_store) /\
  directory m1 <> directory m2 /\
  MaildirM.get_folder_path opts m1 = MaildirM.get_folder_path opts m2.
Proof.
  vm_compute. repeat split.
  - now left.
  - right. now left.
  - discriminate.
Qed.

(** C2, amended.  When the hierarchy separator is a single character that
    occurs in no logical segment of two discovered folders, distinct
    original paths give distinct flattened paths. *)
Theorem C2_flattened_paths_distinct (opts : options) (f : node) (c : ascii)
        (m1 m2 : Maildir) :
  hierarchy_separator opts = String c "" ->
  In m1 (Kmail2Maildir.discover opts f) ->
  In m2 (Kmail2Maildir.discover opts f) ->
  Forall (fun s => Py.contains_char c s = false) (path_list m1) ->
  Forall (fun s => Py.contains_char c s = false) (path_list m2) ->
  directory m1 <> directory m2 ->
  MaildirM.get_folder_path opts m1 <> MaildirM.get_folder_path opts m2.
Proof.
  intros Hsep H1 H2 F1 F2 Hd E. apply Hd. clear Hd.
  apply DiscoveryFacts.discover_shape in H1 as (cs1 & x1 & -> & C1 & X1).
  apply DiscoveryFacts.discover_shape in H2 as (cs2 & x2 & -> & C2 & X2).
  unfold MaildirM.get_folder_path in E.
  apply FlattenFacts.posix_join_inj in E;
    [|apply FlattenFacts.folder_path_not_absolute..].
  unfold MaildirM.folder_path in E. rewrite Hsep in E.
  apply StrFacts.append_inv_head in E.
  unfold MaildirM.init in *. cbn [path_list directory] in *.
  assert (N : forall cs x, map MaildirM.strip_component (cs ++ [x]) <> []).
  { intros cs x. rewrite map_app. intros N. apply app_eq_nil in N as [_ N].
    discriminate N. }
  apply FlattenFacts.join_char_inj in E; try assumption; try apply N.
  now apply FlattenFacts.strip_path_inj.
Qed.

Lemma C2_flattened_paths_distinct_witness :
  let opts := Examples.args "/mail" true false in
  MaildirM.get_folder_path opts (MaildirM.init opts ["Archive"]) <>
  MaildirM.get_folder_path opts (MaildirM.init opts [".Archive.directory"; "Projects"]).
Proof.
  cbv zeta.
  apply (C2_flattened_paths_distinct (Examples.args "/mail" true false)
           Examples.nested_store "."%char).
  - reflexivity.
  - vm_compute. now left.
  - vm_compute. right. now left.
  - vm_compute. repeat constructor.
  - vm_compute. repeat constructor.
  - discriminate.
Defined.

(** C3.  An invocation with [--dry-run] leaves the file system as it
    was, whether it returns or raises. *)
Theorem C3_dry_run_keeps_file_system (args : options) (w : world) :
  dry_run_opt args = true -> fs (fst (kmail2maildir args w)) = fs w.
Proof.
  intros H. unfold kmail2maildir. rewrite H. cbn [negb].
  apply EngineFacts.keeps_fs_seq; [apply EngineFacts.keeps_fs_ret|].
  now apply EngineFacts.keeps_fs_move_kmail_folders.
Qed.

Lemma C3_dry_run_keeps_file_system_witness :
  fs (fst (kmail2maildir (Examples.args "/mail" true true)
             (initial Examples.nested_store))) = Examples.nested_store.
Proof.
  apply (C3_dry_run_keeps_file_system (Examples.args "/mail" true true)
           (initial Examples.nested_store)).
  reflexivity.
Defined.

(** C4.  Let [F] and [G] be discovered folders, [F] an ancestor of [G]
    in the original nesting.  After the descending sort [G] stands before
    [F]; and in the sequence of renames of a pass, dry or real, complete
    or interrupted, the rename of [F] is preceded by the rename of [G]. *)
Theorem C4_descendant_renamed_first
        (opts : options) (fsa : FileSystemAction) (w : world) (F G : Maildir) :
  In F (Kmail2Maildir.discover opts (fs w)) ->
  In G (Kmail2Maildir.discover opts (fs w)) ->
  Nesting.ancestor F G ->
  name G <> "" ->
  (forall i j,
      nth_error (Kmail2Maildir.sorted_maildirs opts (fs w)) i = Some F ->
      nth_error (Kmail2Maildir.sorted_maildirs opts (fs w)) j = Some G ->
      j < i) /\
  (forall new i,
      calls (fst (Kmail2Maildir.move_kmail_folders opts fsa w)) = calls w ++ new ->
      nth_error (Trace.renames_of new) i = Some (Trace.mv opts F) ->
      exists j, j < i /\ nth_error (Trace.renames_of new) j = Some (Trace.mv opts G)).
Proof.
  intros HF HG Hanc Hname.
  assert (Hlt : Py.lt (MaildirM.get_folder_path opts F)
                      (MaildirM.get_folder_path opts G) = true).
  { apply NestingFacts.ancestor_key_lt; [exact Hanc|].
    destruct (NestingFacts.discovered_last_segment opts (fs w) G HG) as [-> _].
    exact Hname. }
  pose proof (sort_desc_sorted (MaildirM.get_folder_path opts)
                (Kmail2Maildir.discover opts (fs w))) as Hsorted.
  fold (Kmail2Maildir.sorted_maildirs opts (fs w)) in Hsorted.
  split.
  - intros i j Hi Hj. exact (sorted_greater_first _ _ i j F G Hsorted Hi Hj Hlt).
  - intros new i E Hi.
    destruct (PassFacts.pass_trace opts fsa w) as (pf & k & n & _ & E' & R & _).
    rewrite E' in E. apply app_inv_head in E. subst new.
    rewrite TraceFacts.renames_of_app, R in Hi |- *.
    set (sorted := Kmail2Maildir.sorted_maildirs opts (fs w)) in *.
    destruct (Nat.lt_ge_cases i (List.length (map (Trace.mv opts) (firstn k sorted))))
      as [Hin|Hout].
    + rewrite nth_error_app1 in Hi by exact Hin.
      rewrite nth_error_map, nth_error_firstn in Hi.
      destruct (Nat.ltb i k) eqn:Hik; [|discriminate Hi].
      destruct (nth_error sorted i) as [F'|] eqn:HF'; [|discriminate Hi].
      cbn [option_map] in Hi.
      assert (Hmv : Trace.mv opts F' = Trace.mv opts F) by congruence.
      apply PassFacts.mv_key in Hmv.
      assert (HG' : In G sorted) by now apply sort_desc_In.
      apply In_nth_error in HG' as [j Hj].
      assert (Hji : j < i).
      { apply (sorted_greater_first _ _ i j F' G Hsorted HF' Hj). now rewrite Hmv. }
      exists j. split; [exact Hji|].
      rewrite nth_error_app1 by lia.
      rewrite nth_error_map, nth_error_firstn.
      apply Nat.ltb_lt in Hik.
      replace (Nat.ltb j k) with true by (symmetry; apply Nat.ltb_lt; lia).
      now rewrite Hj.
    + rewrite nth_error_app2 in Hi by exact Hout.
      apply nth_error_In in Hi. unfold Trace.renames_of in Hi.
      apply filter_In in Hi as [Hi _]. now apply InboxFacts.mv_not_inbox in Hi.
Qed.

Lemma C4_descendant_renamed_first_witness :
  let opts := Examples.args "/mail" true false in
  let F := MaildirM.init opts [".Archive.directory"; "Projects"] in
  let G := MaildirM.init opts [".Archive.directory"; ".Projects.directory"; "Old"] in
  let new := calls (fst (Kmail2Maildir.move_kmail_folders opts Examples.real
                           (initial Examples.nested_store))) in
  exists j, j < 1 /\ nth_error (Trace.renames_of new) j = Some (Trace.mv opts G).
Proof.
  cbv zeta.
  pose (opts := Examples.args "/mail" true false).
  pose (w := initial Examples.nested_store).
  assert (H : In (MaildirM.init opts [".Archive.directory"; "Projects"])
                 (Kmail2Maildir.discover opts (fs w)) /\
              In (MaildirM.init opts [".Archive.directory"; ".Projects.directory"; "Old"])
                 (Kmail2Maildir.discover opts (fs w))).
  { vm_compute. split; [right; now left | right; right; now left]. }
  destruct H as [HF HG].
  assert (Hanc : Nesting.ancestor
                   (MaildirM.init opts [".Archive.directory"; "Projects"])
                   (MaildirM.init opts [".Archive.directory"; ".Projects.directory"; "Old"])).
  { exists ["Old"]. split; [discriminate | reflexivity]. }
  assert (Hname : name (MaildirM.init opts
                          [".Archive.directory"; ".Projects.directory"; "Old"]) <> "")
    by discriminate.
  destruct (C4_descendant_renamed_first opts Examples.real w _ _ HF HG Hanc Hname)
    as [_ Hlog].
  apply (Hlog (calls (fst (Kmail2Maildir.move_kmail_folders opts Examples.real w))) 1).
  - reflexivity.
  - vm_compute. reflexivity.
Defined.

(** C5, as stated, fails: a dry run of [delete] (and of [rmdir]) on a path
    that does not exist returns without any error; in a real run the call
    is announced first and the error is the one of [os.remove]. *)
Lemma C5_delete_and_rmdir_do_not_check :
  let w := initial Examples.small_store in
  FS.exists_ (fs w) ["missing"] = false /\
  snd (FSA.delete Examples.validation ["missing"] w) = Ok /\
  snd (FSA.rmdir Examples.validation ["missing"] w) = Ok /\
  FSA.delete Examples.real ["missing"] w =
    ({| fs := fs w;
        calls := [RemovingFile ["missing"]];
        stdout := [RemovingFile ["missing"]] |}, Raised OSError).
Proof. vm_compute. repeat split; reflexivity. Qed.

(** C5, amended.  [rename] checks that its destination does not exist
    before anything else, in every mode: when it exists the call raises,
    nothing is recorded and nothing is changed.  [delete] and [rmdir]
    check nothing: in a dry run they return for every argument and every
    file system. *)
Theorem C5_only_rename_checks (self : FileSystemAction) (w : world) (src dst p : path) :
  (FS.exists_ (fs w) dst = true ->
   FSA.rename self src dst w = (w, Raised (DestinationExists dst))) /\
  (dry_run self = true ->
   snd (FSA.delete self p w) = Ok /\ snd (FSA.rmdir self p w) = Ok).
Proof.
  split.
  - intros H. unfold FSA.rename. now rewrite H.
  - intros H. unfold FSA.delete, FSA.rmdir, FSA.run. now rewrite H.
Qed.

Lemma C5_only_rename_checks_witness :
  let w := initial Examples.nested_store in
  FSA.rename Examples.validation ["Archive"] [".inbox"] w
    = (w, Raised (DestinationExists [".inbox"])) /\
  snd (FSA.delete Examples.validation ["missing"] w) = Ok /\
  snd (FSA.rmdir Examples.validation ["missing"] w) = Ok.
Proof.
  cbv zeta.
  destruct (C5_only_rename_checks Examples.validation (initial Examples.nested_store)
              ["Archive"] [".inbox"] ["missing"]) as [Hr Hd].
  split.
  - apply Hr. reflexivity.
  - apply Hd. reflexivity.
Defined.

(** C6.  The logical segment of a path component: a component that
    starts with the prefix and ends with the suffix loses both, so that a
    component [<prefix><token><suffix>] becomes [<token>] (and the suffix
    alone, in which the two overlap, becomes empty); a component that does
    neither is kept. *)
Theorem C6_strip_component (opts : options) (d : path) (i : nat) (p : string) :
  nth_error d i = Some p ->
  exists seg,
    nth_error (path_list (MaildirM.init opts d)) i = Some seg /\
    (forall token,
        p = (KMAIL_SUBDIR_PREFIX ++ token ++ KMAIL_SUBDIR_SUFFIX)%string -> seg = token) /\
    (Py.startswith p KMAIL_SUBDIR_PREFIX = true ->
     Py.endswith p KMAIL_SUBDIR_SUFFIX = true ->
     seg = Py.slice p (String.length KMAIL_SUBDIR_PREFIX)
                      (String.length p - String.length KMAIL_SUBDIR_SUFFIX) /\
     (p = (KMAIL_SUBDIR_PREFIX ++ seg ++ KMAIL_SUBDIR_SUFFIX)%string \/
      p = KMAIL_SUBDIR_SUFFIX /\ seg = "")) /\
    (Py.startswith p KMAIL_SUBDIR_PREFIX = false ->
     Py.endswith p KMAIL_SUBDIR_SUFFIX = false -> seg = p).
Proof.
  intros H. exists (MaildirM.strip_component p).
  rewrite MaildirFacts.path_list_nth, H. split; [reflexivity|].
  split; [|split].
  - intros token ->. apply MaildirFacts.strip_exact.
  - intros Hs He. split.
    + unfold MaildirM.strip_component. now rewrite Hs, He.
    + destruct (MaildirFacts.decorated_cases p Hs He) as [->|[token ->]].
      * right. split; reflexivity.
      * left. now rewrite MaildirFacts.strip_exact.
  - intros Hs _. apply MaildirFacts.strip_unchanged. now rewrite Hs.
Qed.

Lemma C6_strip_component_witness :
  exists seg,
    nth_error
      (path_list (MaildirM.init (Examples.args "/mail" false false)
                    [".Archive.directory"; "Projects"])) 0 = Some seg /\
    seg = "Archive".
Proof.
  destruct (C6_strip_component (Examples.args "/mail" false false)
              [".Archive.directory"; "Projects"] 0 ".Archive.directory" eq_refl)
    as (seg & Hn & Htok & _).
  exists seg. split; [exact Hn|].
  apply Htok. reflexivity.
Defined.

(** C7.  Below the root given as [.mail] the folder [Archive] is a
    directory, is not hidden and holds [cur], [new] and [tmp], and it is not
    discovered: the test [d[0] != '.'] reads the first character of the
    text [.mail/Archive].  Below [/mail] the same folder is discovered. *)
Theorem C7_hidden_root_discovers_nothing :
  let f := Examples.small_store in
  let containers := Kmail2Maildir.get_subfolders_containers_recursive f in
  In [] containers /\
  FS.isdir f ["Archive"] = true /\
  Fnmatch.ishidden "Archive" = false /\
  Kmail2Maildir.is_maildir f ["Archive"] = true /\
  FS.path_str ".mail" ["Archive"] = ".mail/Archive" /\
  Kmail2Maildir.get_maildirs_from_subfoldercontainers ".mail" f containers = [] /\
  Kmail2Maildir.get_maildirs_from_subfoldercontainers "/mail" f containers = [["Archive"]].
Proof. vm_compute. repeat split; try reflexivity. now left. Qed.

(** C9.  In a dry run on a store without [.inbox] whose base folder has
    no [cur], [new] and [tmp], the relocation of the inbox issues its four
    calls and returns: the pass raises only if the loop over the folders
    does.  A dry [rename] raises exactly when its destination exists,
    whatever its source; a dry [delete] or [rmdir] never raises. *)
Theorem C9_dry_inbox_relocation_returns
        (opts : options) (fsa : FileSystemAction) (w : world) :
  dry_run fsa = true ->
  FS.exists_ (fs w) Kmail2Maildir.kmail_inbox = false ->
  FS.exists_ (fs w) ["cur"] = false ->
  FS.exists_ (fs w) ["new"] = false ->
  FS.exists_ (fs w) ["tmp"] = false ->
  snd (Kmail2Maildir.move_inbox fsa w) = Ok /\
  calls (fst (Kmail2Maildir.move_inbox fsa w)) = calls w ++ Trace.inbox_relocation /\
  snd (Kmail2Maildir.move_kmail_folders opts fsa w) = snd (Trace.per_folder_loop opts fsa w) /\
  (forall src dst w',
      snd (FSA.rename fsa src dst w') =
      if FS.exists_ (fs w') dst then Raised (DestinationExists dst) else Ok) /\
  (forall p w', snd (FSA.delete fsa p w') = Ok /\ snd (FSA.rmdir fsa p w') = Ok).
Proof.
  intros Hdry _ Hc Hn Ht.
  assert (Hok : snd (Kmail2Maildir.move_inbox fsa w) = Ok)
    by now apply DryInboxFacts.move_inbox_dry_ok.
  split; [exact Hok|]. split; [|split; [|split]].
  - destruct (InboxFacts.move_inbox_trace fsa w) as (n & E & K).
    rewrite E, (K Hok). reflexivity.
  - unfold Kmail2Maildir.move_kmail_folders, Trace.per_folder_loop.
    set (loop := for_each (Kmail2Maildir.sorted_maildirs opts (fs w))
                   (Kmail2Maildir.move_one opts fsa)).
    assert (Hfs : fs (fst (loop w)) = fs w).
    { apply EngineFacts.keeps_fs_for_each. intros x.
      now apply EngineFacts.keeps_fs_move_one. }
    destruct (EngineFacts.seq_cases loop (Kmail2Maildir.move_inbox fsa) w)
      as [[Hl ->]|[_ ->]]; [|reflexivity].
    rewrite Hl. apply DryInboxFacts.move_inbox_dry_ok; now rewrite ?Hfs.
  - intros src dst w'. now apply DryInboxFacts.rename_dry_result.
  - intros p w'. split; now apply DryInboxFacts.run_dry_result.
Qed.

Lemma C9_dry_inbox_relocation_returns_witness :
  let opts := Examples.args "/mail" false true in
  let fsa := {| dry_run := true; quiet := false |} in
  let w := initial (Dir [("Archive", Examples.maildir)]) in
  snd (Kmail2Maildir.move_inbox fsa w) = Ok /\
  calls (fst (Kmail2Maildir.move_inbox fsa w)) = calls w ++ Trace.inbox_relocation /\
  snd (Kmail2Maildir.move_kmail_folders opts fsa w) = snd (Trace.per_folder_loop opts fsa w) /\
  (forall src dst w',
      snd (FSA.rename fsa src dst w') =
      if FS.exists_ (fs w') dst then Raised (DestinationExists dst) else Ok) /\
  (forall p w', snd (FSA.delete fsa p w') = Ok /\ snd (FSA.rmdir fsa p w') = Ok).
Proof.
  cbv zeta.
  apply (C9_dry_inbox_relocation_returns (Examples.args "/mail" false true)
           {| dry_run := true; quiet := false |}
           (initial (Dir [("Archive", Examples.maildir)]))); reflexivity.
Defined.

(** C10.  With the removal of index files requested, the real pass on
    [indexed_store] removes the container [.Archive.directory], which its
    own rename and deletion have emptied; the validation pass on the same
    store never calls [rmdir] on it, since it finds the container as it was.
    In general the container is removed exactly when the file system of the
    moment lists it as empty. *)
Theorem C10_passes_issue_different_calls :
  let opts := Examples.args "/mail" true false in
  let w := initial Examples.indexed_store in
  remove_index_files_opt opts = true /\
  Kmail2Maildir.is_empty_dir (fs w) [".Archive.directory"] = Some false /\
  calls (fst (Kmail2Maildir.move_kmail_folders opts Examples.validation w)) =
    [ Moving [".Archive.directory"; "Projects"] [".Archive.Projects"];
      RemovingFile [".Archive.directory"; ".Projects.index"];
      Moving ["Archive"] [".Archive"];
      Moving [".inbox"; "cur"] ["cur"];
      Moving [".inbox"; "new"] ["new"];
      Moving [".inbox"; "tmp"] ["tmp"];
      RemovingFolder [".inbox"] ] /\
  calls (fst (Kmail2Maildir.move_kmail_folders opts Examples.real w)) =
    [ Moving [".Archive.directory"; "Projects"] [".Archive.Projects"];
      RemovingFile [".Archive.directory"; ".Projects.index"];
      RemovingFolder [".Archive.directory"];
      Moving ["Archive"] [".Archive"];
      Moving [".inbox"; "cur"] ["cur"];
      Moving [".inbox"; "new"] ["new"];
      Moving [".inbox"; "tmp"] ["tmp"];
      RemovingFolder [".inbox"] ] /\
  (forall (fsa : FileSystemAction) (parent : path) (w' : world),
      calls (fst (Kmail2Maildir.prune_parent fsa (Some parent) w')) =
      calls w' ++
      match Kmail2Maildir.is_empty_dir (fs w') parent with
      | Some true => [RemovingFolder parent]
      | _ => []
      end).
Proof.
  cbv zeta. split; [reflexivity|]. split; [reflexivity|].
  split; [vm_compute; reflexivity|]. split; [vm_compute; reflexivity|].
  intros fsa parent w'. unfold Kmail2Maildir.prune_parent.
  destruct (Kmail2Maildir.is_empty_dir (fs w') parent) as [[|]|];
    [apply TraceFacts.run_calls | |]; cbn [fst]; now rewrite app_nil_r.
Qed.


(** * Further properties of the code *)

(** ** Well-formed trees *)

Module TreeFacts.
Import Tree.

Lemma wf_dir (es : list (string * node)) :
  wf (Dir es) <->
  NoDup (map fst es) /\ Forall (fun e => valid_name (fst e) = true /\ wf (snd e)) es.
Proof.
  cbn [wf]. split; intros [Hn H]; (split; [exact Hn|]).
  - induction es as [|[x c] es IH]; [constructor|].
    destruct H as [Hx H]. constructor; [exact Hx|].
    apply IH; [now inversion Hn | exact H].
  - induction H as [|[x c] es Hx _ IH]; [exact I|].
    split; [exact Hx|]. apply IH. now inversion Hn.
Qed.

Lemma assoc_In (x : string) (c : node) (es : list (string * node)) :
  FS.assoc x es = Some c -> In (x, c) es.
Proof.
  induction es as [|[y n] es IH]; [discriminate|]. cbn [FS.assoc].
  destruct (String.eqb_spec x y) as [->|N].
  - intros E. injection E as ->. now left.
  - intros E. right. now apply IH.
Qed.

Lemma assoc_None (x : string) (es : list (string * node)) :
  FS.assoc x es = None <-> ~ In x (map fst es).
Proof.
  induction es as [|[y n] es IH]; cbn [FS.assoc map fst In]; [tauto|].
  destruct (String.eqb_spec x y) as [->|N].
  - split; [discriminate | intros H; elim H; now left].
  - rewrite IH. split; [intros H [E|E]; [now elim N | now elim H] | tauto].
Qed.

Lemma NoDup_assoc (x : string) (c : node) (es : list (string * node)) :
  NoDup (map fst es) -> In (x, c) es -> FS.assoc x es = Some c.
Proof.
  induction es as [|[y n] es IH]; [now intros _ []|].
  cbn [map fst FS.assoc]. intros Hn [E|H].
  - injection E as -> ->. now rewrite String.eqb_refl.
  - inversion Hn as [|? ? Hy Hn']; subst.
    destruct (String.eqb_spec x y) as [->|N]; [|now apply IH].
    elim Hy. apply (in_map fst) in H. exact H.
Qed.

Lemma wf_lookup (p : path) :
  forall f n, wf f -> FS.lookup f p = Some n -> wf n.
Proof.
  induction p as [|x p IH]; intros f n Hw H.
  - injection H as <-. exact Hw.
  - destruct f as [|es]; [discriminate H|]. cbn [FS.lookup] in H.
    destruct (FS.assoc x es) as [c|] eqn:E; [|discriminate H].
    apply wf_dir in Hw as [_ Hw]. rewrite Forall_forall in Hw.
    apply assoc_In in E. apply (IH c); [|exact H]. exact (proj2 (Hw _ E)).
Qed.

Lemma lookup_app (f : node) (p q : path) :
  FS.lookup f (p ++ q) =
  match FS.lookup f p with
  | Some n => FS.lookup n q
  | None => None
  end.
Proof.
  revert f; induction p as [|x p IH]; intros f; [reflexivity|].
  cbn [app FS.lookup]. destruct f as [|es]; [reflexivity|].
  destruct (FS.assoc x es); [apply IH | reflexivity].
Qed.

End TreeFacts.

(** ** The discovery *)

Module DiscoveryMore.
Import Tree TreeFacts StrFacts MaildirFacts DiscoveryFacts.

Lemma discover_full (opts : options) (f : node) (m : Maildir) :
  In m (Kmail2Maildir.discover opts f) <->
  exists c x es,
    m = MaildirM.init opts (c ++ [x]) /\
    In c (Kmail2Maildir.get_subfolders_containers_recursive f) /\
    FS.lookup f c = Some (Dir es) /\ In x (map fst es) /\
    Fnmatch.ishidden x = false /\
    FS.isdir f (c ++ [x]) = true /\
    Py.first_is "." (FS.path_str (folder opts) (c ++ [x])) = false /\
    Kmail2Maildir.is_maildir f (c ++ [x]) = true.
Proof.
  unfold Kmail2Maildir.discover. rewrite in_map_iff. split.
  - intros (p & <- & H). apply get_maildirs_spec in H as (c & Hc & Hg & Hd & Hh & Hm).
    apply glob_spec in Hg as (es & x & Hl & Hx & Hs & ->).
    rewrite selects_star in Hs. apply negb_true_iff in Hs.
    now exists c, x, es.
  - intros (c & x & es & -> & Hc & Hl & Hx & Hh & Hd & Ht & Hm).
    exists (c ++ [x]). split; [reflexivity|].
    apply get_maildirs_spec. exists c. repeat split; try assumption.
    apply glob_spec. exists es, x. repeat split; try assumption.
    rewrite selects_star. now rewrite Hh.
Qed.

Lemma container_names_tokens (cs : path) :
  container_names cs ->
  exists tokens, cs = map Nesting.container_of tokens /\
                 map MaildirM.strip_component cs = tokens.
Proof.
  induction 1 as [|c cs Hc _ (tokens & -> & IH)].
  - now exists [].
  - apply container_name in Hc as [t ->]. exists (t :: tokens).
    cbn [map]. rewrite IH, strip_exact. now split.
Qed.

Lemma container_of_selected (tokens : list string) :
  container_names (map Nesting.container_of tokens).
Proof.
  induction tokens as [|t ts IH]; constructor; [|exact IH].
  apply container_name_selected.
Qed.

(** Every chain of containers that resolves to a directory is found. *)
Lemma containers_complete (c : path) :
  forall sub d es,
    container_names c -> FS.lookup sub c = Some (Dir es) ->
    In (d ++ c) (Kmail2Maildir.containers_rec sub d).
Proof.
  induction c as [|x c IH]; intros sub d es Hc Hl.
  - rewrite app_nil_r. destruct sub; now left.
  - destruct sub as [|es0]; [discriminate Hl|]. cbn [FS.lookup] in Hl.
    destruct (FS.assoc x es0) as [child|] eqn:E; [|discriminate Hl].
    inversion Hc as [|? ? Hx Hc']; subst.
    cbn [Kmail2Maildir.containers_rec]. right.
    apply in_flat_map. exists (x, child). split; [now apply assoc_In|].
    rewrite Hx.
    assert (Hd : FS.is_dir_node child = true).
    { destruct child; [|reflexivity]. destruct c; discriminate Hl. }
    rewrite Hd. cbn [andb].
    replace (d ++ x :: c) with ((d ++ [x]) ++ c) by now rewrite <- app_assoc.
    now apply (IH child (d ++ [x]) es).
Qed.

(** In a well-formed tree every container found resolves to a directory. *)
Lemma containers_sound (sub : node) :
  forall d c, wf sub -> In c (Kmail2Maildir.containers_rec sub d) ->
              exists cs, c = d ++ cs /\ container_names cs /\
                         (cs = [] \/ FS.isdir sub cs = true).
Proof.
  induction sub as [|es IH] using node_nested_ind; intros d c Hw H.
  - destruct H as [<-|[]]. exists []. rewrite app_nil_r.
    split; [reflexivity|]. split; [constructor | now left].
  - cbn [Kmail2Maildir.containers_rec] in H. destruct H as [<-|H].
    + exists []. rewrite app_nil_r. split; [reflexivity|]. split; [constructor | now left].
    + apply in_flat_map in H as ([x child] & He & H).
      destruct (Fnmatch.selects Kmail2Maildir.container_pattern x) eqn:Hs;
        [|now destruct H].
      destruct (FS.is_dir_node child) eqn:Hdir; [|now destruct H].
      cbn [andb] in H. rewrite Forall_forall in IH.
      apply wf_dir in Hw as [Hn Hw]. rewrite Forall_forall in Hw.
      destruct (IH _ He (d ++ [x]) c (proj2 (Hw _ He)) H) as (cs & -> & Hcs & Hl).
      exists (x :: cs). split; [now rewrite <- app_assoc|].
      split; [now constructor|]. right.
      unfold FS.isdir. cbn [FS.lookup]. rewrite (NoDup_assoc x child es Hn He).
      destruct Hl as [->|Hl]; [exact Hdir | exact Hl].
Qed.

End DiscoveryMore.

Module ExampleTrees.
Import Tree.

Ltac solve_wf :=
  repeat match goal with
         | |- wf _ => cbn [wf]
         | |- _ /\ _ => split
         | |- True => exact I
         | |- NoDup _ => cbn [map fst]; repeat constructor; cbn [In]; intuition discriminate
         | |- _ = true => reflexivity
         end.

Lemma maildir_wf : wf Examples.maildir.
Proof. unfold Examples.maildir. solve_wf. Qed.

Lemma nested_store_wf : wf Examples.nested_store.
Proof. unfold Examples.nested_store, Examples.maildir. solve_wf. Qed.

Lemma small_store_wf : wf Examples.small_store.
Proof. unfold Examples.small_store, Examples.maildir. solve_wf. Qed.

Lemma nested_store_exact : glob_exact "/mail" Examples.nested_store.
Proof. split; [reflexivity|]. vm_compute. repeat split. Qed.

Lemma small_store_exact : glob_exact "/mail" Examples.small_store.
Proof. split; [reflexivity|]. vm_compute. repeat split. Qed.

Lemma indexed_store_exact : glob_exact "/mail" Examples.indexed_store.
Proof. split; [reflexivity|]. vm_compute. repeat split. Qed.

End ExampleTrees.

(** X1.  A discovered folder lies below a chain of containers
    [.<token>.directory]; its logical segments are these tokens followed by
    its own name, which is not hidden; and it is a directory that holds
    [cur], [new] and [tmp]. *)
Theorem X1_discovered_folder_shape (opts : options) (f : node) (m : Maildir) :
  In m (Kmail2Maildir.discover opts f) ->
  exists tokens x,
    directory m = map Nesting.container_of tokens ++ [x] /\
    path_list m = tokens ++ [x] /\
    name m = x /\
    Fnmatch.ishidden x = false /\
    FS.isdir f (directory m) = true /\
    Kmail2Maildir.is_maildir f (directory m) = true.
Proof.
  intros H. apply DiscoveryMore.discover_full in H
    as (c & x & es & -> & Hc & _ & _ & Hh & Hd & _ & Hm).
  apply (DiscoveryFacts.containers_rec_shape f [] c) in Hc as (cs & -> & Hcs).
  destruct (DiscoveryMore.container_names_tokens cs Hcs) as (tokens & E & Es).
  exists tokens, x. unfold MaildirM.init, FS.basename. cbn [directory path_list name app].
  rewrite map_app, Es, last_last. cbn [map].
  rewrite (MaildirFacts.strip_not_hidden x Hh), <- E. repeat split; assumption.
Qed.

Lemma X1_discovered_folder_shape_witness :
  exists tokens x,
    [".Archive.directory"; ".Projects.directory"; "Old"]
      = map Nesting.container_of tokens ++ [x] /\
    path_list (MaildirM.init (Examples.args "/mail" false false)
                 [".Archive.directory"; ".Projects.directory"; "Old"]) = tokens ++ [x].
Proof.
  destruct (X1_discovered_folder_shape (Examples.args "/mail" false false)
              Examples.nested_store
              (MaildirM.init (Examples.args "/mail" false false)
                 [".Archive.directory"; ".Projects.directory"; "Old"]))
    as (tokens & x & Hd & Hp & _).
  - vm_compute. right. right. now left.
  - now exists tokens, x.
Defined.

(** X2.  [get_parent_maildir] of a discovered folder is [None] exactly
    for a folder directly below the root; otherwise it is the container the
    folder was found in, which is one of the discovered containers, is a
    directory and is never the root itself. *)
Theorem X2_parent_of_discovered_folder (opts : options) (f : node) (m : Maildir) :
  In m (Kmail2Maildir.discover opts f) ->
  match MaildirM.get_parent_maildir m with
  | None => directory m = [name m]
  | Some parent =>
      parent <> [] /\
      directory m = parent ++ [name m] /\
      In parent (Kmail2Maildir.get_subfolders_containers_recursive f) /\
      FS.isdir f parent = true
  end.
Proof.
  intros H. apply DiscoveryMore.discover_full in H
    as (c & x & es & -> & Hc & Hl & _ & _ & _ & _ & _).
  unfold MaildirM.get_parent_maildir, MaildirM.init, FS.dirname, FS.basename.
  cbn [directory path_list name].
  rewrite length_map, length_app, removelast_last, last_last. cbn [List.length].
  destruct c as [|y c]; [reflexivity|].
  replace (Nat.eqb (List.length (y :: c) + 1) 1) with false
    by (symmetry; apply Nat.eqb_neq; cbn [List.length]; lia).
  repeat split; try assumption; [discriminate|].
  unfold FS.isdir. now rewrite Hl.
Qed.

Lemma X2_parent_of_discovered_folder_witness :
  MaildirM.get_parent_maildir
    (MaildirM.init (Examples.args "/mail" false false) [".Archive.directory"; "Projects"])
  = Some [".Archive.directory"] /\
  In [".Archive.directory"]
     (Kmail2Maildir.get_subfolders_containers_recursive Examples.nested_store).
Proof.
  pose proof (X2_parent_of_discovered_folder (Examples.args "/mail" false false)
                Examples.nested_store
                (MaildirM.init (Examples.args "/mail" false false)
                   [".Archive.directory"; "Projects"])) as H.
  cbv beta iota delta [MaildirM.get_parent_maildir] in H.
  change (Nat.eqb _ 1) with false in H. cbv iota in H.
  split; [reflexivity|].
  apply H. vm_compute. right. now left.
Defined.

(** X3.  In a well-formed tree below a base folder [root], where neither
    the text of the base folder nor an entry name holds a special character
    of [glob], the containers found by the recursive search are the root
    and every path made of names [.<token>.directory] that resolves to a
    directory. *)
Theorem X3_containers_found (root : string) (f : node) (c : path) :
  Tree.wf f -> glob_exact root f ->
  In c (Kmail2Maildir.get_subfolders_containers_recursive f) <->
  c = [] \/ (container_names c /\ FS.isdir f c = true).
Proof.
  intros Hw _. unfold Kmail2Maildir.get_subfolders_containers_recursive. split.
  - intros H. apply DiscoveryMore.containers_sound in H as (cs & -> & Hcs & Hl);
      [|exact Hw].
    cbn [app]. destruct Hl as [->|Hl]; [now left | right; now split].
  - intros [->|[Hcs Hd]].
    + destruct f; now left.
    + unfold FS.isdir in Hd. destruct (FS.lookup f c) as [[|es]|] eqn:E;
        try discriminate Hd.
      exact (DiscoveryMore.containers_complete c f [] es Hcs E).
Qed.

Lemma X3_containers_found_witness :
  In [".Archive.directory"; ".Projects.directory"]
     (Kmail2Maildir.get_subfolders_containers_recursive Examples.nested_store).
Proof.
  apply (X3_containers_found "/mail" Examples.nested_store
           [".Archive.directory"; ".Projects.directory"] ExampleTrees.nested_store_wf
           ExampleTrees.nested_store_exact).
  right. split; [|reflexivity].
  repeat constructor.
Defined.

Module VisibilityFacts.
Import Tree TreeFacts StrFacts DiscoveryFacts.

Lemma valid_name_no_slash (x : string) :
  valid_name x = true -> Py.startswith x "/" = false.
Proof.
  unfold valid_name. intros H. apply andb_true_iff in H as [_ H].
  apply negb_true_iff in H.
  destruct (Py.startswith x "/") eqn:E; [|reflexivity].
  apply startswith_iff in E as [r ->]. discriminate H.
Qed.

Lemma container_names_no_slash (cs : path) :
  container_names cs -> Forall (fun y => Py.startswith y "/" = false) cs.
Proof.
  induction 1 as [|c cs Hc _ IH]; constructor; [|exact IH].
  apply container_name in Hc as [t ->]. reflexivity.
Qed.

(** The names listed in a directory of a well-formed tree are valid. *)
Lemma wf_listed_name (f : node) (c : path) (es : list (string * node)) (x : string) :
  wf f -> FS.lookup f c = Some (Dir es) -> In x (map fst es) -> valid_name x = true.
Proof.
  intros Hw Hl Hx. apply (wf_lookup c f (Dir es) Hw) in Hl.
  apply wf_dir in Hl as [_ Hl]. rewrite Forall_forall in Hl.
  apply in_map_iff in Hx as (e & <- & He). exact (proj1 (Hl _ He)).
Qed.

Lemma isdir_child (f : node) (c : path) (x : string) :
  FS.isdir f (c ++ [x]) = true ->
  exists es, FS.lookup f c = Some (Dir es) /\ In x (map fst es).
Proof.
  unfold FS.isdir. rewrite lookup_app.
  destruct (FS.lookup f c) as [[|es]|]; try discriminate.
  cbn [FS.lookup]. destruct (FS.assoc x es) as [n|] eqn:E; [|discriminate].
  intros _. exists es. split; [reflexivity|].
  apply assoc_In in E. now apply (in_map fst) in E.
Qed.

Lemma map_directory_init (opts : options) (ps : list path) :
  map directory (map (MaildirM.init opts) ps) = ps.
Proof. rewrite map_map. apply map_id. Qed.

Lemma discovered_directory (opts : options) (f : node) (m : Maildir) :
  In m (Kmail2Maildir.discover opts f) ->
  exists tokens x,
    directory m = map Nesting.container_of tokens ++ [x] /\
    Fnmatch.ishidden x = false /\
    FS.isdir f (directory m) = true /\
    Kmail2Maildir.is_maildir f (directory m) = true.
Proof.
  intros H. apply DiscoveryMore.discover_full in H
    as (c & x & es & -> & Hc & _ & _ & Hh & Hd & _ & Hm).
  apply (containers_rec_shape f [] c) in Hc as (cs & -> & Hcs).
  destruct (DiscoveryMore.container_names_tokens cs Hcs) as (tokens & E & _).
  exists tokens, x. unfold MaildirM.init. cbn [directory app].
  rewrite <- E. repeat split; assumption.
Qed.

End VisibilityFacts.

(** X4.  Below a root whose text is not empty and does not start with a
    dot, where neither that text nor an entry name holds a special
    character of [glob], the folders discovered in a well-formed tree are
    exactly the directories that lie below a chain of containers, have a
    name that is not hidden and hold [cur], [new] and [tmp]. *)
Theorem X4_discovered_folders (opts : options) (f : node) (p : path) :
  Tree.wf f -> glob_exact (folder opts) f ->
  folder opts <> "" -> Py.first_is "." (folder opts) = false ->
  In p (map directory (Kmail2Maildir.discover opts f)) <->
  exists tokens x,
    p = map Nesting.container_of tokens ++ [x] /\
    Fnmatch.ishidden x = false /\
    FS.isdir f p = true /\
    Kmail2Maildir.is_maildir f p = true.
Proof.
  intros Hw _ Hne Hvis. split.
  - intros H. apply in_map_iff in H as (m & <- & H).
    destruct (VisibilityFacts.discovered_directory opts f m H)
      as (tokens & x & E & Hh & Hd & Hm).
    now exists tokens, x.
  - intros (tokens & x & -> & Hh & Hd & Hm).
    destruct (VisibilityFacts.isdir_child f _ x Hd) as (es & Hl & Hx).
    apply in_map_iff. exists (MaildirM.init opts (map Nesting.container_of tokens ++ [x])).
    split; [reflexivity|].
    apply DiscoveryMore.discover_full.
    exists (map Nesting.container_of tokens), x, es.
    repeat split; try assumption.
    + exact (DiscoveryMore.containers_complete _ f [] es
               (DiscoveryMore.container_of_selected tokens) Hl).
    + destruct (RootFacts.path_str_first (folder opts)
                  (map Nesting.container_of tokens ++ [x]) Hne)
        as (a & t & t' & E & ->).
      * apply Forall_app. split.
        -- apply VisibilityFacts.container_names_no_slash,
             DiscoveryMore.container_of_selected.
        -- constructor; [|constructor].
           apply VisibilityFacts.valid_name_no_slash.
           exact (VisibilityFacts.wf_listed_name f _ es x Hw Hl Hx).
      * rewrite E in Hvis. exact Hvis.
Qed.

Lemma X4_discovered_folders_witness :
  In [".Archive.directory"; "Projects"]
     (map directory (Kmail2Maildir.discover (Examples.args "/mail" false false)
                       Examples.nested_store)).
Proof.
  apply (X4_discovered_folders (Examples.args "/mail" false false) Examples.nested_store
           [".Archive.directory"; "Projects"] ExampleTrees.nested_store_wf
           ExampleTrees.nested_store_exact).
  - discriminate.
  - reflexivity.
  - exists ["Archive"], "Projects". repeat split; reflexivity.
Defined.

(** X5.  Below a root whose text starts with a dot no folder of a
    well-formed tree is discovered: every path fails the test on its first
    character. *)
Theorem X5_hidden_root_discovers_nothing (opts : options) (f : node) :
  Tree.wf f -> Py.first_is "." (folder opts) = true ->
  Kmail2Maildir.discover opts f = [].
Proof.
  intros Hw Hh. destruct (Kmail2Maildir.discover opts f) as [|m l] eqn:E; [reflexivity|].
  assert (H : In m (Kmail2Maildir.discover opts f)) by (rewrite E; now left).
  apply DiscoveryMore.discover_full in H
    as (c & x & es & _ & Hc & Hl & Hx & _ & _ & Ht & _).
  apply (DiscoveryFacts.containers_rec_shape f [] c) in Hc as (cs & -> & Hcs).
  cbn [app] in *.
  destruct (RootFacts.path_str_first (folder opts) (cs ++ [x])) as (a & t & t' & Er & Et).
  - intros N. rewrite N in Hh. discriminate Hh.
  - apply Forall_app. split.
    + now apply VisibilityFacts.container_names_no_slash.
    + constructor; [|constructor]. apply VisibilityFacts.valid_name_no_slash.
      exact (VisibilityFacts.wf_listed_name f cs es x Hw Hl Hx).
  - rewrite Et in Ht. rewrite Er in Hh. cbn [Py.first_is] in Ht, Hh. congruence.
Qed.

Lemma X5_hidden_root_discovers_nothing_witness :
  Kmail2Maildir.discover (Examples.args "./mail" false false) Examples.nested_store = [].
Proof.
  apply (X5_hidden_root_discovers_nothing (Examples.args "./mail" false false)
           Examples.nested_store ExampleTrees.nested_store_wf).
  reflexivity.
Defined.

(** ** Dry passes *)

Module DryPassFacts.
Import EngineFacts DryInboxFacts.

Lemma for_each_ok {A : Type} (l : list A) (body : A -> M) :
  (forall x w, snd (body x w) = Ok) -> forall w, snd (for_each l body w) = Ok.
Proof.
  intros H. induction l as [|x l IH]; intros w; [reflexivity|].
  cbn [for_each]. destruct (seq_cases (body x) (for_each l body) w) as [[_ ->]|[N _]].
  - apply IH.
  - now elim N.
Qed.

Lemma prune_parent_dry_ok (fsa : FileSystemAction) (parent : option path) (w : world) :
  dry_run fsa = true ->
  (forall p, parent = Some p -> FS.isdir (fs w) p = true) ->
  snd (Kmail2Maildir.prune_parent fsa parent w) = Ok.
Proof.
  intros Hdry Hp. unfold Kmail2Maildir.prune_parent.
  destruct parent as [p|]; [|reflexivity].
  specialize (Hp p eq_refl). unfold Kmail2Maildir.is_empty_dir, FS.listdir.
  unfold FS.isdir in Hp. destruct (FS.lookup (fs w) p) as [[|es]|]; try discriminate Hp.
  destruct (map fst es); [now apply run_dry_result | reflexivity].
Qed.

(** One turn of a dry loop raises exactly when its destination exists. *)
Lemma move_one_dry_result (opts : options) (fsa : FileSystemAction) (m : Maildir) (w : world) :
  dry_run fsa = true ->
  (forall p, MaildirM.get_parent_maildir m = Some p -> FS.isdir (fs w) p = true) ->
  snd (Kmail2Maildir.move_one opts fsa m w) =
  if FS.exists_ (fs w) (MaildirM.get_folder_path_loc opts m)
  then Raised (DestinationExists (MaildirM.get_folder_path_loc opts m))
  else Ok.
Proof.
  intros Hdry Hp. unfold Kmail2Maildir.move_one.
  set (src := directory m). set (dst := MaildirM.get_folder_path_loc opts m).
  set (k := (if remove_index_files_opt opts
             then Kmail2Maildir.remove_index_files fsa m else ret) ;;
            Kmail2Maildir.prune_parent fsa (MaildirM.get_parent_maildir m)).
  pose proof (rename_dry_result fsa src dst w Hdry) as Hr.
  destruct (seq_cases (FSA.rename fsa src dst) k w) as [[Hok ->]|[Hko ->]].
  - rewrite Hok in Hr. destruct (FS.exists_ (fs w) dst); [discriminate Hr|].
    assert (Hfs : fs (fst (FSA.rename fsa src dst w)) = fs w)
      by now apply keeps_fs_rename.
    unfold k.
    destruct (seq_cases
                (if remove_index_files_opt opts
                 then Kmail2Maildir.remove_index_files fsa m else ret)
                (Kmail2Maildir.prune_parent fsa (MaildirM.get_parent_maildir m))
                (fst (FSA.rename fsa src dst w))) as [[_ ->]|[N _]].
    + apply prune_parent_dry_ok; [exact Hdry|]. intros p E.
      assert (Hfs' : fs (fst ((if remove_index_files_opt opts
                               then Kmail2Maildir.remove_index_files fsa m else ret)
                                (fst (FSA.rename fsa src dst w)))) = fs w).
      { rewrite <- Hfs. destruct (remove_index_files_opt opts);
          [now apply keeps_fs_remove_index_files | reflexivity]. }
      rewrite Hfs'. now apply Hp.
    + elim N. destruct (remove_index_files_opt opts); [|reflexivity].
      unfold Kmail2Maildir.remove_index_files. apply for_each_ok.
      intros x w'. now apply run_dry_result.
  - rewrite Hr. rewrite Hr in Hko. destruct (FS.exists_ (fs w) dst); [reflexivity|].
    now elim Hko.
Qed.

(** A dry loop raises for the first destination that exists. *)
Lemma loop_dry_result (opts : options) (fsa : FileSystemAction) (l : list Maildir) :
  dry_run fsa = true ->
  forall w,
    (forall m p, In m l -> MaildirM.get_parent_maildir m = Some p ->
                 FS.isdir (fs w) p = true) ->
    snd (for_each l (Kmail2Maildir.move_one opts fsa) w) =
    match find (fun m => FS.exists_ (fs w) (MaildirM.get_folder_path_loc opts m)) l with
    | Some m => Raised (DestinationExists (MaildirM.get_folder_path_loc opts m))
    | None => Ok
    end.
Proof.
  intros Hdry. induction l as [|m l IH]; intros w Hp; [reflexivity|].
  cbn [for_each find].
  pose proof (move_one_dry_result opts fsa m w Hdry
                (fun p => Hp m p (or_introl eq_refl))) as Hm.
  destruct (seq_cases (Kmail2Maildir.move_one opts fsa m)
              (for_each l (Kmail2Maildir.move_one opts fsa)) w) as [[Hok ->]|[Hko ->]].
  - rewrite Hok in Hm.
    destruct (FS.exists_ (fs w) (MaildirM.get_folder_path_loc opts m)); [discriminate Hm|].
    assert (Hfs : fs (fst (Kmail2Maildir.move_one opts fsa m w)) = fs w)
      by now apply keeps_fs_move_one.
    rewrite IH; rewrite Hfs; [reflexivity|].
    intros m' p Hin. apply Hp. now right.
  - rewrite Hm in Hko |- *.
    destruct (FS.exists_ (fs w) (MaildirM.get_folder_path_loc opts m)); [reflexivity|].
    now elim Hko.
Qed.

(** The dry relocation of the inbox raises for the first of [cur], [new]
    and [tmp] that exists in the base folder. *)
Lemma move_inbox_dry_result (fsa : FileSystemAction) (w : world) :
  dry_run fsa = true ->
  snd (Kmail2Maildir.move_inbox fsa w) =
  match find (fun d => FS.exists_ (fs w) [d]) MAILDIR_SPECIAL_DIRS with
  | Some d => Raised (DestinationExists [d])
  | None => Ok
  end.
Proof.
  intros Hdry. unfold Kmail2Maildir.move_inbox.
  assert (Hloop : forall l w1, fs w1 = fs w ->
            snd (for_each l (fun d => FSA.rename fsa (Kmail2Maildir.kmail_inbox ++ [d]) [d]) w1)
            = match find (fun d => FS.exists_ (fs w) [d]) l with
              | Some d => Raised (DestinationExists [d])
              | None => Ok
              end).
  { induction l as [|d l IH]; intros w1 E1; [reflexivity|].
    cbn [for_each find].
    pose proof (rename_dry_result fsa (Kmail2Maildir.kmail_inbox ++ [d]) [d] w1 Hdry) as Hr.
    rewrite E1 in Hr.
    destruct (seq_cases (FSA.rename fsa (Kmail2Maildir.kmail_inbox ++ [d]) [d])
                (for_each l (fun d => FSA.rename fsa (Kmail2Maildir.kmail_inbox ++ [d]) [d]))
                w1) as [[Hok ->]|[Hko ->]].
    - rewrite Hok in Hr. destruct (FS.exists_ (fs w) [d]); [discriminate Hr|].
      apply IH. rewrite keeps_fs_rename by exact Hdry. exact E1.
    - rewrite Hr in Hko |- *. destruct (FS.exists_ (fs w) [d]); [reflexivity|].
      now elim Hko. }
  specialize (Hloop MAILDIR_SPECIAL_DIRS w eq_refl).
  destruct (seq_cases
              (for_each MAILDIR_SPECIAL_DIRS
                 (fun d => FSA.rename fsa (Kmail2Maildir.kmail_inbox ++ [d]) [d]))
              (FSA.rmdir fsa Kmail2Maildir.kmail_inbox) w) as [[Hok ->]|[Hko ->]].
  - rewrite Hok in Hloop. rewrite <- Hloop. now apply run_dry_result.
  - exact Hloop.
Qed.

End DryPassFacts.

(** X6.  The result of a dry pass: it raises [Destination ... already
    exists] for the first folder, in the order of the renames, whose
    flattened path exists in the store, else for the first of [cur], [new]
    and [tmp] that exists in the base folder, and returns otherwise.  A dry
    pass fails for no other reason. *)
Theorem X6_dry_pass_result (opts : options) (fsa : FileSystemAction) (w : world) :
  dry_run fsa = true ->
  snd (Kmail2Maildir.move_kmail_folders opts fsa w) =
  match find (fun m => FS.exists_ (fs w) (MaildirM.get_folder_path_loc opts m))
             (Kmail2Maildir.sorted_maildirs opts (fs w)) with
  | Some m => Raised (DestinationExists (MaildirM.get_folder_path_loc opts m))
  | None =>
      match find (fun d => FS.exists_ (fs w) [d]) MAILDIR_SPECIAL_DIRS with
      | Some d => Raised (DestinationExists [d])
      | None => Ok
      end
  end.
Proof.
  intros Hdry. unfold Kmail2Maildir.move_kmail_folders.
  set (l := Kmail2Maildir.sorted_maildirs opts (fs w)).
  assert (Hl : snd (for_each l (Kmail2Maildir.move_one opts fsa) w) =
               match find (fun m => FS.exists_ (fs w) (MaildirM.get_folder_path_loc opts m)) l with
               | Some m => Raised (DestinationExists (MaildirM.get_folder_path_loc opts m))
               | None => Ok
               end).
  { apply DryPassFacts.loop_dry_result; [exact Hdry|].
    intros m p Hin E. apply sort_desc_In in Hin.
    apply DiscoveryMore.discover_full in Hin
      as (c & x & es & -> & _ & Hc & _ & _ & _ & _ & _).
    unfold MaildirM.get_parent_maildir, MaildirM.init, FS.dirname in E.
    cbn [directory path_list] in E. rewrite removelast_last in E.
    destruct (Nat.eqb _ 1); [discriminate E|]. injection E as <-.
    unfold FS.isdir. now rewrite Hc. }
  destruct (EngineFacts.seq_cases (for_each l (Kmail2Maildir.move_one opts fsa))
              (Kmail2Maildir.move_inbox fsa) w) as [[Hok ->]|[Hko ->]].
  - rewrite Hok in Hl.
    destruct (find _ l); [discriminate Hl|].
    rewrite DryPassFacts.move_inbox_dry_result by exact Hdry.
    rewrite EngineFacts.keeps_fs_for_each; [reflexivity|].
    intros x. now apply EngineFacts.keeps_fs_move_one.
  - rewrite Hl in Hko |- *. destruct (find _ l); [reflexivity | now elim Hko].
Qed.

Lemma X6_dry_pass_result_witness :
  snd (Kmail2Maildir.move_kmail_folders (Examples.args "/mail" false false)
         Examples.validation
         (initial (Dir [("Archive", Examples.maildir); (".Archive", Dir [])])))
  = Raised (DestinationExists [".Archive"]).
Proof.
  rewrite (X6_dry_pass_result (Examples.args "/mail" false false) Examples.validation
             (initial (Dir [("Archive", Examples.maildir); (".Archive", Dir [])])) eq_refl).
  reflexivity.
Defined.

(** ** What is printed *)

Module PrintFacts.
Import EngineFacts.

Lemma prints_ret (fsa : FileSystemAction) : prints fsa ret.
Proof. intros w. exists []. destruct (quiet fsa); cbn; now rewrite !app_nil_r. Qed.

Lemma prints_seq (fsa : FileSystemAction) (m k : M) :
  prints fsa m -> prints fsa k -> prints fsa (m ;; k).
Proof.
  intros Hm Hk w. destruct (Hm w) as (n1 & C1 & S1).
  destruct (seq_cases m k w) as [[_ ->]|[_ ->]].
  - destruct (Hk (fst (m w))) as (n2 & C2 & S2).
    exists (n1 ++ n2). rewrite C2, S2, C1, S1, <- !app_assoc.
    split; [reflexivity|]. now destruct (quiet fsa).
  - now exists n1.
Qed.

Lemma prints_for_each {A : Type} (fsa : FileSystemAction) (l : list A) (body : A -> M) :
  (forall x, prints fsa (body x)) -> prints fsa (for_each l body).
Proof.
  intros H. induction l as [|x l IH]; cbn [for_each].
  - apply prints_ret.
  - now apply prints_seq.
Qed.

Lemma prints_run (fsa : FileSystemAction) (msg : action) (fn : node -> option node) :
  prints fsa (FSA.run fsa msg fn).
Proof.
  intros w. exists [msg]. unfold FSA.run.
  destruct (dry_run fsa); [|destruct (fn _)]; cbn [fst calls stdout];
    (split; [reflexivity|]); destruct (quiet fsa); now rewrite ?app_nil_r.
Qed.

Lemma prints_rename (fsa : FileSystemAction) (src dst : path) :
  prints fsa (FSA.rename fsa src dst).
Proof.
  intros w. unfold FSA.rename. destruct (FS.exists_ (fs w) dst).
  - exists []. destruct (quiet fsa); cbn; now rewrite !app_nil_r.
  - apply prints_run.
Qed.

Lemma prints_move_one (opts : options) (fsa : FileSystemAction) (m : Maildir) :
  prints fsa (Kmail2Maildir.move_one opts fsa m).
Proof.
  unfold Kmail2Maildir.move_one.
  apply prints_seq; [apply prints_rename|].
  apply prints_seq.
  - destruct (remove_index_files_opt opts); [|apply prints_ret].
    intros w. unfold Kmail2Maildir.remove_index_files.
    apply prints_for_each. intros x. apply prints_run.
  - intros w. unfold Kmail2Maildir.prune_parent.
    destruct (MaildirM.get_parent_maildir m) as [p|]; [|apply prints_ret].
    destruct (Kmail2Maildir.is_empty_dir (fs w) p) as [[|]|];
      [apply prints_run | apply prints_ret |].
    exists []. destruct (quiet fsa); cbn; now rewrite !app_nil_r.
Qed.

Lemma prints_move_kmail_folders (opts : options) (fsa : FileSystemAction) :
  prints fsa (Kmail2Maildir.move_kmail_folders opts fsa).
Proof.
  intros w. unfold Kmail2Maildir.move_kmail_folders.
  apply prints_seq.
  - apply prints_for_each. intros x. apply prints_move_one.
  - unfold Kmail2Maildir.move_inbox. apply prints_seq; [|apply prints_run].
    apply prints_for_each. intros x. apply prints_rename.
Qed.

End PrintFacts.

(** X7.  The calls of an invocation are those of the validation pass
    followed by those of the second pass; the second pass prints each of
    its calls, the validation pass prints nothing, and with [--dry-run]
    there is no validation pass. *)
Theorem X7_only_second_pass_prints (args : options) (w : world) :
  exists checked applied,
    calls (fst (kmail2maildir args w)) = calls w ++ checked ++ applied /\
    stdout (fst (kmail2maildir args w)) = stdout w ++ applied /\
    (dry_run_opt args = true -> checked = []) /\
    (dry_run_opt args = false ->
     calls (fst (Kmail2Maildir.move_kmail_folders args
                   {| dry_run := true; quiet := true |} w)) = calls w ++ checked).
Proof.
  unfold kmail2maildir.
  set (second := Kmail2Maildir.move_kmail_folders args
                   {| dry_run := dry_run_opt args; quiet := false |}).
  assert (Hs : prints {| dry_run := dry_run_opt args; quiet := false |} second)
    by apply PrintFacts.prints_move_kmail_folders.
  destruct (dry_run_opt args) eqn:Hd; cbn [negb].
  - destruct (Hs w) as (new & C & S). exists [], new.
    rewrite (EngineFacts.seq_ok ret second w w eq_refl). cbn [app quiet] in *.
    repeat split; try assumption. discriminate.
  - set (first := Kmail2Maildir.move_kmail_folders args {| dry_run := true; quiet := true |}).
    destruct (PrintFacts.prints_move_kmail_folders args
                {| dry_run := true; quiet := true |} w) as (v & Cv & Sv).
    fold first in Cv, Sv. cbn [quiet] in Sv. rewrite app_nil_r in Sv.
    destruct (EngineFacts.seq_cases first second w) as [[_ ->]|[_ ->]].
    + destruct (Hs (fst (first w))) as (new & C & S). cbn [quiet] in S.
      exists v, new. rewrite C, S, Cv, Sv, <- app_assoc.
      repeat split; try reflexivity. discriminate.
    + exists v, []. rewrite !app_nil_r, Cv, Sv.
      repeat split; try reflexivity. discriminate.
Qed.

(** ** Quiet and loud gateways *)

Module AgreeFacts.
Import EngineFacts.

Lemma agree_ret : agree ret ret.
Proof. intros w1 w2 Hf Hc. now repeat split. Qed.

Lemma agree_seq (m1 m2 k1 k2 : M) :
  agree m1 m2 -> agree k1 k2 -> agree (m1 ;; k1) (m2 ;; k2).
Proof.
  intros Hm Hk w1 w2 Hf Hc. destruct (Hm w1 w2 Hf Hc) as (Ef & Ec & Er).
  unfold seq. destruct (m1 w1) as [w1' r1], (m2 w2) as [w2' r2]. cbn [fst snd] in *.
  subst r2. destruct r1; [now apply Hk | now repeat split].
Qed.

Lemma agree_for_each {A : Type} (l : list A) (b1 b2 : A -> M) :
  (forall x, agree (b1 x) (b2 x)) -> agree (for_each l b1) (for_each l b2).
Proof.
  intros H. induction l as [|x l IH]; cbn [for_each].
  - apply agree_ret.
  - now apply agree_seq.
Qed.

Lemma agree_run (d q1 q2 : bool) (msg : action) (fn : node -> option node) :
  agree (FSA.run {| dry_run := d; quiet := q1 |} msg fn)
        (FSA.run {| dry_run := d; quiet := q2 |} msg fn).
Proof.
  intros w1 w2 Hf Hc. unfold FSA.run. cbn [dry_run quiet fs calls].
  rewrite Hf, Hc. destruct d; [now repeat split|].
  destruct (fn (fs w2)); now repeat split.
Qed.

Lemma agree_rename (d q1 q2 : bool) (src dst : path) :
  agree (FSA.rename {| dry_run := d; quiet := q1 |} src dst)
        (FSA.rename {| dry_run := d; quiet := q2 |} src dst).
Proof.
  intros w1 w2 Hf Hc. unfold FSA.rename. rewrite Hf.
  destruct (FS.exists_ (fs w2) dst); [now repeat split|].
  now apply agree_run.
Qed.

Lemma agree_move_one (opts : options) (d q1 q2 : bool) (m : Maildir) :
  agree (Kmail2Maildir.move_one opts {| dry_run := d; quiet := q1 |} m)
        (Kmail2Maildir.move_one opts {| dry_run := d; quiet := q2 |} m).
Proof.
  unfold Kmail2Maildir.move_one.
  apply agree_seq; [apply agree_rename|].
  apply agree_seq.
  - destruct (remove_index_files_opt opts); [|apply agree_ret].
    intros w1 w2 Hf Hc. unfold Kmail2Maildir.remove_index_files. rewrite Hf.
    apply agree_for_each; [|exact Hf | exact Hc].
    intros x. apply agree_run.
  - intros w1 w2 Hf Hc. unfold Kmail2Maildir.prune_parent.
    destruct (MaildirM.get_parent_maildir m) as [p|]; [|now repeat split].
    rewrite Hf. destruct (Kmail2Maildir.is_empty_dir (fs w2) p) as [[|]|];
      [now apply agree_run | now repeat split | now repeat split].
Qed.

Lemma agree_move_kmail_folders (opts : options) (d q1 q2 : bool) :
  agree (Kmail2Maildir.move_kmail_folders opts {| dry_run := d; quiet := q1 |})
        (Kmail2Maildir.move_kmail_folders opts {| dry_run := d; quiet := q2 |}).
Proof.
  intros w1 w2 Hf Hc. unfold Kmail2Maildir.move_kmail_folders. rewrite Hf.
  apply agree_seq; [| |exact Hf | exact Hc].
  - apply agree_for_each. intros x. apply agree_move_one.
  - unfold Kmail2Maildir.move_inbox. apply agree_seq; [|apply agree_run].
    apply agree_for_each. intros x. apply agree_rename.
Qed.

End AgreeFacts.

(** X8.  Whether the gateway is quiet changes nothing but what is
    printed: a quiet and a loud pass in the same mode change the file
    system alike, issue the same calls and end alike.  In particular a
    [--dry-run] invocation ends as the validation pass of a real
    invocation on the same store. *)
Theorem X8_quiet_changes_nothing_else (opts : options) (d q1 q2 : bool) (w : world) :
  let r1 := Kmail2Maildir.move_kmail_folders opts {| dry_run := d; quiet := q1 |} w in
  let r2 := Kmail2Maildir.move_kmail_folders opts {| dry_run := d; quiet := q2 |} w in
  fs (fst r1) = fs (fst r2) /\ calls (fst r1) = calls (fst r2) /\ snd r1 = snd r2.
Proof. cbv zeta. now apply AgreeFacts.agree_move_kmail_folders. Qed.

(** X9.  A pass that returns has issued one rename for every discovered
    folder, in the descending order of the flattened paths, and then the
    three renames of the inbox; every discovered folder is renamed once. *)
Theorem X9_renames_of_completed_pass
        (opts : options) (fsa : FileSystemAction) (w : world) (new : list action) :
  snd (Kmail2Maildir.move_kmail_folders opts fsa w) = Ok ->
  calls (fst (Kmail2Maildir.move_kmail_folders opts fsa w)) = calls w ++ new ->
  Trace.renames_of new =
    map (Trace.mv opts) (Kmail2Maildir.sorted_maildirs opts (fs w)) ++
    firstn 3 Trace.inbox_relocation /\
  Permutation (map (Trace.mv opts) (Kmail2Maildir.discover opts (fs w)))
              (map (Trace.mv opts) (Kmail2Maildir.sorted_maildirs opts (fs w))).
Proof.
  intros Hok E.
  destruct (PassFacts.pass_trace opts fsa w) as (pf & k & n & _ & E' & R & K & N & F).
  rewrite E' in E. apply app_inv_head in E. subst new.
  specialize (F Hok). subst n.
  assert (Hl : snd (Trace.per_folder_loop opts fsa w) = Ok) by (apply N; discriminate).
  rewrite TraceFacts.renames_of_app, R, (K Hl), firstn_all. split; [reflexivity|].
  apply Permutation_map. apply sort_desc_perm.
Qed.

Lemma X9_renames_of_completed_pass_witness :
  let opts := Examples.args "/mail" false true in
  let w := initial Examples.small_store in
  Trace.renames_of (calls (fst (Kmail2Maildir.move_kmail_folders opts Examples.validation w)))
  = map (Trace.mv opts) (Kmail2Maildir.sorted_maildirs opts (fs w)) ++
    firstn 3 Trace.inbox_relocation.
Proof.
  cbv zeta.
  apply (X9_renames_of_completed_pass (Examples.args "/mail" false true)
           Examples.validation (initial Examples.small_store)); reflexivity.
Defined.

(** ** The index files *)

Module IndexFacts.
Import StrFacts DiscoveryFacts EngineFacts.

Lemma plain_append (a b : string) : plain (a ++ b) = plain a && plain b.
Proof.
  unfold plain. rewrite !FlattenFacts.contains_char_append.
  destruct (Py.contains_char "*" a), (Py.contains_char "?" a),
    (Py.contains_char "*" b), (Py.contains_char "?" b); reflexivity.
Qed.

(** A literal followed by a star matches the names that start with the
    literal. *)
Lemma fnmatch_literal_star (lit x : string) :
  plain lit = true -> Fnmatch.fnmatch (lit ++ "*") x = Py.startswith x lit.
Proof.
  revert x; induction lit as [|c lit IH]; intros x Hp.
  - cbn [append]. unfold Py.startswith.
    replace (Fnmatch.fnmatch "*" x) with true.
    + now destruct x.
    + symmetry. rewrite <- (append_nil_r x). now apply fnmatch_star_suffix.
  - change (String c lit) with (String c "" ++ lit)%string in Hp.
    rewrite plain_append in Hp. apply andb_true_iff in Hp as [Hc Hl].
    unfold plain in Hc. cbn [Py.contains_char] in Hc. rewrite !orb_false_r in Hc.
    apply andb_true_iff in Hc as [Hs Hq]. apply negb_true_iff in Hs, Hq.
    cbn [append Fnmatch.fnmatch]. rewrite Hs, Hq.
    destruct x as [|d x]; [reflexivity|].
    rewrite (IH x Hl). unfold Py.startswith. cbn [String.prefix].
    destruct (ascii_dec c d) as [->|N].
    + now rewrite Ascii.eqb_refl.
    + apply Ascii.eqb_neq in N. now rewrite N.
Qed.

(** A loop of deletions issues one call for each path, up to the first
    failure. *)
Lemma delete_all_trace (fsa : FileSystemAction) (l : list path) :
  forall w, exists n,
    calls (fst (for_each l (fun x => FSA.delete fsa x) w))
      = calls w ++ firstn n (map RemovingFile l) /\
    (snd (for_each l (fun x => FSA.delete fsa x) w) = Ok -> n = List.length l).
Proof.
  induction l as [|x l IH]; intros w.
  - exists 0. cbn. now rewrite app_nil_r.
  - cbn [for_each].
    pose proof (TraceFacts.run_calls fsa (RemovingFile x) (fun f => FS.remove f x) w) as C.
    fold (FSA.delete fsa x) in C.
    destruct (seq_cases (FSA.delete fsa x) (for_each l (fun y => FSA.delete fsa y)) w)
      as [[_ ->]|[N ->]].
    + destruct (IH (fst (FSA.delete fsa x w))) as (n & E & K).
      exists (S n). cbn [map firstn List.length]. rewrite E, C, <- app_assoc.
      split; [reflexivity|]. intros H. now rewrite (K H).
    + exists 1. cbn [map firstn]. split; [exact C|]. intros H. now elim N.
Qed.

End IndexFacts.

(** X10.  The files [remove_index_files] deletes for a folder below the
    base folder [root], when the text of the base folder, the components
    of the path of the folder and its name hold no special character of
    [glob]: the entries of the directory beside the folder whose names
    start with [.<name>.index], in the order of the listing and up to the
    first deletion that fails; nothing else is deleted. *)
Theorem X10_index_files_deleted
        (root : string) (fsa : FileSystemAction) (m : Maildir) (w : world) :
  has_magic root = false ->
  Forall (fun x => has_magic x = false) (directory m) ->
  has_magic (name m) = false ->
  let beside := FS.dirname (directory m) in
  let targets :=
    match FS.listdir (fs w) beside with
    | Some names =>
        map (fun x => RemovingFile (beside ++ [x]))
            (filter (fun x => Py.startswith x (HIDDEN_FILE_PREFIX ++ name m ++ ".index")) names)
    | None => []
    end in
  exists n,
    calls (fst (Kmail2Maildir.remove_index_files fsa m w)) = calls w ++ firstn n targets /\
    (snd (Kmail2Maildir.remove_index_files fsa m w) = Ok -> n = List.length targets).
Proof.
  intros _ _ Hm.
  assert (Hp : plain (name m) = true).
  { unfold has_magic in Hm. apply orb_false_iff in Hm as [Hm _].
    apply orb_false_iff in Hm as [H1 H2]. unfold plain. now rewrite H1, H2. }
  cbv zeta. unfold Kmail2Maildir.remove_index_files.
  set (beside := FS.dirname (directory m)).
  destruct (IndexFacts.delete_all_trace fsa
              (FS.glob (fs w) beside (HIDDEN_FILE_PREFIX ++ name m ++ ".index*")) w)
    as (n & E & K).
  exists n. revert E K.
  assert (Hg : map RemovingFile
                 (FS.glob (fs w) beside (HIDDEN_FILE_PREFIX ++ name m ++ ".index*"))
               = match FS.listdir (fs w) beside with
                 | Some names =>
                     map (fun x => RemovingFile (beside ++ [x]))
                       (filter (fun x => Py.startswith x
                                           (HIDDEN_FILE_PREFIX ++ name m ++ ".index")) names)
                 | None => []
                 end).
  { unfold FS.glob, FS.listdir.
    destruct (FS.lookup (fs w) beside) as [[|es]|]; try reflexivity.
    rewrite map_map. f_equal. unfold Fnmatch.glob1.
    change (Fnmatch.ishidden (HIDDEN_FILE_PREFIX ++ name m ++ ".index*")) with true.
    cbv iota. apply filter_ext. intros x.
    replace (HIDDEN_FILE_PREFIX ++ name m ++ ".index*")%string
      with ((HIDDEN_FILE_PREFIX ++ name m ++ ".index") ++ "*")%string
      by (now rewrite !StrFacts.append_assoc).
    apply IndexFacts.fnmatch_literal_star.
    rewrite !IndexFacts.plain_append, Hp. reflexivity. }
  rewrite <- Hg, length_map. intros E K. now split.
Qed.

Lemma X10_index_files_deleted_witness :
  exists n,
    calls (fst (Kmail2Maildir.remove_index_files Examples.validation
                  (MaildirM.init (Examples.args "/mail" true false)
                     [".Archive.directory"; "Projects"])
                  (initial Examples.nested_store)))
    = firstn n [ RemovingFile [".Archive.directory"; ".Projects.index"];
                 RemovingFile [".Archive.directory"; ".Projects.index.ids"] ].
Proof.
  destruct (X10_index_files_deleted "/mail" Examples.validation
              (MaildirM.init (Examples.args "/mail" true false)
                 [".Archive.directory"; "Projects"])
              (initial Examples.nested_store)) as (n & E & _).
  - reflexivity.
  - repeat constructor.
  - reflexivity.
  - exists n. exact E.
Defined.

(** ** The order of the renames *)

Module StableFacts.

Lemma insert_desc_filter_eq {A : Type} (key : A -> string) (k : string) (x : A) (l : list A) :
  filter (fun y => String.eqb (key y) k) (Kmail2Maildir.insert_desc key x l) =
  filter (fun y => String.eqb (key y) k) (x :: l).
Proof.
  induction l as [|y l IH]; [reflexivity|].
  cbn [Kmail2Maildir.insert_desc]. destruct (Py.lt (key x) (key y)) eqn:E; [|reflexivity].
  cbn [filter] in IH |- *. rewrite IH.
  destruct (String.eqb_spec (key x) k) as [Hx|Hx]; [|reflexivity].
  destruct (String.eqb_spec (key y) k) as [Hy|Hy]; [|reflexivity].
  rewrite Hx, Hy, FlattenFacts.ltb_irrefl in E. discriminate E.
Qed.

Lemma sort_desc_filter_eq {A : Type} (key : A -> string) (k : string) (l : list A) :
  filter (fun y => String.eqb (key y) k) (Kmail2Maildir.sort_desc key l) =
  filter (fun y => String.eqb (key y) k) l.
Proof.
  induction l as [|x l IH]; [reflexivity|].
  cbn [Kmail2Maildir.sort_desc fold_right].
  rewrite insert_desc_filter_eq. cbn [filter].
  fold (Kmail2Maildir.sort_desc key l). now rewrite IH.
Qed.

End StableFacts.

(** X11.  The folders are renamed in an order that is a rearrangement
    of the discovered folders, descending in the flattened path, in which
    folders with the same flattened path keep the order of their
    discovery. *)
Theorem X11_order_of_renames (opts : options) (f : node) :
  Permutation (Kmail2Maildir.discover opts f) (Kmail2Maildir.sorted_maildirs opts f) /\
  StronglySorted
    (fun a b => Py.lt (MaildirM.get_folder_path opts a) (MaildirM.get_folder_path opts b) = false)
    (Kmail2Maildir.sorted_maildirs opts f) /\
  (forall k,
      filter (fun m => String.eqb (MaildirM.get_folder_path opts m) k)
             (Kmail2Maildir.sorted_maildirs opts f) =
      filter (fun m => String.eqb (MaildirM.get_folder_path opts m) k)
             (Kmail2Maildir.discover opts f)).
Proof.
  unfold Kmail2Maildir.sorted_maildirs. split; [apply sort_desc_perm|]. split.
  - apply (sort_desc_sorted (MaildirM.get_folder_path opts)).
  - intros k. apply StableFacts.sort_desc_filter_eq.
Qed.

(** ** No folder is discovered twice *)

Module NoDupFacts.
Import Tree TreeFacts DiscoveryFacts.

Lemma NoDup_flat_map {A B : Type} (g : A -> list B) (l : list A) :
  NoDup l ->
  (forall x, In x l -> NoDup (g x)) ->
  (forall x y z, In x l -> In y l -> x <> y -> In z (g x) -> ~ In z (g y)) ->
  NoDup (flat_map g l).
Proof.
  induction 1 as [|x l Hx Hl IH]; intros Hp Hd; cbn [flat_map]; [constructor|].
  apply NoDup_app.
  - apply Hp. now left.
  - apply IH.
    + intros y Hy. apply Hp. now right.
    + intros a b z Ha Hb. apply Hd; now right.
  - intros z Hz Hz'. apply in_flat_map in Hz' as (y & Hy & Hzy).
    apply (Hd x y z); try assumption; [now left | now right |].
    intros ->. now elim Hx.
Qed.

Lemma NoDup_map_inj {A B : Type} (g : A -> B) (l : list A) :
  (forall x y, In x l -> In y l -> g x = g y -> x = y) ->
  NoDup l -> NoDup (map g l).
Proof.
  intros Hg. induction 1 as [|x l Hx Hl IH]; cbn [map]; constructor.
  - intros H. apply in_map_iff in H as (y & E & Hy).
    apply Hg in E; [|now right | now left]. subst. now elim Hx.
  - apply IH. intros a b Ha Hb. apply Hg; now right.
Qed.

Lemma containers_NoDup (sub : node) :
  forall d, wf sub -> NoDup (Kmail2Maildir.containers_rec sub d).
Proof.
  induction sub as [|es IH] using node_nested_ind; intros d Hw.
  - repeat constructor. now intros [].
  - cbn [Kmail2Maildir.containers_rec].
    apply wf_dir in Hw as [Hn Hw]. rewrite Forall_forall in Hw, IH.
    constructor.
    + intros H. apply in_flat_map in H as ([x child] & He & H).
      destruct (Fnmatch.selects Kmail2Maildir.container_pattern x && FS.is_dir_node child);
        [|now destruct H].
      apply containers_rec_shape in H as (cs & E & _).
      apply (f_equal (@List.length string)) in E.
      rewrite !length_app in E. cbn [List.length] in E. lia.
    + apply NoDup_flat_map.
      * now apply NoDup_map_inv in Hn.
      * intros [x child] He.
        destruct (Fnmatch.selects Kmail2Maildir.container_pattern x && FS.is_dir_node child);
          [|constructor].
        apply (IH _ He). exact (proj2 (Hw _ He)).
      * intros [x c] [x' c'] z He He' Hne Hz Hz'.
        destruct (Fnmatch.selects Kmail2Maildir.container_pattern x && FS.is_dir_node c);
          [|now destruct Hz].
        destruct (Fnmatch.selects Kmail2Maildir.container_pattern x' && FS.is_dir_node c');
          [|now destruct Hz'].
        apply containers_rec_shape in Hz as (cs & -> & _).
        apply containers_rec_shape in Hz' as (cs' & E & _).
        rewrite <- !app_assoc in E. apply app_inv_head in E. injection E as -> _.
        apply Hne. f_equal.
        pose proof (NoDup_assoc x' c es Hn He) as A1.
        pose proof (NoDup_assoc x' c' es Hn He') as A2.
        congruence.
Qed.

Lemma get_maildirs_NoDup (root : string) (f : node) (cs : list path) :
  wf f -> NoDup cs ->
  NoDup (Kmail2Maildir.get_maildirs_from_subfoldercontainers root f cs).
Proof.
  intros Hw Hcs. unfold Kmail2Maildir.get_maildirs_from_subfoldercontainers.
  apply NoDup_flat_map; [exact Hcs| |].
  - intros c _. repeat apply NoDup_filter. unfold FS.glob.
    destruct (FS.lookup f c) as [[|es]|] eqn:E; try constructor.
    apply NoDup_map_inj.
    + intros x y _ _ Exy. now apply app_inv_head in Exy; injection Exy.
    + unfold Fnmatch.glob1. apply NoDup_filter.
      apply (wf_lookup c f (Dir es) Hw) in E. apply wf_dir in E as [Hn _].
      destruct (Fnmatch.ishidden "*"); [exact Hn | now apply NoDup_filter].
  - intros c c' z _ _ Hne Hz Hz'.
    rewrite !filter_In in Hz, Hz'.
    destruct Hz as [[[Hz _] _] _], Hz' as [[[Hz' _] _] _].
    apply glob_spec in Hz as (? & x & _ & _ & _ & ->).
    apply glob_spec in Hz' as (? & x' & _ & _ & _ & E).
    apply app_inj_tail in E as [E _]. now elim Hne.
Qed.

Lemma discover_NoDup (opts : options) (f : node) :
  wf f -> NoDup (map directory (Kmail2Maildir.discover opts f)).
Proof.
  intros Hw. unfold Kmail2Maildir.discover.
  rewrite VisibilityFacts.map_directory_init.
  apply get_maildirs_NoDup; [exact Hw|].
  now apply containers_NoDup.
Qed.

End NoDupFacts.

(** X12.  In a well-formed tree, when neither the text of the base
    folder nor an entry name holds a special character of [glob], no
    container is found twice and no folder is discovered twice: the
    original paths of the discovered folders are pairwise distinct. *)
Theorem X12_no_folder_discovered_twice (opts : options) (f : node) :
  Tree.wf f -> glob_exact (folder opts) f ->
  NoDup (Kmail2Maildir.get_subfolders_containers_recursive f) /\
  NoDup (map directory (Kmail2Maildir.discover opts f)).
Proof.
  intros Hw _. split.
  - now apply NoDupFacts.containers_NoDup.
  - now apply NoDupFacts.discover_NoDup.
Qed.

Lemma X12_no_folder_discovered_twice_witness :
  NoDup (Kmail2Maildir.get_subfolders_containers_recursive Examples.nested_store) /\
  NoDup (map directory (Kmail2Maildir.discover (Examples.args "/mail" false false)
                          Examples.nested_store)).
Proof.
  exact (X12_no_folder_discovered_twice (Examples.args "/mail" false false)
           Examples.nested_store ExampleTrees.nested_store_wf
           ExampleTrees.nested_store_exact).
Defined.

(** ** The effect of the calls on the file system *)

Module EffectFacts.
Import Tree TreeFacts EngineFacts.

Lemma assoc_replace_other (x y : string) (c : node) (es : list (string * node)) :
  y <> x -> FS.assoc y (FS.replace_entry x c es) = FS.assoc y es.
Proof.
  intros N. induction es as [|[z n] es IH]; [reflexivity|].
  cbn [FS.replace_entry]. destruct (String.eqb_spec x z) as [->|Nz]; cbn [FS.assoc].
  - apply String.eqb_neq in N. now rewrite N.
  - now rewrite IH.
Qed.

Lemma assoc_replace_same (x : string) (c c0 : node) (es : list (string * node)) :
  FS.assoc x es = Some c0 -> FS.assoc x (FS.replace_entry x c es) = Some c.
Proof.
  induction es as [|[z n] es IH]; [discriminate|].
  cbn [FS.assoc FS.replace_entry].
  destruct (String.eqb_spec x z) as [->|Nz]; cbn [FS.assoc].
  - now rewrite String.eqb_refl.
  - apply String.eqb_neq in Nz. now rewrite Nz.
Qed.

Lemma assoc_remove_other (x y : string) (es : list (string * node)) :
  y <> x -> FS.assoc y (FS.remove_entry x es) = FS.assoc y es.
Proof.
  intros N. induction es as [|[z n] es IH]; [reflexivity|].
  cbn [FS.remove_entry]. destruct (String.eqb_spec x z) as [->|Nz]; cbn [FS.assoc].
  - apply String.eqb_neq in N. now rewrite N.
  - now rewrite IH.
Qed.

Lemma assoc_app (y : string) (es l : list (string * node)) :
  FS.assoc y (es ++ l) =
  match FS.assoc y es with
  | Some n => Some n
  | None => FS.assoc y l
  end.
Proof.
  induction es as [|[z n] es IH]; [reflexivity|].
  cbn [app FS.assoc]. now destruct (String.eqb y z).
Qed.

Lemma is_prefix_removelast (p q : path) : is_prefix q (removelast p) -> is_prefix q p.
Proof.
  destruct p as [|x p]; [tauto|]. intros [r E].
  exists (r ++ [last (x :: p) ""]).
  rewrite app_assoc, <- E. now apply app_removelast_last.
Qed.

Lemma lookup_prefix (f : node) (p q : path) :
  is_prefix p q -> FS.lookup f q <> None -> FS.lookup f p <> None.
Proof.
  intros [r ->]. rewrite lookup_app. now destruct (FS.lookup f p).
Qed.

Lemma update_inv (p : path) :
  forall f g f',
    FS.update f p g = Some f' ->
    exists es es', FS.lookup f p = Some (Dir es) /\ g es = Some es' /\
                   FS.lookup f' p = Some (Dir es').
Proof.
  induction p as [|x p IH]; intros [|es] g f' H; try discriminate H; cbn [FS.update] in H.
  - destruct (g es) as [es'|] eqn:G; [|discriminate H]. injection H as <-.
    now exists es, es'.
  - destruct (FS.assoc x es) as [c|] eqn:A; [|discriminate H].
    destruct (FS.update c p g) as [c'|] eqn:U; [|discriminate H]. injection H as <-.
    destruct (IH c g c' U) as (es0 & es' & L & G & L').
    exists es0, es'. cbn [FS.lookup]. rewrite A, (assoc_replace_same x c' c es A).
    now repeat split.
Qed.

(** Rewriting the entries of the directory at [p] leaves alone every path
    that does not lead to [p] and whose entry in [p], if it passes through
    [p], is kept. *)
Lemma update_frame (p : path) :
  forall f g f' q,
    FS.update f p g = Some f' ->
    ~ is_prefix q p ->
    (forall b rest es es',
        q = p ++ b :: rest -> FS.lookup f p = Some (Dir es) -> g es = Some es' ->
        FS.assoc b es' = FS.assoc b es) ->
    FS.lookup f' q = FS.lookup f q.
Proof.
  induction p as [|x p IH]; intros [|es] g f' q H Hn Hc; try discriminate H;
    cbn [FS.update] in H.
  - destruct (g es) as [es'|] eqn:G; [|discriminate H]. injection H as <-.
    destruct q as [|b rest]; [elim Hn; now exists []|].
    cbn [FS.lookup]. now rewrite (Hc b rest es es' eq_refl eq_refl G).
  - destruct (FS.assoc x es) as [c|] eqn:A; [|discriminate H].
    destruct (FS.update c p g) as [c'|] eqn:U; [|discriminate H]. injection H as <-.
    destruct q as [|y q']; [elim Hn; now exists (x :: p)|].
    cbn [FS.lookup]. destruct (String.eqb_spec y x) as [->|N].
    + rewrite (assoc_replace_same x c' c es A), A.
      apply (IH c g c' q' U).
      * intros [r E]. apply Hn. exists r. cbn [app]. now rewrite E.
      * intros b rest es0 es' E L G. apply (Hc b rest es0 es'); [|cbn [FS.lookup]|exact G].
        -- cbn [app]. now rewrite E.
        -- now rewrite A.
    + now rewrite assoc_replace_other.
Qed.

(** Taking the entry at [r] out of its directory leaves alone every path
    that leads neither to that directory nor through [r]. *)
Lemma unlink_frame (f f' : node) (r q : path)
      (g : list (string * node) -> option (list (string * node))) :
  r <> [] ->
  FS.update f (FS.dirname r) g = Some f' ->
  (forall es es', g es = Some es' -> es' = FS.remove_entry (FS.basename r) es) ->
  ~ is_prefix q (FS.dirname r) -> ~ is_prefix r q ->
  FS.lookup f' q = FS.lookup f q.
Proof.
  intros Hr Hu Hg Hn Hp. apply (update_frame _ _ _ _ _ Hu Hn).
  intros b rest es es' E _ G. rewrite (Hg es es' G).
  apply assoc_remove_other. intros ->. apply Hp. exists rest.
  assert (Er : r = FS.dirname r ++ [FS.basename r])
    by (apply app_removelast_last; exact Hr).
  rewrite E. transitivity ((FS.dirname r ++ [FS.basename r]) ++ rest).
  - now rewrite <- app_assoc.
  - now rewrite <- Er.
Qed.

Lemma lookup_dirname_basename (f : node) (r : path) (es : list (string * node)) :
  r <> [] -> FS.lookup f (FS.dirname r) = Some (Dir es) ->
  FS.lookup f r = FS.assoc (FS.basename r) es.
Proof.
  intros Hr L.
  assert (Er : r = FS.dirname r ++ [FS.basename r])
    by (apply app_removelast_last; exact Hr).
  rewrite Er at 1. rewrite lookup_app, L. cbn [FS.lookup].
  now destruct (FS.assoc (FS.basename r) es).
Qed.

End EffectFacts.

Module GatewayEffects.
Import Tree TreeFacts EngineFacts EffectFacts.

(** *** [os.remove], [os.rmdir], [os.rename] *)

Lemma fs_remove_inv (f f' : node) (r : path) :
  FS.remove f r = Some f' -> r <> [] /\ FS.lookup f r = Some File.
Proof.
  unfold FS.remove. destruct r as [|x r]; [discriminate|]. intros H.
  split; [discriminate|].
  destruct (update_inv _ _ _ _ H) as (es & es' & L & G & _).
  rewrite (lookup_dirname_basename f (x :: r) es) by (discriminate || exact L).
  destruct (FS.assoc (FS.basename (x :: r)) es) as [[|]|]; try discriminate G.
  reflexivity.
Qed.

Lemma fs_remove_frame (f f' : node) (r q : path) (n : node) :
  FS.remove f r = Some f' ->
  ~ is_prefix q (FS.dirname r) ->
  FS.lookup f q = Some n -> FS.is_dir_node n = true ->
  FS.lookup f' q = Some n.
Proof.
  intros H Hn Hq Hd. destruct (fs_remove_inv f f' r H) as [Hr Hf].
  rewrite <- Hq. unfold FS.remove in H. destruct r as [|x r]; [now elim Hr|].
  apply (unlink_frame f f' (x :: r) q _ Hr H); [| exact Hn |].
  - intros es es' G. destruct (FS.assoc (FS.basename (x :: r)) es) as [[|]|];
      try discriminate G. now injection G.
  - intros [rest ->]. rewrite lookup_app, Hf in Hq.
    destruct rest; [injection Hq as <-; discriminate Hd | discriminate Hq].
Qed.

Lemma fs_rmdir_inv (f f' : node) (r : path) :
  FS.rmdir f r = Some f' -> r <> [] /\ FS.lookup f r = Some (Dir []).
Proof.
  unfold FS.rmdir. destruct r as [|x r]; [discriminate|]. intros H.
  split; [discriminate|].
  destruct (update_inv _ _ _ _ H) as (es & es' & L & G & _).
  rewrite (lookup_dirname_basename f (x :: r) es) by (discriminate || exact L).
  destruct (FS.assoc (FS.basename (x :: r)) es) as [[|[|]]|]; try discriminate G.
  reflexivity.
Qed.

Lemma fs_rmdir_frame (f f' : node) (r q : path) (n : node) :
  FS.rmdir f r = Some f' ->
  ~ is_prefix q (FS.dirname r) -> q <> r ->
  FS.lookup f q = Some n ->
  FS.lookup f' q = Some n.
Proof.
  intros H Hn Hne Hq. destruct (fs_rmdir_inv f f' r H) as [Hr Hf].
  rewrite <- Hq. unfold FS.rmdir in H. destruct r as [|x r]; [now elim Hr|].
  apply (unlink_frame f f' (x :: r) q _ Hr H); [| exact Hn |].
  - intros es es' G. destruct (FS.assoc (FS.basename (x :: r)) es) as [[|[|]]|];
      try discriminate G. now injection G.
  - intros [rest ->]. rewrite lookup_app, Hf in Hq.
    destruct rest; [elim Hne; now rewrite app_nil_r | discriminate Hq].
Qed.

Lemma fs_rename_steps (f f' : node) (src : path) (x : string) :
  FS.rename f src [x] = Some f' ->
  src <> [] /\
  exists moved f1 es1,
    FS.lookup f src = Some moved /\
    FS.exists_ f [x] = false /\
    FS.update f (FS.dirname src)
      (fun es => Some (FS.remove_entry (FS.basename src) es)) = Some f1 /\
    f1 = Dir es1 /\ f' = Dir (es1 ++ [(x, moved)]).
Proof.
  unfold FS.rename. destruct src as [|y src]; [discriminate|]. intros H.
  split; [discriminate|].
  destruct (FS.lookup f (y :: src)) as [moved|]; [|discriminate H].
  destruct (FS.exists_ f [x]); [discriminate H|].
  destruct (FS.update f (FS.dirname (y :: src)) _) as [f1|] eqn:U; [|discriminate H].
  exists moved, f1. destruct f1 as [|es1]; [discriminate H|].
  cbn [FS.dirname removelast FS.update FS.basename last] in H. injection H as <-.
  now exists es1.
Qed.

Lemma not_exists_lookup (f : node) (p : path) :
  FS.exists_ f p = false <-> FS.lookup f p = None.
Proof. unfold FS.exists_. destruct (FS.lookup f p); split; congruence. Qed.

(** A fresh destination is no part of an existing path. *)
Lemma fresh_not_prefix (f : node) (x : string) (p : path) :
  FS.exists_ f [x] = false -> FS.lookup f p <> None -> p <> [] ->
  ~ is_prefix [x] p /\ ~ is_prefix p [x].
Proof.
  intros Hx Hp Hne. apply not_exists_lookup in Hx. split.
  - intros H. now apply (lookup_prefix f [x] p H) in Hp.
  - intros [r E]. destruct p as [|y p]; [now elim Hne|].
    injection E as -> E. apply eq_sym, app_eq_nil in E as [-> _]. now elim Hp.
Qed.

Lemma fs_rename_frame (f f' : node) (src q : path) (x : string) (n : node) :
  FS.rename f src [x] = Some f' ->
  ~ is_prefix q (FS.dirname src) -> ~ is_prefix src q ->
  FS.lookup f q = Some n ->
  FS.lookup f' q = Some n.
Proof.
  intros H Hn Hp Hq.
  destruct (fs_rename_steps f f' src x H) as (Hs & moved & f1 & es1 & _ & _ & U & -> & ->).
  assert (H1 : FS.lookup (Dir es1) q = Some n).
  { rewrite <- Hq. apply (unlink_frame f (Dir es1) src q _ Hs U); try assumption.
    intros es es' G. now injection G. }
  destruct q as [|b rest]; [elim Hn; now exists (FS.dirname src)|].
  cbn [FS.lookup] in H1 |- *. rewrite assoc_app.
  destruct (FS.assoc b es1); [exact H1 | discriminate H1].
Qed.

Lemma fs_rename_moves (f f' : node) (src : path) (x : string) :
  FS.rename f src [x] = Some f' -> FS.lookup f' [x] = FS.lookup f src.
Proof.
  intros H.
  destruct (fs_rename_steps f f' src x H) as (Hs & moved & f1 & es1 & L & E & U & -> & ->).
  assert (Hsome : FS.lookup f src <> None) by (rewrite L; discriminate).
  destruct (fresh_not_prefix f x src E Hsome Hs) as [N1 N2].
  assert (H1 : FS.lookup (Dir es1) [x] = FS.lookup f [x]).
  { apply (unlink_frame f (Dir es1) src [x] _ Hs U); try assumption.
    - intros es es' G. now injection G.
    - intros P. apply N1. now apply is_prefix_removelast. }
  apply not_exists_lookup in E. rewrite E in H1.
  cbn [FS.lookup] in H1 |- *. rewrite assoc_app.
  destruct (FS.assoc x es1); [discriminate H1|].
  cbn [FS.assoc]. now rewrite String.eqb_refl, L.
Qed.

(** *** The gateway *)

Lemma seq_ok_inv (m k : M) (w w' : world) :
  (m ;; k) w = (w', Ok) -> exists wa, m w = (wa, Ok) /\ k wa = (w', Ok).
Proof.
  unfold seq. destruct (m w) as [wa [|e]]; [|discriminate]. intros H. now exists wa.
Qed.

Lemma run_ok_cases (fsa : FileSystemAction) (msg : action) (fn : node -> option node)
      (w w' : world) :
  FSA.run fsa msg fn w = (w', Ok) ->
  (dry_run fsa = true /\ fs w' = fs w) \/ (dry_run fsa = false /\ fn (fs w) = Some (fs w')).
Proof.
  unfold FSA.run. destruct (dry_run fsa).
  - intros H. injection H as <-. now left.
  - cbn [fs]. destruct (fn (fs w)) as [f'|]; [|discriminate].
    intros H. injection H as <-. now right.
Qed.

Lemma rename_ok_cases (fsa : FileSystemAction) (src dst : path) (w w' : world) :
  FSA.rename fsa src dst w = (w', Ok) ->
  FS.exists_ (fs w) dst = false /\
  ((dry_run fsa = true /\ fs w' = fs w) \/
   (dry_run fsa = false /\ FS.rename (fs w) src dst = Some (fs w'))).
Proof.
  unfold FSA.rename. destruct (FS.exists_ (fs w) dst); [discriminate|].
  intros H. split; [reflexivity|]. exact (run_ok_cases _ _ _ _ _ H).
Qed.

(** *** What the calls leave in place *)

Lemma preserves_ret (q : path) : preserves q ret.
Proof. intros w w' n H. injection H as <-. tauto. Qed.

Lemma preserves_seq (q : path) (m k : M) :
  preserves q m -> preserves q k -> preserves q (m ;; k).
Proof.
  intros Hm Hk w w' n H L D. apply seq_ok_inv in H as (wa & Ha & Hb).
  apply (Hk wa w' n Hb); [|exact D]. now apply (Hm w wa n Ha).
Qed.

Lemma preserves_for_each {A : Type} (q : path) (l : list A) (body : A -> M) :
  (forall x, In x l -> preserves q (body x)) -> preserves q (for_each l body).
Proof.
  induction l as [|x l IH]; intros H; cbn [for_each].
  - apply preserves_ret.
  - apply preserves_seq; [apply H; now left|]. apply IH. intros y Hy. apply H. now right.
Qed.

Lemma preserves_rename (fsa : FileSystemAction) (q src : path) (x : string) :
  ~ is_prefix q (FS.dirname src) -> ~ is_prefix src q ->
  preserves q (FSA.rename fsa src [x]).
Proof.
  intros Hn Hp w w' n H L _. apply rename_ok_cases in H as [_ [[_ E]|[_ E]]].
  - now rewrite E.
  - exact (fs_rename_frame _ _ _ _ _ _ E Hn Hp L).
Qed.

Lemma preserves_delete (fsa : FileSystemAction) (q r : path) :
  ~ is_prefix q (FS.dirname r) -> preserves q (FSA.delete fsa r).
Proof.
  intros Hn w w' n H L D. apply run_ok_cases in H as [[_ E]|[_ E]].
  - now rewrite E.
  - exact (fs_remove_frame _ _ _ _ _ E Hn L D).
Qed.

Lemma preserves_rmdir (fsa : FileSystemAction) (q r : path) :
  ~ is_prefix q (FS.dirname r) -> q <> r -> preserves q (FSA.rmdir fsa r).
Proof.
  intros Hn Hne w w' n H L _. apply run_ok_cases in H as [[_ E]|[_ E]].
  - now rewrite E.
  - exact (fs_rmdir_frame _ _ _ _ _ E Hn Hne L).
Qed.

End GatewayEffects.

(** ** The effect of a pass *)

Module MoveFacts.
Import Tree TreeFacts EngineFacts EffectFacts GatewayEffects.

(** What follows the rename in one turn of the loop works in the directory
    beside the folder only. *)
Lemma preserves_after_rename (opts : options) (fsa : FileSystemAction) (m : Maildir) (q : path) :
  ~ is_prefix q (FS.dirname (directory m)) ->
  preserves q
    ((if remove_index_files_opt opts
      then Kmail2Maildir.remove_index_files fsa m else ret) ;;
     Kmail2Maildir.prune_parent fsa (MaildirM.get_parent_maildir m)).
Proof.
  intros Hn. apply preserves_seq.
  - destruct (remove_index_files_opt opts); [|apply preserves_ret].
    intros w. unfold Kmail2Maildir.remove_index_files.
    apply preserves_for_each. intros r Hr. apply preserves_delete.
    apply DiscoveryFacts.glob_spec in Hr as (_ & x & _ & _ & _ & ->).
    unfold FS.dirname. now rewrite removelast_last.
  - intros w. unfold Kmail2Maildir.prune_parent, MaildirM.get_parent_maildir.
    destruct (Nat.eqb (List.length (path_list m)) 1); [apply preserves_ret|].
    destruct (Kmail2Maildir.is_empty_dir (fs w) (FS.dirname (directory m))) as [[|]|].
    + apply preserves_rmdir.
      * intros P. apply Hn. now apply is_prefix_removelast.
      * intros ->. apply Hn. exists []. now rewrite app_nil_r.
    + apply preserves_ret.
    + intros w' n H. discriminate H.
Qed.

Lemma preserves_move_one (opts : options) (fsa : FileSystemAction) (m : Maildir) (q : path) :
  ~ is_prefix q (FS.dirname (directory m)) -> ~ is_prefix (directory m) q ->
  preserves q (Kmail2Maildir.move_one opts fsa m).
Proof.
  intros Hn Hp. unfold Kmail2Maildir.move_one.
  apply preserves_seq; [now apply preserves_rename | now apply preserves_after_rename].
Qed.

(** A turn of the loop that returns in a real pass has put the folder at
    its flattened path. *)
Lemma move_one_moves (opts : options) (fsa : FileSystemAction) (m : Maildir)
      (w w' : world) (n : node) :
  dry_run fsa = false ->
  Kmail2Maildir.move_one opts fsa m w = (w', Ok) ->
  FS.lookup (fs w) (directory m) = Some n -> FS.is_dir_node n = true ->
  FS.exists_ (fs w) (MaildirM.get_folder_path_loc opts m) = false /\
  FS.lookup (fs w') (MaildirM.get_folder_path_loc opts m) = Some n.
Proof.
  intros Hreal H L D. unfold Kmail2Maildir.move_one in H.
  apply seq_ok_inv in H as (wa & Ha & Hb).
  unfold MaildirM.get_folder_path_loc in *.
  destruct (rename_ok_cases _ _ _ _ _ Ha) as [Hx [[Hd _]|[_ E]]]; [congruence|].
  split; [exact Hx|].
  assert (Hs : directory m <> []).
  { intros N. rewrite N in E. discriminate E. }
  assert (Hsome : FS.lookup (fs w) (directory m) <> None) by (rewrite L; discriminate).
  destruct (fresh_not_prefix (fs w) _ (directory m) Hx Hsome Hs) as [N1 _].
  apply (preserves_after_rename opts fsa m [MaildirM.folder_path opts m]) with (w := wa);
    [| exact Hb | | exact D].
  - intros P. apply N1. now apply is_prefix_removelast.
  - rewrite (fs_rename_moves _ _ _ _ E). exact L.
Qed.

Lemma loop_preserves (opts : options) (fsa : FileSystemAction) (l : list Maildir) (q : path) :
  (forall m, In m l ->
             ~ is_prefix q (FS.dirname (directory m)) /\ ~ is_prefix (directory m) q) ->
  preserves q (for_each l (Kmail2Maildir.move_one opts fsa)).
Proof.
  intros H. apply preserves_for_each. intros m Hm.
  destruct (H m Hm). now apply preserves_move_one.
Qed.

(** A real loop that returns has put every folder of its list at its
    flattened path, with all it held. *)
Lemma loop_moves (opts : options) (fsa : FileSystemAction) (l : list Maildir) :
  dry_run fsa = false ->
  forall w w',
    for_each l (Kmail2Maildir.move_one opts fsa) w = (w', Ok) ->
    (forall m, In m l ->
               directory m <> [] /\
               exists n, FS.lookup (fs w) (directory m) = Some n /\ FS.is_dir_node n = true) ->
    ForallOrdPairs apart l ->
    forall m, In m l ->
              FS.lookup (fs w') (MaildirM.get_folder_path_loc opts m)
              = FS.lookup (fs w) (directory m).
Proof.
  intros Hreal. induction l as [|m0 l IH]; intros w w' H HA HB m Hm; [now destruct Hm|].
  cbn [for_each] in H. apply seq_ok_inv in H as (w1 & H0 & Hl).
  inversion HB as [|? ? HB0 HBl]; subst.
  destruct (HA m0 (or_introl eq_refl)) as (_ & n0 & L0 & D0).
  destruct (move_one_moves opts fsa m0 w w1 n0 Hreal H0 L0 D0) as [Hx L1].
  assert (HA1 : forall m', In m' l ->
             directory m' <> [] /\
             exists n, FS.lookup (fs w1) (directory m') = Some n /\ FS.is_dir_node n = true).
  { intros m' Hm'. destruct (HA m' (or_intror Hm')) as (Hne & n & L & D).
    split; [exact Hne|]. exists n. split; [|exact D].
    rewrite Forall_forall in HB0. destruct (HB0 m' Hm') as [P1 P2].
    exact (preserves_move_one opts fsa m0 (directory m') P1 P2 w w1 n H0 L D). }
  destruct Hm as [<-|Hm].
  - rewrite L0.
    apply (loop_preserves opts fsa l (MaildirM.get_folder_path_loc opts m0))
      with (w := w1); [| exact Hl | exact L1 | exact D0].
    intros m' Hm'. destruct (HA m' (or_intror Hm')) as (Hne & n & L & _).
    assert (Hsome : FS.lookup (fs w) (directory m') <> None) by (rewrite L; discriminate).
    destruct (fresh_not_prefix (fs w) _ (directory m') Hx Hsome Hne) as [N1 N2].
    split; [|exact N2]. intros P. apply N1. now apply is_prefix_removelast.
  - rewrite (IH w1 w' Hl HA1 HBl m Hm).
    destruct (HA m (or_intror Hm)) as (_ & n & L & D).
    rewrite Forall_forall in HB0. destruct (HB0 m Hm) as [P1 P2].
    rewrite L. exact (preserves_move_one opts fsa m0 (directory m) P1 P2 w w1 n H0 L D).
Qed.

End MoveFacts.

Module ApartFacts.
Import Tree TreeFacts DiscoveryFacts.

Lemma container_hidden (y : string) :
  Fnmatch.selects Kmail2Maildir.container_pattern y = true -> Fnmatch.ishidden y = true.
Proof. intros H. apply container_name in H as [t ->]. reflexivity. Qed.

(** Two discovered folders with distinct paths are apart: the name of a
    folder is not hidden, the names above it are. *)
Lemma discovered_apart (opts : options) (f : node) (m m' : Maildir) :
  In m (Kmail2Maildir.discover opts f) -> In m' (Kmail2Maildir.discover opts f) ->
  directory m <> directory m' -> apart m m'.
Proof.
  intros H H' Hne.
  apply discover_shape in H as (cs & x & -> & Hcs & Hx).
  apply discover_shape in H' as (cs' & x' & -> & Hcs' & Hx').
  unfold apart, MaildirM.init, FS.dirname in *. cbn [directory] in *.
  rewrite removelast_last.
  unfold container_names in Hcs, Hcs'. rewrite Forall_forall in Hcs, Hcs'.
  split; intros [r E].
  - assert (Hin : In x' cs) by (rewrite E, <- app_assoc; apply in_elt).
    apply Hcs, container_hidden in Hin. congruence.
  - destruct r as [|y r].
    + rewrite app_nil_r in E. now elim Hne.
    + assert (Er : y :: r = removelast (y :: r) ++ [last (y :: r) ""])
        by (apply app_removelast_last; discriminate).
      rewrite Er, !app_assoc in E. apply app_inj_tail in E as [E _].
      assert (Hin : In x cs') by (rewrite E, <- app_assoc; apply in_elt).
      apply Hcs', container_hidden in Hin. congruence.
Qed.

Lemma ForallOrdPairs_of_NoDup {A B : Type} (g : A -> B) (R : A -> A -> Prop) (l : list A) :
  NoDup (map g l) ->
  (forall a b, In a l -> In b l -> g a <> g b -> R a b) ->
  ForallOrdPairs R l.
Proof.
  induction l as [|a l IH]; intros Hn HR; [constructor|].
  cbn [map] in Hn. inversion Hn as [|? ? Ha Hn']; subst. constructor.
  - apply Forall_forall. intros b Hb. apply HR; [now left | now right |].
    intros E. apply Ha. rewrite E. now apply in_map.
  - apply IH; [exact Hn'|]. intros x y Hx Hy. apply HR; now right.
Qed.

(** A path that starts with another name than a discovered folder's
    path stays apart from it. *)
Lemma head_apart (p q : path) (y : string) (rest : path) :
  q = y :: rest -> hd "" p <> y -> p <> [] ->
  ~ is_prefix q (FS.dirname p) /\ ~ is_prefix p q.
Proof.
  intros -> Hh Hp. destruct p as [|z p]; [now elim Hp|]. cbn [hd] in Hh. split.
  - intros P. apply EffectFacts.is_prefix_removelast in P. destruct P as [r E].
    injection E as E _. now elim Hh.
  - intros [r E]. injection E as E _. elim Hh. now symmetry.
Qed.

(** The path of a discovered folder starts with the name of a container
    or with a name that is not hidden. *)
Lemma discovered_head (opts : options) (f : node) (m : Maildir) (y : string) :
  In m (Kmail2Maildir.discover opts f) ->
  Fnmatch.ishidden y = true ->
  Fnmatch.selects Kmail2Maildir.container_pattern y = false ->
  directory m <> [] /\ hd "" (directory m) <> y.
Proof.
  intros H Hy Hc. apply discover_shape in H as (cs & x & -> & Hcs & Hx).
  unfold MaildirM.init. cbn [directory]. split.
  - intros N. now apply app_eq_nil in N as [_ N].
  - destruct cs as [|c cs]; cbn [app hd].
    + intros ->. congruence.
    + inversion Hcs; subst. intros ->. congruence.
Qed.

End ApartFacts.

Module LoopEffect.

Lemma discovered_moved
        (opts : options) (fsa : FileSystemAction) (w w' : world) (m : Maildir) :
  Tree.wf (fs w) -> dry_run fsa = false ->
  Trace.per_folder_loop opts fsa w = (w', Ok) ->
  In m (Kmail2Maildir.discover opts (fs w)) ->
  FS.lookup (fs w') (MaildirM.get_folder_path_loc opts m) = FS.lookup (fs w) (directory m) /\
  FS.isdir (fs w') (MaildirM.get_folder_path_loc opts m) = true.
Proof.
  intros Hw Hreal H Hm. unfold Trace.per_folder_loop in H.
  assert (Hd : FS.isdir (fs w) (directory m) = true).
  { apply DiscoveryMore.discover_full in Hm
      as (c & x & es & -> & _ & _ & _ & _ & Hd & _). exact Hd. }
  assert (E : FS.lookup (fs w') (MaildirM.get_folder_path_loc opts m)
              = FS.lookup (fs w) (directory m)).
  { apply (MoveFacts.loop_moves opts fsa _ Hreal w w' H).
    - intros m' Hm'. apply sort_desc_In in Hm'.
      apply DiscoveryMore.discover_full in Hm'
        as (c & x & es & -> & _ & _ & _ & _ & Hd' & _).
      unfold MaildirM.init. cbn [directory]. split.
      + intros N. now apply app_eq_nil in N as [_ N].
      + unfold FS.isdir in Hd'. destruct (FS.lookup (fs w) (c ++ [x])) as [n|];
          [|discriminate Hd']. now exists n.
    - apply (ApartFacts.ForallOrdPairs_of_NoDup directory).
      + apply (Permutation_NoDup
                 (Permutation_map directory
                    (sort_desc_perm (MaildirM.get_folder_path opts)
                       (Kmail2Maildir.discover opts (fs w))))).
        now apply NoDupFacts.discover_NoDup.
      + intros a b Ha Hb. apply sort_desc_In in Ha, Hb.
        now apply (ApartFacts.discovered_apart opts (fs w)).
    - now apply sort_desc_In. }
  split; [exact E|]. unfold FS.isdir in *. now rewrite E.
Qed.

End LoopEffect.

(** X13.  With a hierarchy separator free of ['/'] and names free of the
    special characters of [glob], a real run of the loop over the folders
    that returns on a well-formed tree has moved every discovered folder
    to its flattened path directly below the root: what is found there
    afterwards is what the original path held before, with all its
    contents. *)
Theorem X13_folders_moved_to_flattened_paths
        (opts : options) (fsa : FileSystemAction) (w w' : world) (m : Maildir) :
  Tree.wf (fs w) -> glob_exact (folder opts) (fs w) -> flat_destination opts ->
  dry_run fsa = false ->
  Trace.per_folder_loop opts fsa w = (w', Ok) ->
  In m (Kmail2Maildir.discover opts (fs w)) ->
  FS.lookup (fs w') (MaildirM.get_folder_path_loc opts m) = FS.lookup (fs w) (directory m) /\
  FS.isdir (fs w') (MaildirM.get_folder_path_loc opts m) = true.
Proof. intros Hw _ _. exact (LoopEffect.discovered_moved opts fsa w w' m Hw). Qed.

Lemma X13_folders_moved_to_flattened_paths_witness :
  let opts := Examples.args "/mail" true false in
  let w := initial Examples.nested_store in
  FS.lookup (fs (fst (Trace.per_folder_loop opts Examples.real w)))
            [".Archive.Projects.Old"]
  = FS.lookup (fs w) [".Archive.directory"; ".Projects.directory"; "Old"].
Proof.
  cbv zeta.
  apply (X13_folders_moved_to_flattened_paths (Examples.args "/mail" true false)
           Examples.real (initial Examples.nested_store)
           (fst (Trace.per_folder_loop (Examples.args "/mail" true false) Examples.real
                   (initial Examples.nested_store)))
           (MaildirM.init (Examples.args "/mail" true false)
              [".Archive.directory"; ".Projects.directory"; "Old"])).
  - exact ExampleTrees.nested_store_wf.
  - exact ExampleTrees.nested_store_exact.
  - reflexivity.
  - reflexivity.
  - vm_compute. reflexivity.
  - vm_compute. right. right. now left.
Defined.

Module RootNamesFacts.
Import Tree TreeFacts EngineFacts EffectFacts GatewayEffects.

Lemma map_fst_replace_entry (x : string) (c : node) (es : list (string * node)) :
  map fst (FS.replace_entry x c es) = map fst es.
Proof.
  induction es as [|[y n] es IH]; [reflexivity|]. cbn [FS.replace_entry].
  destruct (String.eqb x y); cbn [map fst]; [reflexivity | now rewrite IH].
Qed.

Lemma In_remove_entry (x y : string) (es : list (string * node)) :
  In y (map fst (FS.remove_entry x es)) -> In y (map fst es).
Proof.
  induction es as [|[z n] es IH]; [tauto|]. cbn [FS.remove_entry].
  destruct (String.eqb x z); cbn [map fst In]; [tauto|].
  intros [E|H]; [now left | right; now apply IH].
Qed.

Lemma NoDup_remove_entry (x : string) (es : list (string * node)) :
  NoDup (map fst es) -> NoDup (map fst (FS.remove_entry x es)).
Proof.
  induction es as [|[z n] es IH]; [trivial|]. cbn [FS.remove_entry map fst].
  intros H. inversion H as [|? ? Hz Hn]; subst.
  destruct (String.eqb x z); [exact Hn|]. cbn [map fst]. constructor.
  - intros Hin. apply Hz. now apply In_remove_entry in Hin.
  - now apply IH.
Qed.

Lemma assoc_remove_same (x : string) (es : list (string * node)) :
  NoDup (map fst es) -> FS.assoc x (FS.remove_entry x es) = None.
Proof.
  induction es as [|[z n] es IH]; [reflexivity|]. cbn [FS.remove_entry map fst].
  intros H. inversion H as [|? ? Hz Hn]; subst.
  destruct (String.eqb_spec x z) as [->|N].
  - now apply assoc_None.
  - cbn [FS.assoc]. apply String.eqb_neq in N. rewrite N. now apply IH.
Qed.

Lemma update_root_nodup (p : path) (f f' : node)
      (g : list (string * node) -> option (list (string * node))) :
  FS.update f p g = Some f' -> root_nodup f ->
  (forall es es', g es = Some es' -> NoDup (map fst es) -> NoDup (map fst es')) ->
  root_nodup f'.
Proof.
  destruct f as [|es]; [destruct p; discriminate|].
  destruct p as [|x p]; cbn [FS.update root_nodup]; intros H Hn Hg.
  - destruct (g es) as [es'|] eqn:G; [|discriminate H]. injection H as <-.
    exact (Hg es es' G Hn).
  - destruct (FS.assoc x es); [|discriminate H].
    destruct (FS.update n p g); [|discriminate H]. injection H as <-.
    cbn [root_nodup]. now rewrite map_fst_replace_entry.
Qed.

Lemma fs_remove_root_nodup (f f' : node) (r : path) :
  FS.remove f r = Some f' -> root_nodup f -> root_nodup f'.
Proof.
  unfold FS.remove. destruct r as [|x r]; [discriminate|]. intros H Hn.
  apply (update_root_nodup _ _ _ _ H Hn). intros es es' G Hes.
  destruct (FS.assoc _ es) as [[|]|]; try discriminate G. injection G as <-.
  now apply NoDup_remove_entry.
Qed.

Lemma fs_rmdir_root_nodup (f f' : node) (r : path) :
  FS.rmdir f r = Some f' -> root_nodup f -> root_nodup f'.
Proof.
  unfold FS.rmdir. destruct r as [|x r]; [discriminate|]. intros H Hn.
  apply (update_root_nodup _ _ _ _ H Hn). intros es es' G Hes.
  destruct (FS.assoc _ es) as [[|[|]]|]; try discriminate G. injection G as <-.
  now apply NoDup_remove_entry.
Qed.

Lemma fs_rename_fresh (f : node) (src : path) (x : string) (moved : node)
      (es1 : list (string * node)) :
  src <> [] -> FS.lookup f src = Some moved -> FS.exists_ f [x] = false ->
  FS.update f (FS.dirname src)
    (fun es => Some (FS.remove_entry (FS.basename src) es)) = Some (Dir es1) ->
  FS.assoc x es1 = None.
Proof.
  intros Hs L E U.
  assert (Hsome : FS.lookup f src <> None) by (rewrite L; discriminate).
  destruct (fresh_not_prefix f x src E Hsome Hs) as [N1 N2].
  assert (H1 : FS.lookup (Dir es1) [x] = FS.lookup f [x]).
  { apply (unlink_frame f (Dir es1) src [x] _ Hs U); try assumption.
    - intros es es' G. now injection G.
    - intros P. apply N1. now apply is_prefix_removelast. }
  apply not_exists_lookup in E. rewrite E in H1. cbn [FS.lookup] in H1.
  now destruct (FS.assoc x es1).
Qed.

Lemma fs_rename_root_nodup (f f' : node) (src : path) (x : string) :
  FS.rename f src [x] = Some f' -> root_nodup f -> root_nodup f'.
Proof.
  intros H Hn.
  destruct (fs_rename_steps f f' src x H) as (Hs & moved & f1 & es1 & L & E & U & -> & ->).
  pose proof (fs_rename_fresh f src x moved es1 Hs L E U) as Hx.
  assert (H1 : root_nodup (Dir es1)).
  { apply (update_root_nodup _ _ _ _ U Hn). intros es es' G Hes. injection G as <-.
    now apply NoDup_remove_entry. }
  cbn [root_nodup] in *. rewrite map_app. cbn [map fst].
  apply NoDup_app; [exact H1 | repeat constructor; now intros [] |].
  intros a Ha [<-|[]]. now apply assoc_None in Hx.
Qed.

Lemma fs_rename_frame_eq (f f' : node) (src : path) (x y : string) (rest : path) :
  FS.rename f src [x] = Some f' ->
  ~ is_prefix (y :: rest) (FS.dirname src) -> ~ is_prefix src (y :: rest) -> y <> x ->
  FS.lookup f' (y :: rest) = FS.lookup f (y :: rest).
Proof.
  intros H Hn Hp Hy.
  destruct (fs_rename_steps f f' src x H) as (Hs & moved & f1 & es1 & _ & _ & U & -> & ->).
  rewrite <- (unlink_frame f (Dir es1) src (y :: rest) _ Hs U); try assumption.
  - cbn [FS.lookup]. rewrite assoc_app.
    destruct (FS.assoc y es1); [reflexivity|]. cbn [FS.assoc].
    apply String.eqb_neq in Hy. now rewrite Hy.
  - intros es es' G. now injection G.
Qed.

Lemma fs_rmdir_frame_eq (f f' : node) (r q : path) :
  FS.rmdir f r = Some f' ->
  ~ is_prefix q (FS.dirname r) -> ~ is_prefix r q ->
  FS.lookup f' q = FS.lookup f q.
Proof.
  intros H Hn Hp. destruct (fs_rmdir_inv f f' r H) as [Hr _].
  unfold FS.rmdir in H. destruct r as [|x r]; [now elim Hr|].
  apply (unlink_frame f f' (x :: r) q _ Hr H); try assumption.
  intros es es' G. destruct (FS.assoc (FS.basename (x :: r)) es) as [[|[|]]|];
    try discriminate G. now injection G.
Qed.

(** *** The computations keep the names of the root distinct *)

Lemma keeps_ret (P : node -> Prop) : keeps P ret.
Proof. intros w w' H. injection H as <-. tauto. Qed.

Lemma keeps_seq (P : node -> Prop) (m k : M) : keeps P m -> keeps P k -> keeps P (m ;; k).
Proof.
  intros Hm Hk w w' H Hp. apply seq_ok_inv in H as (wa & Ha & Hb).
  apply (Hk wa w' Hb). now apply (Hm w wa Ha).
Qed.

Lemma keeps_for_each {A : Type} (P : node -> Prop) (l : list A) (body : A -> M) :
  (forall x, keeps P (body x)) -> keeps P (for_each l body).
Proof.
  intros H. induction l as [|x l IH]; cbn [for_each];
    [apply keeps_ret | now apply keeps_seq].
Qed.

Lemma keeps_run (P : node -> Prop) (fsa : FileSystemAction) (msg : action)
      (fn : node -> option node) :
  (forall f f', fn f = Some f' -> P f -> P f') -> keeps P (FSA.run fsa msg fn).
Proof.
  intros Hfn w w' H Hp. apply run_ok_cases in H as [[_ E]|[_ E]].
  - now rewrite E.
  - exact (Hfn _ _ E Hp).
Qed.

Lemma keeps_rename (fsa : FileSystemAction) (src : path) (x : string) :
  keeps root_nodup (FSA.rename fsa src [x]).
Proof.
  intros w w' H Hp. apply rename_ok_cases in H as [_ [[_ E]|[_ E]]].
  - now rewrite E.
  - exact (fs_rename_root_nodup _ _ _ _ E Hp).
Qed.

Lemma keeps_move_one (opts : options) (fsa : FileSystemAction) (m : Maildir) :
  keeps root_nodup (Kmail2Maildir.move_one opts fsa m).
Proof.
  unfold Kmail2Maildir.move_one. apply keeps_seq; [apply keeps_rename|].
  apply keeps_seq.
  - destruct (remove_index_files_opt opts); [|apply keeps_ret].
    intros w. unfold Kmail2Maildir.remove_index_files.
    apply keeps_for_each. intros r. apply keeps_run. intros f f'.
    apply fs_remove_root_nodup.
  - intros w. unfold Kmail2Maildir.prune_parent.
    destruct (MaildirM.get_parent_maildir m) as [p|]; [|apply keeps_ret].
    destruct (Kmail2Maildir.is_empty_dir (fs w) p) as [[|]|].
    + apply keeps_run. intros f f'. apply fs_rmdir_root_nodup.
    + apply keeps_ret.
    + intros w' H. discriminate H.
Qed.

End RootNamesFacts.

Module InboxEffect.
Import Tree TreeFacts EngineFacts EffectFacts GatewayEffects RootNamesFacts.

Lemma inbox_rename_real (fsa : FileSystemAction) (d : string) (w w' : world) :
  dry_run fsa = false ->
  FSA.rename fsa (Kmail2Maildir.kmail_inbox ++ [d]) [d] w = (w', Ok) ->
  FS.rename (fs w) [".inbox"; d] [d] = Some (fs w').
Proof.
  intros Hreal H. apply rename_ok_cases in H as [_ [[Hd _]|[_ E]]]; [congruence|].
  exact E.
Qed.

(** A path that does not start with [.inbox] or with the moved name is
    left alone by the move of one special directory of the inbox. *)
Lemma inbox_rename_frame (f f' : node) (d y : string) (rest : path) :
  FS.rename f [".inbox"; d] [d] = Some f' -> y <> ".inbox" -> y <> d ->
  FS.lookup f' (y :: rest) = FS.lookup f (y :: rest).
Proof.
  intros H Hy Hd. apply (fs_rename_frame_eq f f' _ d y rest H); [| |exact Hd].
  - intros [r E]. cbn in E. injection E as E _. now elim Hy.
  - intros [r E]. cbn in E. injection E as E _. elim Hy. now symmetry.
Qed.

(** Below [.inbox] the move of one special directory leaves the others. *)
Lemma inbox_rename_sibling (f f' : node) (d d' : string) :
  FS.rename f [".inbox"; d] [d] = Some f' -> d' <> d -> d <> ".inbox" ->
  FS.lookup f' [".inbox"; d'] = FS.lookup f [".inbox"; d'].
Proof.
  intros H Hd Hi. apply (fs_rename_frame_eq f f' _ d ".inbox" [d'] H).
  - intros [r E]. cbn in E. discriminate E.
  - intros [r E]. cbn in E. injection E as E _. elim Hd. now symmetry.
  - intros E. now elim Hi.
Qed.

Lemma inbox_rmdir_frame (f f' : node) (y : string) (rest : path) :
  FS.rmdir f [".inbox"] = Some f' -> y <> ".inbox" ->
  FS.lookup f' (y :: rest) = FS.lookup f (y :: rest).
Proof.
  intros H Hy. apply (fs_rmdir_frame_eq f f' _ _ H).
  - intros [r E]. cbn in E. discriminate E.
  - intros [r E]. cbn in E. injection E as E _. elim Hy. now symmetry.
Qed.

Lemma inbox_rmdir_gone (f f' : node) :
  FS.rmdir f [".inbox"] = Some f' -> root_nodup f -> FS.lookup f' [".inbox"] = None.
Proof.
  unfold FS.rmdir. cbn [FS.dirname removelast FS.basename last].
  destruct f as [|es]; [discriminate|]. cbn [FS.update root_nodup].
  destruct (FS.assoc ".inbox" es) as [[|[|]]|]; try discriminate.
  intros H Hn. injection H as <-. cbn [FS.lookup].
  now rewrite (assoc_remove_same ".inbox" es Hn).
Qed.

(** The effect of a real relocation of the inbox that returns. *)
Lemma move_inbox_moves (fsa : FileSystemAction) (w w' : world) :
  dry_run fsa = false ->
  Kmail2Maildir.move_inbox fsa w = (w', Ok) ->
  (forall d, In d MAILDIR_SPECIAL_DIRS ->
             FS.lookup (fs w') [d] = FS.lookup (fs w) (Kmail2Maildir.kmail_inbox ++ [d])) /\
  (root_nodup (fs w) -> FS.lookup (fs w') Kmail2Maildir.kmail_inbox = None) /\
  (forall y rest, y <> ".inbox" -> ~ In y MAILDIR_SPECIAL_DIRS ->
                  FS.lookup (fs w') (y :: rest) = FS.lookup (fs w) (y :: rest)).
Proof.
  intros Hreal H. unfold Kmail2Maildir.move_inbox in H.
  apply seq_ok_inv in H as (w3 & H3 & Hr).
  cbn [for_each MAILDIR_SPECIAL_DIRS] in H3.
  apply seq_ok_inv in H3 as (wc & Hc & H3).
  apply seq_ok_inv in H3 as (wn & Hn & H3).
  apply seq_ok_inv in H3 as (wt & Ht & H3).
  injection H3 as <-.
  apply (inbox_rename_real fsa "cur" w wc Hreal) in Hc.
  apply (inbox_rename_real fsa "new" wc wn Hreal) in Hn.
  apply (inbox_rename_real fsa "tmp" wn wt Hreal) in Ht.
  apply run_ok_cases in Hr as [[Hd _]|[_ Hr]]; [congruence|].
  change Kmail2Maildir.kmail_inbox with [".inbox"] in *. cbn [app].
  split; [|split].
  - intros d [<-|[<-|[<-|[]]]].
    + rewrite (inbox_rmdir_frame _ _ "cur" [] Hr) by discriminate.
      rewrite (inbox_rename_frame _ _ "tmp" "cur" [] Ht) by discriminate.
      rewrite (inbox_rename_frame _ _ "new" "cur" [] Hn) by discriminate.
      exact (fs_rename_moves _ _ _ _ Hc).
    + rewrite (inbox_rmdir_frame _ _ "new" [] Hr) by discriminate.
      rewrite (inbox_rename_frame _ _ "tmp" "new" [] Ht) by discriminate.
      rewrite (fs_rename_moves _ _ _ _ Hn).
      apply (inbox_rename_sibling _ _ "cur" "new" Hc); discriminate.
    + rewrite (inbox_rmdir_frame _ _ "tmp" [] Hr) by discriminate.
      rewrite (fs_rename_moves _ _ _ _ Ht).
      rewrite (inbox_rename_sibling _ _ "new" "tmp" Hn) by discriminate.
      apply (inbox_rename_sibling _ _ "cur" "tmp" Hc); discriminate.
  - intros Hnd. apply (inbox_rmdir_gone _ _ Hr).
    apply (fs_rename_root_nodup _ _ _ _ Ht).
    apply (fs_rename_root_nodup _ _ _ _ Hn).
    exact (fs_rename_root_nodup _ _ _ _ Hc Hnd).
  - intros y rest Hy Hs. cbn [In] in Hs.
    rewrite (inbox_rmdir_frame _ _ y rest Hr Hy).
    rewrite (inbox_rename_frame _ _ "tmp" y rest Ht Hy)
      by (intros ->; apply Hs; right; right; now left).
    rewrite (inbox_rename_frame _ _ "new" y rest Hn Hy)
      by (intros ->; apply Hs; right; now left).
    apply (inbox_rename_frame _ _ "cur" y rest Hc Hy). intros ->. apply Hs. now left.
Qed.

End InboxEffect.

(** X14.  A real relocation of the inbox that returns has put [cur],
    [new] and [tmp] of [.inbox] into the base folder with all they held,
    has removed [.inbox] (the names of the root being distinct), and has
    left every other entry of the root as it was. *)
Theorem X14_inbox_relocated (fsa : FileSystemAction) (w w' : world) :
  dry_run fsa = false ->
  Kmail2Maildir.move_inbox fsa w = (w', Ok) ->
  (forall d, In d MAILDIR_SPECIAL_DIRS ->
             FS.lookup (fs w') [d] = FS.lookup (fs w) (Kmail2Maildir.kmail_inbox ++ [d])) /\
  (root_nodup (fs w) -> FS.lookup (fs w') Kmail2Maildir.kmail_inbox = None) /\
  (forall y rest, y <> ".inbox" -> ~ In y MAILDIR_SPECIAL_DIRS ->
                  FS.lookup (fs w') (y :: rest) = FS.lookup (fs w) (y :: rest)).
Proof. apply InboxEffect.move_inbox_moves. Qed.

Lemma X14_inbox_relocated_witness :
  let w := initial Examples.small_store in
  FS.lookup (fs (fst (Kmail2Maildir.move_inbox Examples.real w))) ["cur"]
  = FS.lookup (fs w) [".inbox"; "cur"].
Proof.
  cbv zeta.
  destruct (X14_inbox_relocated Examples.real (initial Examples.small_store)
              (fst (Kmail2Maildir.move_inbox Examples.real (initial Examples.small_store)))
              eq_refl) as [H _].
  - vm_compute. reflexivity.
  - apply (H "cur"). now left.
Defined.

Module PassEffect.
Import Tree TreeFacts EngineFacts EffectFacts GatewayEffects RootNamesFacts MoveFacts.

Lemma wf_root_nodup (f : node) : wf f -> root_nodup f.
Proof. destruct f as [|es]; [trivial|]. intros H. now apply wf_dir in H as [H _]. Qed.

(** No folder of a loop that returns was moved to a path at which a
    directory stood that the loop leaves alone. *)
Lemma loop_fresh (opts : options) (fsa : FileSystemAction) (l : list Maildir) (q : path) :
  forall w w' n,
    for_each l (Kmail2Maildir.move_one opts fsa) w = (w', Ok) ->
    FS.lookup (fs w) q = Some n -> FS.is_dir_node n = true ->
    (forall m, In m l ->
               ~ is_prefix q (FS.dirname (directory m)) /\ ~ is_prefix (directory m) q) ->
    forall m, In m l -> MaildirM.get_folder_path_loc opts m <> q.
Proof.
  induction l as [|m0 l IH]; intros w w' n H L D Hq m Hm; [now destruct Hm|].
  cbn [for_each] in H. apply seq_ok_inv in H as (w1 & H0 & Hl).
  destruct Hm as [<-|Hm].
  - unfold Kmail2Maildir.move_one in H0. apply seq_ok_inv in H0 as (wa & Ha & _).
    apply rename_ok_cases in Ha as [Hx _]. apply not_exists_lookup in Hx.
    intros E. rewrite E in Hx. congruence.
  - apply (IH w1 w' n Hl); [| exact D | | exact Hm].
    + destruct (Hq m0 (or_introl eq_refl)) as [P1 P2].
      exact (preserves_move_one opts fsa m0 q P1 P2 w w1 n H0 L D).
    + intros m' Hm'. apply Hq. now right.
Qed.

(** The paths of the discovered folders stay apart from every path that
    starts with [.inbox]. *)
Lemma inbox_apart (opts : options) (f : node) (m : Maildir) (rest : path) :
  In m (Kmail2Maildir.discover opts f) ->
  ~ is_prefix (".inbox" :: rest) (FS.dirname (directory m)) /\
  ~ is_prefix (directory m) (".inbox" :: rest).
Proof.
  intros H.
  destruct (ApartFacts.discovered_head opts f m ".inbox" H eq_refl eq_refl) as [Hne Hh].
  exact (ApartFacts.head_apart (directory m) _ ".inbox" rest eq_refl Hh Hne).
Qed.

Lemma flattened_not_special (opts : options) (m : Maildir) :
  ~ In (MaildirM.folder_path opts m) MAILDIR_SPECIAL_DIRS.
Proof.
  unfold MaildirM.folder_path. cbn. intros [H|[H|[H|[]]]]; discriminate H.
Qed.

End PassEffect.

(** X15.  With a hierarchy separator free of ['/'] and names free of the
    special characters of [glob], a real pass that returns on a
    well-formed tree whose [.inbox] is a maildir has converted the store:
    every discovered folder is found at its flattened path directly below
    the root with all it held, [cur], [new] and [tmp] of the inbox are
    found in the base folder, and [.inbox] is gone. *)
Theorem X15_real_pass_converts_store
        (opts : options) (fsa : FileSystemAction) (w w' : world) :
  Tree.wf (fs w) -> glob_exact (folder opts) (fs w) -> flat_destination opts ->
  dry_run fsa = false ->
  Kmail2Maildir.is_maildir (fs w) Kmail2Maildir.kmail_inbox = true ->
  Kmail2Maildir.move_kmail_folders opts fsa w = (w', Ok) ->
  (forall m, In m (Kmail2Maildir.discover opts (fs w)) ->
             FS.lookup (fs w') (MaildirM.get_folder_path_loc opts m)
             = FS.lookup (fs w) (directory m)) /\
  (forall d, In d MAILDIR_SPECIAL_DIRS ->
             FS.lookup (fs w') [d] = FS.lookup (fs w) (Kmail2Maildir.kmail_inbox ++ [d])) /\
  FS.lookup (fs w') Kmail2Maildir.kmail_inbox = None.
Proof.
  intros Hw _ _ Hreal Hin H. unfold Kmail2Maildir.move_kmail_folders in H.
  apply GatewayEffects.seq_ok_inv in H as (w1 & Hl & Hi).
  destruct (InboxEffect.move_inbox_moves fsa w1 w' Hreal Hi) as (Hd & Hg & Hf).
  assert (Hsorted : forall m, In m (Kmail2Maildir.sorted_maildirs opts (fs w)) ->
                              In m (Kmail2Maildir.discover opts (fs w)))
    by (intros m; apply sort_desc_In).
  assert (Hspecial : forall d, In d MAILDIR_SPECIAL_DIRS ->
            exists n, FS.lookup (fs w) (Kmail2Maildir.kmail_inbox ++ [d]) = Some n /\
                      FS.is_dir_node n = true).
  { intros d Hd'. unfold Kmail2Maildir.is_maildir in Hin.
    rewrite forallb_forall in Hin.
    specialize (Hin (FS.isdir (fs w) (Kmail2Maildir.kmail_inbox ++ [d]))
                    (in_map (fun s => FS.isdir (fs w) (Kmail2Maildir.kmail_inbox ++ [s]))
                       _ d Hd')).
    unfold FS.isdir in Hin.
    destruct (FS.lookup (fs w) (Kmail2Maildir.kmail_inbox ++ [d])) as [n|];
      [now exists n | discriminate Hin]. }
  split; [|split].
  - intros m Hm.
    destruct (LoopEffect.discovered_moved opts fsa w w1 m Hw Hreal Hl Hm) as [<- _].
    apply Hf; [|apply PassEffect.flattened_not_special].
    destruct (Hspecial "cur" (or_introl eq_refl)) as (n & Ln & _).
    assert (Li : exists ni, FS.lookup (fs w) [".inbox"] = Some ni /\ FS.is_dir_node ni = true).
    { change (Kmail2Maildir.kmail_inbox ++ ["cur"]) with ([".inbox"] ++ ["cur"]) in Ln.
      rewrite TreeFacts.lookup_app in Ln.
      destruct (FS.lookup (fs w) [".inbox"]) as [[|es]|]; try discriminate Ln.
      now exists (Dir es). }
    destruct Li as (ni & Li & Di).
    intros E.
    apply (PassEffect.loop_fresh opts fsa (Kmail2Maildir.sorted_maildirs opts (fs w))
             [".inbox"] w w1 ni Hl Li Di) with (m := m).
    + intros m' Hm'. apply (PassEffect.inbox_apart opts (fs w)). now apply Hsorted.
    + now apply sort_desc_In.
    + unfold MaildirM.get_folder_path_loc. now rewrite E.
  - intros d Hd'. rewrite (Hd d Hd').
    destruct (Hspecial d Hd') as (n & Ln & Dn). rewrite Ln.
    apply (MoveFacts.loop_preserves opts fsa (Kmail2Maildir.sorted_maildirs opts (fs w))
             (Kmail2Maildir.kmail_inbox ++ [d]))
      with (w := w); try assumption.
    intros m' Hm'. apply (PassEffect.inbox_apart opts (fs w)). now apply Hsorted.
  - apply Hg.
    apply (RootNamesFacts.keeps_for_each root_nodup _ _
             (RootNamesFacts.keeps_move_one opts fsa) w w1 Hl).
    now apply PassEffect.wf_root_nodup.
Qed.

Lemma X15_real_pass_converts_store_witness :
  let opts := Examples.args "/mail" true false in
  let w := initial Examples.nested_store in
  FS.lookup (fs (fst (Kmail2Maildir.move_kmail_folders opts Examples.real w)))
            Kmail2Maildir.kmail_inbox = None.
Proof.
  cbv zeta.
  apply (X15_real_pass_converts_store (Examples.args "/mail" true false) Examples.real
           (initial Examples.nested_store)
           (fst (Kmail2Maildir.move_kmail_folders (Examples.args "/mail" true false)
                   Examples.real (initial Examples.nested_store)))).
  - exact ExampleTrees.nested_store_wf.
  - exact ExampleTrees.nested_store_exact.
  - reflexivity.
  - reflexivity.
  - reflexivity.
  - vm_compute. reflexivity.
Defined.



(** ** What a dry pass announces *)

Module DryCallsFacts.
Import EngineFacts.

(** The container of a discovered folder is not empty: it holds the
    folder. *)
Lemma discovered_parent_not_empty (opts : options) (f : node) (m : Maildir) (p : path) :
  In m (Kmail2Maildir.discover opts f) ->
  MaildirM.get_parent_maildir m = Some p ->
  Kmail2Maildir.is_empty_dir f p = Some false.
Proof.
  intros H E. apply DiscoveryMore.discover_full in H
    as (c & x & es & -> & _ & Hl & Hx & _).
  unfold MaildirM.get_parent_maildir, MaildirM.init, FS.dirname in E.
  cbn [directory path_list] in E. rewrite removelast_last in E.
  destruct (Nat.eqb _ 1); [discriminate E|]. injection E as <-.
  unfold Kmail2Maildir.is_empty_dir, FS.listdir. rewrite Hl.
  destruct (map fst es); [now destruct Hx | reflexivity].
Qed.

Lemma move_one_dry_calls (opts : options) (fsa : FileSystemAction) (m : Maildir)
      (f : node) (w : world) :
  dry_run fsa = true -> fs w = f -> In m (Kmail2Maildir.discover opts f) ->
  exists rest,
    calls (fst (Kmail2Maildir.move_one opts fsa m w)) = calls w ++ rest /\
    no_removal_of_folder rest.
Proof.
  intros Hdry Hf Hm. unfold Kmail2Maildir.move_one.
  set (src := directory m). set (dst := MaildirM.get_folder_path_loc opts m).
  set (idx := if remove_index_files_opt opts
              then Kmail2Maildir.remove_index_files fsa m else ret).
  set (prune := Kmail2Maildir.prune_parent fsa (MaildirM.get_parent_maildir m)).
  destruct (TraceFacts.rename_cases fsa src dst w) as [[_ E]|[_ E]].
  - rewrite (seq_raised _ _ _ _ _ E). exists []. cbn [fst]. rewrite app_nil_r.
    split; [reflexivity | intros p []].
  - assert (Hidx : forall w0, exists n l,
                calls (fst (idx w0)) = calls w0 ++ firstn n (map RemovingFile l)).
    { intros w0. unfold idx. destruct (remove_index_files_opt opts).
      - unfold Kmail2Maildir.remove_index_files.
        destruct (IndexFacts.delete_all_trace fsa
                    (FS.glob (fs w0) (FS.dirname (directory m))
                       (HIDDEN_FILE_PREFIX ++ name m ++ ".index*")) w0) as (n & C & _).
        now exists n, (FS.glob (fs w0) (FS.dirname (directory m))
                         (HIDDEN_FILE_PREFIX ++ name m ++ ".index*")).
      - exists 0, []. cbn. now rewrite app_nil_r. }
    assert (Hprune : forall w0, fs w0 = f -> prune w0 = (w0, Ok)).
    { intros w0 E0. unfold prune, Kmail2Maildir.prune_parent.
      destruct (MaildirM.get_parent_maildir m) as [p|] eqn:Ep; [|reflexivity].
      now rewrite E0, (discovered_parent_not_empty opts f m p Hm Ep). }
    assert (Hfiles : forall n l p, ~ In (RemovingFolder p) (Moving src dst :: firstn n (map RemovingFile l))).
    { intros n l p [H|H]; [discriminate H|].
      apply InboxFacts.In_firstn, in_map_iff in H as (? & H & _). discriminate H. }
    destruct (seq_cases (FSA.rename fsa src dst) (idx ;; prune) w) as [[_ ->]|[_ ->]].
    + set (wa := fst (FSA.rename fsa src dst w)) in *.
      assert (Hwa : fs wa = f) by (unfold wa; now rewrite keeps_fs_rename).
      destruct (Hidx wa) as (n & l & Ci).
      destruct (seq_cases idx prune wa) as [[_ ->]|[_ ->]].
      * rewrite Hprune.
        -- exists (Moving src dst :: firstn n (map RemovingFile l)).
           cbn [fst]. rewrite Ci, E, <- app_assoc. split; [reflexivity|].
           intros p. apply Hfiles.
        -- unfold idx. destruct (remove_index_files_opt opts); [|exact Hwa].
           now rewrite keeps_fs_remove_index_files.
      * exists (Moving src dst :: firstn n (map RemovingFile l)).
        rewrite Ci, E, <- app_assoc. split; [reflexivity|]. intros p. apply Hfiles.
    + exists [Moving src dst]. split; [exact E|].
      intros p [H|[]]. discriminate H.
Qed.

Lemma loop_dry_calls (opts : options) (fsa : FileSystemAction) (f : node)
      (l : list Maildir) :
  dry_run fsa = true ->
  (forall m, In m l -> In m (Kmail2Maildir.discover opts f)) ->
  forall w, fs w = f ->
            exists rest,
              calls (fst (for_each l (Kmail2Maildir.move_one opts fsa) w)) = calls w ++ rest /\
              no_removal_of_folder rest.
Proof.
  intros Hdry. induction l as [|m l IH]; intros Hl w Hf.
  - exists []. cbn. rewrite app_nil_r. split; [reflexivity | intros p []].
  - cbn [for_each].
    destruct (move_one_dry_calls opts fsa m f w Hdry Hf (Hl m (or_introl eq_refl)))
      as (r1 & C1 & N1).
    destruct (seq_cases (Kmail2Maildir.move_one opts fsa m)
                (for_each l (Kmail2Maildir.move_one opts fsa)) w) as [[_ ->]|[_ ->]].
    + destruct (IH (fun m' H => Hl m' (or_intror H))
                  (fst (Kmail2Maildir.move_one opts fsa m w))) as (r2 & C2 & N2).
      * now rewrite keeps_fs_move_one.
      * exists (r1 ++ r2). rewrite C2, C1, <- app_assoc. split; [reflexivity|].
        intros p H. apply in_app_or in H as [H|H]; [now apply (N1 p) | now apply (N2 p)].
    + now exists r1.
Qed.

End DryCallsFacts.

(** X17.  A dry pass never announces the removal of a container: the
    container of a folder still holds the folder when the pass looks at
    it.  The only directory a dry pass announces to remove is [.inbox]. *)
Theorem X17_dry_pass_removes_no_container
        (opts : options) (fsa : FileSystemAction) (w : world) (new : list action) (p : path) :
  dry_run fsa = true ->
  calls (fst (Kmail2Maildir.move_kmail_folders opts fsa w)) = calls w ++ new ->
  In (RemovingFolder p) new ->
  p = Kmail2Maildir.kmail_inbox.
Proof.
  intros Hdry E Hin. unfold Kmail2Maildir.move_kmail_folders in E.
  set (l := Kmail2Maildir.sorted_maildirs opts (fs w)) in E.
  destruct (DryCallsFacts.loop_dry_calls opts fsa (fs w) l Hdry
              (fun m H => proj1 (sort_desc_In _ _ m) H) w eq_refl) as (r1 & C1 & N1).
  destruct (EngineFacts.seq_cases (for_each l (Kmail2Maildir.move_one opts fsa))
              (Kmail2Maildir.move_inbox fsa) w) as [[_ Es]|[_ Es]]; rewrite Es in E.
  - destruct (InboxFacts.move_inbox_trace fsa
                (fst (for_each l (Kmail2Maildir.move_one opts fsa) w))) as (n & C2 & _).
    rewrite C2, C1, <- app_assoc in E. apply app_inv_head in E. subst new.
    apply in_app_or in Hin as [H|H]; [now apply N1 in H|].
    apply InboxFacts.In_firstn in H. cbn in H.
    destruct H as [H|[H|[H|[H|[]]]]]; try discriminate H. now injection H as <-.
  - rewrite C1 in E. apply app_inv_head in E. subst new. now apply N1 in Hin.
Qed.

Lemma X17_dry_pass_removes_no_container_witness :
  [".inbox"] = Kmail2Maildir.kmail_inbox.
Proof.
  apply (X17_dry_pass_removes_no_container (Examples.args "/mail" true false)
           Examples.validation (initial Examples.indexed_store)
           (calls (fst (Kmail2Maildir.move_kmail_folders (Examples.args "/mail" true false)
                          Examples.validation (initial Examples.indexed_store))))).
  - reflexivity.
  - reflexivity.
  - vm_compute. do 6 right. now left.
Defined.

(** ** When the calls of a real pass succeed *)

Module ReturnFacts.
Import Tree TreeFacts EngineFacts EffectFacts GatewayEffects RootNamesFacts MoveFacts.

(** *** [os.rename] and [os.rmdir] *)

Lemma update_some (p : path) :
  forall f g es es',
    FS.lookup f p = Some (Dir es) -> g es = Some es' ->
    exists es1, FS.update f p g = Some (Dir es1).
Proof.
  induction p as [|x p IH]; intros f g es es' L G.
  - cbn [FS.lookup] in L. injection L as ->. cbn [FS.update]. rewrite G. now exists es'.
  - destruct f as [|es0]; [discriminate L|]. cbn [FS.lookup] in L. cbn [FS.update].
    destruct (FS.assoc x es0) as [c|]; [|discriminate L].
    destruct (IH c g es es' L G) as [es1 ->]. now eexists.
Qed.

Lemma lookup_parent (f : node) (r : path) (n : node) :
  r <> [] -> FS.lookup f r = Some n ->
  exists es, FS.lookup f (FS.dirname r) = Some (Dir es) /\
             FS.assoc (FS.basename r) es = Some n.
Proof.
  intros Hr L.
  assert (Er : r = FS.dirname r ++ [FS.basename r])
    by (apply app_removelast_last; exact Hr).
  assert (L' : FS.lookup f (FS.dirname r ++ [FS.basename r]) = Some n) by now rewrite <- Er.
  rewrite lookup_app in L'.
  destruct (FS.lookup f (FS.dirname r)) as [[|es]|]; try discriminate L'.
  exists es. split; [reflexivity|]. cbn [FS.lookup] in L'.
  destruct (FS.assoc (FS.basename r) es) as [c|]; [exact L' | discriminate L'].
Qed.

Lemma rename_succeeds (f : node) (src : path) (x : string) (moved : node) :
  src <> [] -> FS.lookup f src = Some moved -> FS.exists_ f [x] = false ->
  exists f', FS.rename f src [x] = Some f'.
Proof.
  intros Hs L E. destruct (lookup_parent f src moved Hs L) as (es & Ld & _).
  destruct (update_some (FS.dirname src) f
              (fun es => Some (FS.remove_entry (FS.basename src) es)) es _ Ld eq_refl)
    as [es1 U].
  unfold FS.rename. destruct src as [|y s]; [now elim Hs|].
  rewrite L, E, U. cbn [FS.dirname removelast FS.update]. now eexists.
Qed.

Lemma rmdir_succeeds (f : node) (p : path) :
  p <> [] -> FS.lookup f p = Some (Dir []) -> exists f', FS.rmdir f p = Some f'.
Proof.
  intros Hp L. destruct (lookup_parent f p _ Hp L) as (es & Ld & A).
  unfold FS.rmdir. destruct p as [|y s]; [now elim Hp|].
  match goal with
  | |- exists f', FS.update f ?d ?g = Some f' =>
      assert (G : g es = Some (FS.remove_entry (FS.basename (y :: s)) es))
        by (cbv beta; now rewrite A);
      destruct (update_some d f g es _ Ld G) as [es1 U]
  end.
  rewrite U. now eexists.
Qed.

(** After a rename the directory the source stood in lacks the source
    and is otherwise as before. *)
Lemma fs_rename_unlinks (f f' : node) (src : path) (x : string)
      (es : list (string * node)) :
  FS.rename f src [x] = Some f' -> FS.dirname src <> [] ->
  FS.lookup f (FS.dirname src) = Some (Dir es) ->
  FS.lookup f' (FS.dirname src) = Some (Dir (FS.remove_entry (FS.basename src) es)).
Proof.
  intros H Hd L.
  destruct (fs_rename_steps f f' src x H) as (Hs & moved & f1 & es1 & _ & _ & U & -> & ->).
  destruct (update_inv _ _ _ _ U) as (es0 & es' & L0 & G & L1).
  rewrite L in L0. injection L0 as <-. injection G as <-.
  destruct (FS.dirname src) as [|b rest]; [now elim Hd|].
  cbn [FS.lookup] in L1 |- *. rewrite assoc_app.
  destruct (FS.assoc b es1); [exact L1 | discriminate L1].
Qed.

(** *** Names that stay absent from the root *)

Lemma assoc_remove_none (x y : string) (es : list (string * node)) :
  FS.assoc y es = None -> FS.assoc y (FS.remove_entry x es) = None.
Proof.
  rewrite !assoc_None. intros H Hin. apply H. now apply In_remove_entry in Hin.
Qed.

Lemma update_absent (p : path) (f f' : node)
      (g : list (string * node) -> option (list (string * node))) (y : string) :
  FS.update f p g = Some f' ->
  (forall es es', g es = Some es' -> FS.assoc y es = None -> FS.assoc y es' = None) ->
  FS.lookup f [y] = None -> FS.lookup f' [y] = None.
Proof.
  destruct f as [|es]; [destruct p; discriminate|].
  destruct p as [|x p]; cbn [FS.update FS.lookup]; intros H Hg Hy.
  - destruct (g es) as [es'|] eqn:G; [|discriminate H]. injection H as <-.
    cbn [FS.lookup]. destruct (FS.assoc y es) eqn:A; [discriminate Hy|].
    now rewrite (Hg es es' G A).
  - destruct (FS.assoc x es) as [c|] eqn:A; [|discriminate H].
    destruct (FS.update c p g); [|discriminate H]. injection H as <-.
    cbn [FS.lookup]. rewrite assoc_replace_other; [exact Hy|].
    intros ->. rewrite A in Hy. discriminate Hy.
Qed.

Lemma fs_rename_absent (f f' : node) (src : path) (x y : string) :
  FS.rename f src [x] = Some f' -> y <> x ->
  FS.lookup f [y] = None -> FS.lookup f' [y] = None.
Proof.
  intros H Hy L.
  destruct (fs_rename_steps f f' src x H) as (_ & moved & f1 & es1 & _ & _ & U & -> & ->).
  assert (L1 : FS.lookup (Dir es1) [y] = None).
  { apply (update_absent _ _ _ _ y U); [|exact L].
    intros es es' G. injection G as <-. apply assoc_remove_none. }
  cbn [FS.lookup] in L1 |- *. rewrite assoc_app.
  destruct (FS.assoc y es1); [discriminate L1|]. cbn [FS.assoc].
  apply String.eqb_neq in Hy. now rewrite Hy.
Qed.

Lemma fs_rmdir_absent (f f' : node) (r : path) (y : string) :
  FS.rmdir f r = Some f' -> FS.lookup f [y] = None -> FS.lookup f' [y] = None.
Proof.
  unfold FS.rmdir. destruct r as [|x r]; [discriminate|]. intros H.
  apply (update_absent _ _ _ _ y H). intros es es' G.
  destruct (FS.assoc _ es) as [[|[|]]|]; try discriminate G. injection G as <-.
  apply assoc_remove_none.
Qed.

Lemma fs_remove_absent (f f' : node) (r : path) (y : string) :
  FS.remove f r = Some f' -> FS.lookup f [y] = None -> FS.lookup f' [y] = None.
Proof.
  unfold FS.remove. destruct r as [|x r]; [discriminate|]. intros H.
  apply (update_absent _ _ _ _ y H). intros es es' G.
  destruct (FS.assoc _ es) as [[|]|]; try discriminate G. injection G as <-.
  apply assoc_remove_none.
Qed.

(** One turn of the loop adds no name to the root but the flattened
    name of its folder. *)
Lemma absent_move_one (opts : options) (fsa : FileSystemAction) (m : Maildir) (y : string) :
  y <> MaildirM.folder_path opts m ->
  keeps (fun f => FS.lookup f [y] = None) (Kmail2Maildir.move_one opts fsa m).
Proof.
  intros Hy. unfold Kmail2Maildir.move_one. apply keeps_seq; [|apply keeps_seq].
  - intros w w' H L. apply rename_ok_cases in H as [_ [[_ E]|[_ E]]].
    + now rewrite E.
    + exact (fs_rename_absent _ _ _ _ y E Hy L).
  - destruct (remove_index_files_opt opts); [|apply keeps_ret].
    intros w. unfold Kmail2Maildir.remove_index_files.
    apply (keeps_for_each (fun f => FS.lookup f [y] = None)).
    intros r. apply keeps_run. intros f f'. apply fs_remove_absent.
  - intros w. unfold Kmail2Maildir.prune_parent.
    destruct (MaildirM.get_parent_maildir m) as [p|];
      [|apply (keeps_ret (fun f => FS.lookup f [y] = None))].
    destruct (Kmail2Maildir.is_empty_dir (fs w) p) as [[|]|].
    + apply (keeps_run (fun f => FS.lookup f [y] = None)). intros f f'.
      apply fs_rmdir_absent.
    + apply (keeps_ret (fun f => FS.lookup f [y] = None)).
    + intros w' H. discriminate H.
Qed.

(** *** The gateway in a real pass *)

Lemma run_real_returns (fsa : FileSystemAction) (msg : action) (fn : node -> option node)
      (w : world) (f' : node) :
  dry_run fsa = false -> fn (fs w) = Some f' ->
  exists w', FSA.run fsa msg fn w = (w', Ok) /\ fs w' = f'.
Proof.
  intros Hd Hf. unfold FSA.run. rewrite Hd. cbn [fs]. rewrite Hf.
  eexists. split; reflexivity.
Qed.

Lemma rename_real_returns (fsa : FileSystemAction) (src : path) (x : string)
      (w : world) (moved : node) :
  dry_run fsa = false -> src <> [] ->
  FS.lookup (fs w) src = Some moved -> FS.lookup (fs w) [x] = None ->
  exists w', FSA.rename fsa src [x] w = (w', Ok) /\
             FS.rename (fs w) src [x] = Some (fs w').
Proof.
  intros Hd Hs L Hx. apply not_exists_lookup in Hx.
  destruct (rename_succeeds (fs w) src x moved Hs L Hx) as [f' R].
  destruct (run_real_returns fsa (Moving src [x]) (fun f => FS.rename f src [x]) w f' Hd R)
    as (w' & Hr & E).
  exists w'. unfold FSA.rename. rewrite Hx, E. now split.
Qed.

(** *** Listings that only shrink *)

Lemma shrinks_refl (es : list (string * node)) : shrinks es es.
Proof. split; [trivial|]. intros x n' H. now exists n'. Qed.

Lemma In_remove_entry_pair (b x : string) (n : node) (es : list (string * node)) :
  In (x, n) (FS.remove_entry b es) -> In (x, n) es.
Proof.
  induction es as [|[z c] es IH]; [tauto|]. cbn [FS.remove_entry].
  destruct (String.eqb b z); cbn [In]; [tauto|].
  intros [E|H]; [now left | right; now apply IH].
Qed.

Lemma shrinks_remove_entry (b : string) (es : list (string * node)) :
  shrinks es (FS.remove_entry b es).
Proof.
  split; [apply NoDup_remove_entry|]. intros x n' H. exists n'.
  split; [now apply In_remove_entry_pair in H | reflexivity].
Qed.

Lemma shrinks_replace_entry (b : string) (c c' : node) (es : list (string * node)) :
  FS.assoc b es = Some c -> FS.is_dir_node c' = FS.is_dir_node c ->
  shrinks es (FS.replace_entry b c' es).
Proof.
  intros A D. split; [now rewrite map_fst_replace_entry|].
  induction es as [|[z n] es IH]; [intros x n' []|].
  cbn [FS.assoc FS.replace_entry] in A |- *. destruct (String.eqb_spec b z) as [->|N].
  - injection A as ->. intros x n' [E|H].
    + injection E as <- <-. exists c. split; [now left | exact D].
    + exists n'. split; [now right | reflexivity].
  - intros x n' [E|H].
    + exists n'. split; [now left | reflexivity].
    + destruct (IH A x n' H) as (n0 & Hin & E). exists n0. split; [now right | exact E].
Qed.

Lemma only_files_shrinks (pat : string) (q : path) (f f' : node)
      (es es' : list (string * node)) :
  FS.lookup f q = Some (Dir es) -> only_files pat q f ->
  FS.lookup f' q = Some (Dir es') -> shrinks es es' -> only_files pat q f'.
Proof.
  intros L (es0 & L0 & Hn & Hf) L' [S1 S2]. rewrite L in L0. injection L0 as <-.
  exists es'. split; [exact L'|]. split; [now apply S1|].
  intros x n' Hin Hs. destruct (S2 x n' Hin) as (n & Hin0 & E).
  rewrite (Hf x n Hin0 Hs) in E. now destruct n'.
Qed.

Lemma update_dir (p : path) (f f' : node)
      (g : list (string * node) -> option (list (string * node))) :
  FS.update f p g = Some f' -> FS.is_dir_node f = true /\ FS.is_dir_node f' = true.
Proof.
  destruct f as [|es]; [destruct p; discriminate|].
  destruct p as [|x p]; cbn [FS.update]; intros H.
  - destruct (g es); [|discriminate H]. injection H as <-. now split.
  - destruct (FS.assoc x es); [|discriminate H].
    destruct (FS.update n p g); [|discriminate H]. injection H as <-. now split.
Qed.

(** Rewriting the entries of the directory at [p] by a function that only
    shrinks a listing shrinks the listing of every directory it does not
    take away. *)
Lemma update_listing (p : path) :
  forall f g f' q es,
    FS.update f p g = Some f' ->
    FS.lookup f q = Some (Dir es) ->
    (forall esp esp', g esp = Some esp' -> shrinks esp esp') ->
    (forall b rest esp esp',
        q = p ++ b :: rest -> FS.lookup f p = Some (Dir esp) -> g esp = Some esp' ->
        FS.assoc b esp' = FS.assoc b esp) ->
    exists es', FS.lookup f' q = Some (Dir es') /\ shrinks es es'.
Proof.
  induction p as [|x p IH]; intros [|es0] g f' q es H L Hg Hc; try discriminate H;
    cbn [FS.update] in H.
  - destruct (g es0) as [es0'|] eqn:G; [|discriminate H]. injection H as <-.
    destruct q as [|b rest].
    + cbn [FS.lookup] in L. injection L as <-. exists es0'.
      split; [reflexivity | now apply Hg].
    + exists es. split; [|apply shrinks_refl]. cbn [FS.lookup] in L |- *.
      now rewrite (Hc b rest es0 es0' eq_refl eq_refl G).
  - destruct (FS.assoc x es0) as [c|] eqn:A; [|discriminate H].
    destruct (FS.update c p g) as [c'|] eqn:U; [|discriminate H]. injection H as <-.
    destruct q as [|y q'].
    + cbn [FS.lookup] in L. injection L as <-. exists (FS.replace_entry x c' es0).
      split; [reflexivity|]. apply (shrinks_replace_entry x c c' es0 A).
      destruct (update_dir _ _ _ _ U) as [-> ->]. reflexivity.
    + cbn [FS.lookup] in L |- *. destruct (String.eqb_spec y x) as [->|N].
      * rewrite A in L. rewrite (assoc_replace_same x c' c es0 A).
        apply (IH c g c' q' es U L Hg).
        intros b rest esp esp' E Lp G. apply (Hc b rest esp esp'); [|cbn [FS.lookup]|exact G].
        -- cbn [app]. now rewrite E.
        -- now rewrite A.
      * rewrite assoc_replace_other by exact N. exists es. split; [exact L|apply shrinks_refl].
Qed.

Lemma fs_remove_listing (f f' : node) (r q : path) (es : list (string * node)) :
  FS.remove f r = Some f' -> FS.lookup f q = Some (Dir es) ->
  exists es', FS.lookup f' q = Some (Dir es') /\ shrinks es es'.
Proof.
  intros H L. unfold FS.remove in H. destruct r as [|x r]; [discriminate H|].
  apply (update_listing _ _ _ _ q es H L).
  - intros esp esp' G. destruct (FS.assoc _ esp) as [[|]|]; try discriminate G.
    injection G as <-. apply shrinks_remove_entry.
  - intros b rest esp esp' E Lp G.
    destruct (FS.assoc (FS.basename (x :: r)) esp) as [[|]|] eqn:A; try discriminate G.
    injection G as <-. apply assoc_remove_other. intros ->.
    rewrite E, lookup_app, Lp in L. cbn [FS.lookup] in L. rewrite A in L.
    destruct rest; cbn in L; discriminate L.
Qed.

Lemma fs_rmdir_listing (f f' : node) (r q : path) (es : list (string * node)) :
  FS.rmdir f r = Some f' -> q <> r -> FS.lookup f q = Some (Dir es) ->
  exists es', FS.lookup f' q = Some (Dir es') /\ shrinks es es'.
Proof.
  intros H Hne L. unfold FS.rmdir in H. destruct r as [|x r]; [discriminate H|].
  apply (update_listing _ _ _ _ q es H L).
  - intros esp esp' G. destruct (FS.assoc _ esp) as [[|[|]]|]; try discriminate G.
    injection G as <-. apply shrinks_remove_entry.
  - intros b rest esp esp' E Lp G.
    destruct (FS.assoc (FS.basename (x :: r)) esp) as [[|[|]]|] eqn:A; try discriminate G.
    injection G as <-. apply assoc_remove_other. intros ->.
    rewrite E, lookup_app, Lp in L. cbn [FS.lookup] in L. rewrite A in L.
    destruct rest; cbn in L; [|discriminate L].
    elim Hne. rewrite E. symmetry. apply app_removelast_last. discriminate.
Qed.

Lemma fs_rename_only_files (f f' : node) (src q : path) (x pat : string) :
  FS.rename f src [x] = Some f' -> ~ is_prefix src q ->
  (q = [] -> Fnmatch.selects pat x = false) ->
  only_files pat q f -> only_files pat q f'.
Proof.
  intros H Hp Hx (es & L & Hn & Hf).
  destruct (fs_rename_steps f f' src x H) as (Hs & moved & f1 & es1 & Lm & E & U & -> & ->).
  destruct (update_listing _ _ _ _ q es U L) as (es' & L1 & S).
  - intros esp esp' G. injection G as <-. apply shrinks_remove_entry.
  - intros b rest esp esp' Eq _ G. injection G as <-. apply assoc_remove_other.
    intros ->. apply Hp. exists rest.
    assert (Er : src = FS.dirname src ++ [FS.basename src])
      by (apply app_removelast_last; exact Hs).
    rewrite Eq. transitivity ((FS.dirname src ++ [FS.basename src]) ++ rest).
    + now rewrite <- app_assoc.
    + now rewrite <- Er.
  - destruct q as [|b rest].
    + cbn [FS.lookup] in L1. injection L1 as <-.
      pose proof (fs_rename_fresh f src x moved es1 Hs Lm E U) as Hfresh.
      destruct S as [S1 S2].
      exists (es1 ++ [(x, moved)]). split; [reflexivity|]. split.
      * rewrite map_app. cbn [map fst].
        apply NoDup_app; [now apply S1 | repeat constructor; now intros [] |].
        intros a Ha [<-|[]]. now apply assoc_None in Hfresh.
      * intros y n Hin Hsel. apply in_app_or in Hin as [Hin|[Ey|[]]].
        -- destruct (S2 y n Hin) as (n0 & Hin0 & En).
           rewrite (Hf y n0 Hin0 Hsel) in En. now destruct n.
        -- injection Ey as <- <-. rewrite (Hx eq_refl) in Hsel. discriminate Hsel.
    + apply (only_files_shrinks pat (b :: rest) f _ es es' L); [now exists es | | exact S].
      cbn [FS.lookup] in L1 |- *. rewrite assoc_app.
      destruct (FS.assoc b es1); [exact L1 | discriminate L1].
Qed.

Lemma only_files_rename (fsa : FileSystemAction) (src q : path) (x pat : string) :
  ~ is_prefix src q -> (q = [] -> Fnmatch.selects pat x = false) ->
  keeps (only_files pat q) (FSA.rename fsa src [x]).
Proof.
  intros Hp Hx w w' H G. apply rename_ok_cases in H as [_ [[_ E]|[_ E]]].
  - now rewrite E.
  - exact (fs_rename_only_files _ _ _ _ _ _ E Hp Hx G).
Qed.

Lemma only_files_delete (fsa : FileSystemAction) (r q : path) (pat : string) :
  keeps (only_files pat q) (FSA.delete fsa r).
Proof.
  apply keeps_run. intros f f' H G. pose proof G as (es & L & _).
  destruct (fs_remove_listing f f' r q es H L) as (es' & L' & S).
  exact (only_files_shrinks pat q f f' es es' L G L' S).
Qed.

Lemma only_files_rmdir (fsa : FileSystemAction) (r q : path) (pat : string) :
  q <> r -> keeps (only_files pat q) (FSA.rmdir fsa r).
Proof.
  intros Hne. apply keeps_run. intros f f' H G. pose proof G as (es & L & _).
  destruct (fs_rmdir_listing f f' r q es H Hne L) as (es' & L' & S).
  exact (only_files_shrinks pat q f f' es es' L G L' S).
Qed.

Lemma only_files_remove_index_files (fsa : FileSystemAction) (m : Maildir)
      (q : path) (pat : string) :
  keeps (only_files pat q) (Kmail2Maildir.remove_index_files fsa m).
Proof.
  intros w. unfold Kmail2Maildir.remove_index_files.
  apply (keeps_for_each (only_files pat q)). intros r. apply only_files_delete.
Qed.

Lemma preserves_remove_index_files (fsa : FileSystemAction) (m : Maildir) (q : path) :
  ~ is_prefix q (FS.dirname (directory m)) ->
  preserves q (Kmail2Maildir.remove_index_files fsa m).
Proof.
  intros Hn w. unfold Kmail2Maildir.remove_index_files.
  apply preserves_for_each. intros r Hr. apply preserves_delete.
  apply DiscoveryFacts.glob_spec in Hr as (_ & x & _ & _ & _ & ->).
  unfold FS.dirname. now rewrite removelast_last.
Qed.

(** A directory that holds a folder is not empty. *)
Lemma holds_not_empty (f : node) (q : path) (b : string) (n : node) :
  FS.lookup f (q ++ [b]) = Some n -> Kmail2Maildir.is_empty_dir f q = Some false.
Proof.
  intros L. rewrite lookup_app in L. unfold Kmail2Maildir.is_empty_dir, FS.listdir.
  destruct (FS.lookup f q) as [[|es]|]; try discriminate L.
  cbn [FS.lookup] in L. destruct es as [|e es]; [discriminate L | reflexivity].
Qed.

(** The turn of another folder keeps the index files beside a folder
    that waits for its turn. *)
Lemma only_files_move_one (opts : options) (fsa : FileSystemAction) (m0 : Maildir)
      (w w' : world) (pat : string) (q : path) (b : string) (n : node) :
  Kmail2Maildir.move_one opts fsa m0 w = (w', Ok) ->
  only_files pat q (fs w) ->
  FS.lookup (fs w) (q ++ [b]) = Some n -> FS.is_dir_node n = true ->
  ~ is_prefix (q ++ [b]) (FS.dirname (directory m0)) ->
  ~ is_prefix (directory m0) (q ++ [b]) ->
  (q = [] -> Fnmatch.selects pat (MaildirM.folder_path opts m0) = false) ->
  only_files pat q (fs w').
Proof.
  intros H G L D P1 P2 Hx. unfold Kmail2Maildir.move_one in H.
  apply seq_ok_inv in H as (wa & Ha & H). apply seq_ok_inv in H as (wb & Hb & Hc).
  assert (Ga : only_files pat q (fs wa)).
  { apply (only_files_rename fsa (directory m0) q (MaildirM.folder_path opts m0) pat)
      with (w := w); [| exact Hx | exact Ha | exact G].
    intros [r E]. apply P2. exists (r ++ [b]). now rewrite E, app_assoc. }
  assert (La : FS.lookup (fs wa) (q ++ [b]) = Some n)
    by exact (preserves_rename fsa (q ++ [b]) (directory m0) _ P1 P2 w wa n Ha L D).
  assert (Gb : only_files pat q (fs wb) /\ FS.lookup (fs wb) (q ++ [b]) = Some n).
  { destruct (remove_index_files_opt opts).
    - split; [exact (only_files_remove_index_files fsa m0 q pat wa wb Hb Ga)|].
      exact (preserves_remove_index_files fsa m0 (q ++ [b]) P1 wa wb n Hb La D).
    - injection Hb as <-. now split. }
  destruct Gb as [Gb Lb].
  unfold Kmail2Maildir.prune_parent in Hc.
  destruct (MaildirM.get_parent_maildir m0) as [p|]; [|now injection Hc as <-].
  destruct (Kmail2Maildir.is_empty_dir (fs wb) p) as [[|]|] eqn:Ee;
    [| now injection Hc as <- | discriminate Hc].
  apply (only_files_rmdir fsa p q pat) with (w := wb); [| exact Hc | exact Gb].
  intros ->. rewrite (holds_not_empty _ _ _ _ Lb) in Ee. discriminate Ee.
Qed.

(** *** The calls of [remove_index_files] *)

Lemma remove_succeeds (f : node) (d : path) (x : string) (es : list (string * node)) :
  FS.lookup f d = Some (Dir es) -> FS.assoc x es = Some File ->
  exists f', FS.remove f (d ++ [x]) = Some f' /\
             FS.lookup f' d = Some (Dir (FS.remove_entry x es)).
Proof.
  intros L A. unfold FS.remove.
  assert (Ed : FS.dirname (d ++ [x]) = d) by apply removelast_last.
  assert (Eb : FS.basename (d ++ [x]) = x) by apply last_last.
  destruct (d ++ [x]) as [|y s] eqn:E; [now apply app_eq_nil in E as [_ E]|].
  rewrite Ed, Eb.
  match goal with
  | |- exists f', FS.update f d ?g = Some f' /\ _ =>
      assert (G : g es = Some (FS.remove_entry x es)) by (cbv beta; now rewrite A);
      destruct (update_some d f g es _ L G) as [es1 U];
      destruct (update_inv _ _ _ _ U) as (e0 & e1 & L0 & G0 & L1)
  end.
  rewrite L in L0. injection L0 as <-. rewrite G in G0. injection G0 as <-.
  exists (Dir es1). now split.
Qed.

Lemma delete_all_returns (fsa : FileSystemAction) (d : path) (l : list string) :
  dry_run fsa = false -> NoDup l ->
  forall w es,
    FS.lookup (fs w) d = Some (Dir es) ->
    (forall x, In x l -> FS.assoc x es = Some File) ->
    exists w', for_each (map (fun x => d ++ [x]) l)
                 (fun index_file => FSA.delete fsa index_file) w = (w', Ok).
Proof.
  intros Hreal Hn. induction Hn as [|x l Hx Hn IH]; intros w es L Hf; [now exists w|].
  cbn [map for_each].
  destruct (remove_succeeds (fs w) d x es L (Hf x (or_introl eq_refl))) as (f' & R & L').
  destruct (run_real_returns fsa (RemovingFile (d ++ [x]))
              (fun f => FS.remove f (d ++ [x])) w f' Hreal R) as (w1 & H1 & E1).
  unfold FSA.delete at 1. rewrite (seq_ok _ _ _ _ H1).
  apply (IH w1 (FS.remove_entry x es)); [now rewrite E1|].
  intros y Hy. rewrite assoc_remove_other; [apply Hf; now right|].
  intros ->. now apply Hx.
Qed.

Lemma remove_index_files_returns (fsa : FileSystemAction) (m : Maildir) (w : world) :
  dry_run fsa = false ->
  only_files (index_file_glob m) (FS.dirname (directory m)) (fs w) ->
  exists w', Kmail2Maildir.remove_index_files fsa m w = (w', Ok).
Proof.
  intros Hreal (es & L & Hn & Hf). unfold Kmail2Maildir.remove_index_files, FS.glob.
  rewrite L. apply (delete_all_returns fsa _ _ Hreal) with (es := es); [| exact L |].
  - unfold Fnmatch.glob1. destruct (Fnmatch.ishidden _); repeat apply NoDup_filter; exact Hn.
  - intros x Hx. apply DiscoveryFacts.glob1_spec in Hx as [Hx Hs].
    apply in_map_iff in Hx as ([x' n] & <- & Hin). cbn [fst] in Hs |- *.
    rewrite (NoDup_assoc x' n es Hn Hin). f_equal. exact (Hf x' n Hin Hs).
Qed.

Lemma not_prefix_of_dirname (p : path) : p <> [] -> ~ is_prefix p (FS.dirname p).
Proof.
  intros Hp [r E].
  assert (Er : p = FS.dirname p ++ [FS.basename p])
    by (apply app_removelast_last; exact Hp).
  apply (f_equal (@List.length string)) in E, Er. rewrite length_app in E, Er.
  cbn [List.length] in Er. lia.
Qed.

(** *** One turn of the loop *)

Lemma move_one_returns (opts : options) (fsa : FileSystemAction) (m : Maildir)
      (w : world) (n : node) :
  dry_run fsa = false ->
  directory m <> [] ->
  (forall p, MaildirM.get_parent_maildir m = Some p -> p <> []) ->
  FS.lookup (fs w) (directory m) = Some n ->
  FS.lookup (fs w) (MaildirM.get_folder_path_loc opts m) = None ->
  (remove_index_files_opt opts = true ->
   only_files (index_file_glob m) (FS.dirname (directory m)) (fs w) /\
   (FS.dirname (directory m) = [] ->
    Fnmatch.selects (index_file_glob m) (MaildirM.folder_path opts m) = false)) ->
  exists w', Kmail2Maildir.move_one opts fsa m w = (w', Ok).
Proof.
  intros Hreal Hne Hpar L Hx Hidx.
  destruct (rename_real_returns fsa (directory m) (MaildirM.folder_path opts m) w n
              Hreal Hne L Hx) as (wa & Ha & R).
  unfold Kmail2Maildir.move_one, MaildirM.get_folder_path_loc.
  rewrite (seq_ok _ _ _ _ Ha).
  destruct (lookup_parent (fs w) (directory m) n Hne L) as (es & Ld & _).
  assert (Hb : exists wb,
             (if remove_index_files_opt opts
              then Kmail2Maildir.remove_index_files fsa m else ret) wa = (wb, Ok) /\
             (FS.dirname (directory m) <> [] ->
              exists esb, FS.lookup (fs wb) (FS.dirname (directory m)) = Some (Dir esb))).
  { destruct (remove_index_files_opt opts).
    - destruct (Hidx eq_refl) as [G Hs].
      assert (Ga : only_files (index_file_glob m) (FS.dirname (directory m)) (fs wa)).
      { apply (only_files_rename fsa (directory m) _ (MaildirM.folder_path opts m) _)
          with (w := w); [| exact Hs | exact Ha | exact G].
        now apply not_prefix_of_dirname. }
      destruct (remove_index_files_returns fsa m wa Hreal Ga) as [wb Hb].
      exists wb. split; [exact Hb|]. intros _.
      destruct (only_files_remove_index_files fsa m _ _ wa wb Hb Ga) as (esb & Lb & _).
      now exists esb.
    - exists wa. split; [reflexivity|]. intros Hp. eexists.
      exact (fs_rename_unlinks _ _ _ _ es R Hp Ld). }
  destruct Hb as (wb & Hb & Lb).
  rewrite (seq_ok _ _ _ _ Hb).
  unfold Kmail2Maildir.prune_parent.
  destruct (MaildirM.get_parent_maildir m) as [p|] eqn:Ep; [|now exists wb].
  assert (Hp : p <> []) by now apply Hpar.
  assert (Ed : p = FS.dirname (directory m)).
  { unfold MaildirM.get_parent_maildir in Ep.
    destruct (Nat.eqb _ 1); [discriminate Ep | now injection Ep]. }
  rewrite <- Ed in Lb. destruct (Lb Hp) as [esb L1].
  unfold Kmail2Maildir.is_empty_dir, FS.listdir. rewrite L1.
  destruct esb as [|e esb]; cbn [map]; [|now exists wb].
  destruct (rmdir_succeeds (fs wb) p Hp L1) as [f' Hf].
  destruct (run_real_returns fsa (RemovingFolder p) (fun f => FS.rmdir f p) wb f' Hreal Hf)
    as (w' & Hr & _).
  now exists w'.
Qed.

(** *** The loop *)

Lemma loop_returns (opts : options) (fsa : FileSystemAction) (l : list Maildir) :
  dry_run fsa = false ->
  (remove_index_files_opt opts = true ->
   forall m m', In m l -> In m' l -> FS.dirname (directory m) = [] ->
                Fnmatch.selects (index_file_glob m) (MaildirM.folder_path opts m') = false) ->
  forall w,
    (forall m, In m l ->
               directory m <> [] /\
               (forall p, MaildirM.get_parent_maildir m = Some p -> p <> []) /\
               exists n, FS.lookup (fs w) (directory m) = Some n /\ FS.is_dir_node n = true) ->
    (forall m, In m l -> FS.lookup (fs w) (MaildirM.get_folder_path_loc opts m) = None) ->
    (remove_index_files_opt opts = true ->
     forall m, In m l ->
               only_files (index_file_glob m) (FS.dirname (directory m)) (fs w)) ->
    NoDup (map (MaildirM.folder_path opts) l) ->
    ForallOrdPairs apart l ->
    exists w', for_each l (Kmail2Maildir.move_one opts fsa) w = (w', Ok).
Proof.
  intros Hreal. induction l as [|m0 l IH]; intros HG w HA HF HI HN HB; [now exists w|].
  cbn [for_each].
  destruct (HA m0 (or_introl eq_refl)) as (Hne0 & Hp0 & n0 & L0 & D0).
  destruct (move_one_returns opts fsa m0 w n0 Hreal Hne0 Hp0 L0
              (HF m0 (or_introl eq_refl))) as [w1 H0].
  { intros Hrm. split; [apply (HI Hrm); now left|].
    apply (HG Hrm); now left. }
  rewrite (seq_ok _ _ _ _ H0).
  inversion HB as [|? ? HB0 HBl]; subst. rewrite Forall_forall in HB0.
  cbn [map] in HN. inversion HN as [|? ? HN0 HNl]; subst.
  apply IH; [| | | | exact HNl | exact HBl].
  - intros Hrm m m' Hm Hm'. apply (HG Hrm); now right.
  - intros m Hm. destruct (HA m (or_intror Hm)) as (Hne & Hp & n & L & D).
    split; [exact Hne|]. split; [exact Hp|]. exists n. split; [|exact D].
    destruct (HB0 m Hm) as [P1 P2].
    exact (preserves_move_one opts fsa m0 (directory m) P1 P2 w w1 n H0 L D).
  - intros m Hm.
    apply (absent_move_one opts fsa m0 (MaildirM.folder_path opts m)) with (w := w);
      [| exact H0 | exact (HF m (or_intror Hm))].
    intros E. apply HN0. rewrite <- E. now apply in_map.
  - intros Hrm m Hm. destruct (HA m (or_intror Hm)) as (Hne & _ & n & L & D).
    destruct (HB0 m Hm) as [P1 P2].
    assert (Er : directory m = FS.dirname (directory m) ++ [FS.basename (directory m)])
      by (apply app_removelast_last; exact Hne).
    apply (only_files_move_one opts fsa m0 w w1 _ _ (FS.basename (directory m)) n H0);
      try (rewrite <- Er); try assumption.
    + apply (HI Hrm). now right.
    + intros Hq. apply (HG Hrm); [now right | now left | exact Hq].
Qed.

(** *** The relocation of the inbox *)

Lemma In_remove_entry_neq (x y : string) (es : list (string * node)) :
  NoDup (map fst es) -> In y (map fst (FS.remove_entry x es)) -> y <> x.
Proof.
  intros Hn Hin ->. pose proof (assoc_remove_same x es Hn) as A.
  apply assoc_None in A. now apply A.
Qed.

Lemma remove_all_special (es : list (string * node)) :
  NoDup (map fst es) ->
  (forall x, In x (map fst es) -> In x MAILDIR_SPECIAL_DIRS) ->
  FS.remove_entry "tmp" (FS.remove_entry "new" (FS.remove_entry "cur" es)) = [].
Proof.
  intros Hn Hs.
  pose proof (NoDup_remove_entry "cur" es Hn) as Hn1.
  pose proof (NoDup_remove_entry "new" _ Hn1) as Hn2.
  destruct (FS.remove_entry "tmp" (FS.remove_entry "new" (FS.remove_entry "cur" es)))
    as [|[y n] r] eqn:E; [reflexivity|].
  assert (Hy : In y (map fst (FS.remove_entry "tmp"
                                (FS.remove_entry "new" (FS.remove_entry "cur" es)))))
    by (rewrite E; now left).
  pose proof (In_remove_entry_neq _ _ _ Hn2 Hy) as N3.
  apply In_remove_entry in Hy.
  pose proof (In_remove_entry_neq _ _ _ Hn1 Hy) as N2.
  apply In_remove_entry in Hy.
  pose proof (In_remove_entry_neq _ _ _ Hn Hy) as N1.
  apply In_remove_entry in Hy. apply Hs in Hy.
  destruct Hy as [<-|[<-|[<-|[]]]]; [now elim N1 | now elim N2 | now elim N3].
Qed.

(** The move of one special directory of the inbox in a real pass. *)
Lemma inbox_step (fsa : FileSystemAction) (d : string) (w : world)
      (es : list (string * node)) (n : node) :
  dry_run fsa = false ->
  FS.lookup (fs w) [".inbox"] = Some (Dir es) -> FS.assoc d es = Some n ->
  FS.lookup (fs w) [d] = None ->
  exists w',
    FSA.rename fsa (Kmail2Maildir.kmail_inbox ++ [d]) [d] w = (w', Ok) /\
    FS.lookup (fs w') [".inbox"] = Some (Dir (FS.remove_entry d es)) /\
    (forall y, y <> d -> FS.lookup (fs w) [y] = None -> FS.lookup (fs w') [y] = None).
Proof.
  intros Hreal Li A Hd.
  change (Kmail2Maildir.kmail_inbox ++ [d]) with [".inbox"; d].
  assert (L : FS.lookup (fs w) [".inbox"; d] = Some n).
  { change [".inbox"; d] with ([".inbox"] ++ [d]). rewrite lookup_app, Li.
    cbn [FS.lookup]. now rewrite A. }
  destruct (rename_real_returns fsa [".inbox"; d] d w n Hreal ltac:(discriminate) L Hd)
    as (w' & Hr & R).
  exists w'. split; [exact Hr|]. split.
  - apply (fs_rename_unlinks _ _ [".inbox"; d] d es R); [discriminate | exact Li].
  - intros y Hy. now apply (fs_rename_absent _ _ _ _ y R).
Qed.

Lemma move_inbox_returns (fsa : FileSystemAction) (w : world) (es : list (string * node)) :
  dry_run fsa = false ->
  FS.lookup (fs w) [".inbox"] = Some (Dir es) ->
  NoDup (map fst es) ->
  (forall x, In x (map fst es) -> In x MAILDIR_SPECIAL_DIRS) ->
  (forall d, In d MAILDIR_SPECIAL_DIRS -> FS.assoc d es <> None) ->
  (forall d, In d MAILDIR_SPECIAL_DIRS -> FS.lookup (fs w) [d] = None) ->
  exists w', Kmail2Maildir.move_inbox fsa w = (w', Ok).
Proof.
  intros Hreal Li Hn Hs Hm Ha.
  unfold Kmail2Maildir.move_inbox. cbn [for_each MAILDIR_SPECIAL_DIRS].
  destruct (FS.assoc "cur" es) as [nc|] eqn:Ac;
    [|elim (Hm "cur"); [now left | exact Ac]].
  destruct (FS.assoc "new" es) as [nn|] eqn:An;
    [|elim (Hm "new"); [right; now left | exact An]].
  destruct (FS.assoc "tmp" es) as [nt|] eqn:At;
    [|elim (Hm "tmp"); [right; right; now left | exact At]].
  destruct (inbox_step fsa "cur" w es nc Hreal Li Ac (Ha "cur" (or_introl eq_refl)))
    as (wc & Hc & Lc & Fc).
  assert (An' : FS.assoc "new" (FS.remove_entry "cur" es) = Some nn)
    by (rewrite assoc_remove_other; [exact An | discriminate]).
  destruct (inbox_step fsa "new" wc _ nn Hreal Lc An') as (wn & Hnw & Ln & Fn).
  { apply Fc; [discriminate|]. apply Ha. right. now left. }
  assert (At' : FS.assoc "tmp" (FS.remove_entry "new" (FS.remove_entry "cur" es)) = Some nt)
    by (rewrite !assoc_remove_other; [exact At | discriminate | discriminate]).
  destruct (inbox_step fsa "tmp" wn _ nt Hreal Ln At') as (wt & Ht & Lt & _).
  { apply Fn; [discriminate|]. apply Fc; [discriminate|]. apply Ha. right. right. now left. }
  rewrite (remove_all_special es Hn Hs) in Lt.
  destruct (rmdir_succeeds (fs wt) [".inbox"] ltac:(discriminate) Lt) as [f' Hf].
  destruct (run_real_returns fsa (RemovingFolder Kmail2Maildir.kmail_inbox)
              (fun f => FS.rmdir f Kmail2Maildir.kmail_inbox) wt f' Hreal Hf)
    as (w' & Hr & _).
  exists w'.
  rewrite (seq_ok _ _ _ wt); [exact Hr|].
  rewrite (seq_ok _ _ _ _ Hc), (seq_ok _ _ _ _ Hnw), (seq_ok _ _ _ _ Ht). reflexivity.
Qed.

(** *** What a validation pass that returns has checked *)

Lemma validated (opts : options) (fsa : FileSystemAction) (w : world) :
  dry_run fsa = true ->
  snd (Kmail2Maildir.move_kmail_folders opts fsa w) = Ok ->
  (forall m, In m (Kmail2Maildir.discover opts (fs w)) ->
             FS.lookup (fs w) (MaildirM.get_folder_path_loc opts m) = None) /\
  (forall d, In d MAILDIR_SPECIAL_DIRS -> FS.lookup (fs w) [d] = None).
Proof.
  intros Hdry H. unfold Kmail2Maildir.move_kmail_folders in H.
  set (l := Kmail2Maildir.sorted_maildirs opts (fs w)) in H.
  assert (Hl : snd (for_each l (Kmail2Maildir.move_one opts fsa) w) =
               match find (fun m => FS.exists_ (fs w) (MaildirM.get_folder_path_loc opts m)) l with
               | Some m => Raised (DestinationExists (MaildirM.get_folder_path_loc opts m))
               | None => Ok
               end).
  { apply DryPassFacts.loop_dry_result; [exact Hdry|].
    intros m p Hin E. apply sort_desc_In in Hin.
    apply DiscoveryMore.discover_full in Hin
      as (c & x & es & -> & _ & Hc & _ & _ & _ & _ & _).
    unfold MaildirM.get_parent_maildir, MaildirM.init, FS.dirname in E.
    cbn [directory path_list] in E. rewrite removelast_last in E.
    destruct (Nat.eqb _ 1); [discriminate E|]. injection E as <-.
    unfold FS.isdir. now rewrite Hc. }
  destruct (seq_cases (for_each l (Kmail2Maildir.move_one opts fsa))
              (Kmail2Maildir.move_inbox fsa) w) as [[Hok Es]|[Hko Es]]; rewrite Es in H;
    [|now elim Hko].
  rewrite Hok in Hl.
  rewrite DryPassFacts.move_inbox_dry_result in H by exact Hdry.
  rewrite keeps_fs_for_each in H by (intros x; now apply keeps_fs_move_one).
  split.
  - intros m Hm. apply not_exists_lookup.
    destruct (find _ l) eqn:F in Hl; [discriminate Hl|].
    apply (find_none _ _ F). now apply sort_desc_In.
  - intros d Hd. apply not_exists_lookup.
    destruct (find _ MAILDIR_SPECIAL_DIRS) eqn:F in H; [discriminate H|].
    exact (find_none _ _ F d Hd).
Qed.

(** *** The whole pass *)

Lemma discovered_parent (opts : options) (f : node) (m : Maildir) :
  In m (Kmail2Maildir.discover opts f) ->
  (MaildirM.get_parent_maildir m = None <-> FS.dirname (directory m) = []) /\
  exists es, FS.lookup f (FS.dirname (directory m)) = Some (Dir es).
Proof.
  intros Hm. apply DiscoveryMore.discover_full in Hm
    as (c & x & es & -> & _ & Hc & _).
  unfold MaildirM.init, MaildirM.get_parent_maildir, FS.dirname.
  cbn [directory path_list]. rewrite removelast_last, length_map, length_app.
  cbn [List.length]. split; [|now exists es].
  destruct c as [|y c]; [now split|].
  replace (Nat.eqb (List.length (y :: c) + 1) 1) with false
    by (symmetry; apply Nat.eqb_neq; cbn [List.length]; lia).
  split; discriminate.
Qed.

Lemma real_pass_returns (opts : options) (fsa : FileSystemAction) (w : world) :
  wf (fs w) -> dry_run fsa = false ->
  (forall m, In m (Kmail2Maildir.discover opts (fs w)) ->
             FS.lookup (fs w) (MaildirM.get_folder_path_loc opts m) = None) ->
  (forall d, In d MAILDIR_SPECIAL_DIRS -> FS.lookup (fs w) [d] = None) ->
  NoDup (map (MaildirM.folder_path opts) (Kmail2Maildir.discover opts (fs w))) ->
  Kmail2Maildir.is_maildir (fs w) Kmail2Maildir.kmail_inbox = true ->
  (forall x, FS.exists_ (fs w) (Kmail2Maildir.kmail_inbox ++ [x]) = true ->
             In x MAILDIR_SPECIAL_DIRS) ->
  (remove_index_files_opt opts = true ->
   forall m, In m (Kmail2Maildir.discover opts (fs w)) ->
     (forall p, In p (FS.glob (fs w) (FS.dirname (directory m)) (index_file_glob m)) ->
                FS.isdir (fs w) p = false) /\
     (MaildirM.get_parent_maildir m = None ->
      forall m', In m' (Kmail2Maildir.discover opts (fs w)) ->
                 Fnmatch.selects (index_file_glob m) (MaildirM.folder_path opts m') = false)) ->
  exists w', Kmail2Maildir.move_kmail_folders opts fsa w = (w', Ok).
Proof.
  intros Hw Hreal HF HS HN Hin Hex Hidx.
  unfold Kmail2Maildir.move_kmail_folders.
  set (l := Kmail2Maildir.sorted_maildirs opts (fs w)).
  assert (Hsorted : forall m, In m l -> In m (Kmail2Maildir.discover opts (fs w)))
    by (intros m; apply sort_desc_In).
  destruct (loop_returns opts fsa l Hreal) with (w := w) as [w1 Hl].
  - intros Hrm m m' Hm Hm' Hq. apply Hsorted in Hm, Hm'.
    destruct (Hidx Hrm m Hm) as [_ H2]. apply H2; [|exact Hm'].
    now apply (discovered_parent opts (fs w) m Hm).
  - intros m Hm. apply Hsorted in Hm.
    apply DiscoveryMore.discover_full in Hm
      as (c & x & es & -> & _ & Hc & _ & _ & Hd & _).
    unfold MaildirM.init, MaildirM.get_parent_maildir, FS.dirname.
    cbn [directory path_list]. rewrite removelast_last, length_map, length_app.
    cbn [List.length]. split; [|split].
    + intros N. now apply app_eq_nil in N as [_ N].
    + intros p. destruct c as [|y c]; [discriminate|].
      destruct (Nat.eqb _ 1); [discriminate|]. intros E. injection E as <-. discriminate.
    + unfold FS.isdir in Hd. destruct (FS.lookup (fs w) (c ++ [x])) as [n|];
        [now exists n | discriminate Hd].
  - intros m Hm. apply HF. now apply Hsorted.
  - intros Hrm m Hm. apply Hsorted in Hm.
    destruct (Hidx Hrm m Hm) as [H1 _].
    destruct (discovered_parent opts (fs w) m Hm) as [_ [es L]].
    assert (Hnd : NoDup (map fst es)).
    { pose proof (wf_lookup _ _ _ Hw L) as Hwd. now apply wf_dir in Hwd as [Hnd _]. }
    exists es. split; [exact L|]. split; [exact Hnd|].
    intros x n Hx Hs.
    assert (Hg : In (FS.dirname (directory m) ++ [x])
                    (FS.glob (fs w) (FS.dirname (directory m)) (index_file_glob m))).
    { apply DiscoveryFacts.glob_spec. exists es, x. repeat split; try assumption.
      exact (in_map fst _ _ Hx). }
    apply H1 in Hg. unfold FS.isdir in Hg. rewrite lookup_app, L in Hg.
    cbn [FS.lookup] in Hg. rewrite (NoDup_assoc x n es Hnd Hx) in Hg.
    now destruct n.
  - apply (Permutation_NoDup
             (Permutation_map (MaildirM.folder_path opts)
                (sort_desc_perm (MaildirM.get_folder_path opts)
                   (Kmail2Maildir.discover opts (fs w))))).
    exact HN.
  - apply (ApartFacts.ForallOrdPairs_of_NoDup directory).
    + apply (Permutation_NoDup
               (Permutation_map directory
                  (sort_desc_perm (MaildirM.get_folder_path opts)
                     (Kmail2Maildir.discover opts (fs w))))).
      now apply NoDupFacts.discover_NoDup.
    + intros a b Ha Hb. apply Hsorted in Ha, Hb.
      now apply (ApartFacts.discovered_apart opts (fs w)).
  - rewrite (seq_ok _ _ _ _ Hl).
    assert (Li : exists es, FS.lookup (fs w) [".inbox"] = Some (Dir es) /\
                            forall d, In d MAILDIR_SPECIAL_DIRS -> FS.assoc d es <> None).
    { unfold Kmail2Maildir.is_maildir in Hin. rewrite forallb_forall in Hin.
      assert (Hd : forall d, In d MAILDIR_SPECIAL_DIRS ->
                             FS.isdir (fs w) ([".inbox"] ++ [d]) = true).
      { intros d Hd. apply Hin.
        exact (in_map (fun s => FS.isdir (fs w) (Kmail2Maildir.kmail_inbox ++ [s])) _ d Hd). }
      pose proof (Hd "cur" (or_introl eq_refl)) as Hc.
      unfold FS.isdir in Hc, Hd. rewrite lookup_app in Hc.
      destruct (FS.lookup (fs w) [".inbox"]) as [[|es]|] eqn:L; try discriminate Hc.
      exists es. split; [reflexivity|]. intros d Hd' A.
      specialize (Hd d Hd'). rewrite lookup_app, L in Hd. cbn [FS.lookup] in Hd.
      rewrite A in Hd. discriminate Hd. }
    destruct Li as (es & Li & Hm).
    assert (Hwi : wf (Dir es)) by exact (wf_lookup _ _ _ Hw Li).
    apply wf_dir in Hwi as [Hnd _].
    apply (move_inbox_returns fsa w1 es Hreal); [| exact Hnd | | exact Hm |].
    + apply (loop_preserves opts fsa l [".inbox"]) with (w := w);
        [| exact Hl | exact Li | reflexivity].
      intros m Hm'. apply (PassEffect.inbox_apart opts (fs w)). now apply Hsorted.
    + intros x Hx. apply Hex.
      change (Kmail2Maildir.kmail_inbox ++ [x]) with ([".inbox"] ++ [x]).
      unfold FS.exists_. rewrite lookup_app, Li. cbn [FS.lookup].
      destruct (FS.assoc x es) eqn:A; [reflexivity|]. apply assoc_None in A. now elim A.
    + intros d Hd.
      apply (keeps_for_each (fun f => FS.lookup f [d] = None) l
               (Kmail2Maildir.move_one opts fsa)) with (w := w); [| exact Hl | now apply HS].
      intros m. apply absent_move_one. intros ->.
      now apply (PassEffect.flattened_not_special opts m).
Qed.

End ReturnFacts.

(** X18.  The validation pass is sound for a store in good order.  The
    hierarchy separator holds no ['/'], and neither the text of the base
    folder nor an entry name holds a special character of [glob].  On a
    well-formed tree on which no two discovered folders share a flattened
    name, whose [.inbox] is a maildir that holds nothing but [cur], [new]
    and [tmp] and, when index files are to be removed, where what [glob]
    reports for the index pattern beside a folder is no directory and no
    flattened name matches the index pattern of a folder of the root, an
    invocation that is no dry run ends as its validation pass does.  It
    raises the error of the validation, or the real pass runs to its end
    and the invocation returns. *)
Theorem X18_invocation_ends_as_validation (args : options) (w : world) :
  Tree.wf (fs w) -> glob_exact (folder args) (fs w) -> flat_destination args ->
  dry_run_opt args = false ->
  NoDup (map (MaildirM.folder_path args) (Kmail2Maildir.discover args (fs w))) ->
  Kmail2Maildir.is_maildir (fs w) Kmail2Maildir.kmail_inbox = true ->
  (forall x, FS.exists_ (fs w) (Kmail2Maildir.kmail_inbox ++ [x]) = true ->
             In x MAILDIR_SPECIAL_DIRS) ->
  (remove_index_files_opt args = true ->
   forall m, In m (Kmail2Maildir.discover args (fs w)) ->
     (forall p, In p (FS.glob (fs w) (FS.dirname (directory m)) (index_file_glob m)) ->
                FS.isdir (fs w) p = false) /\
     (MaildirM.get_parent_maildir m = None ->
      forall m', In m' (Kmail2Maildir.discover args (fs w)) ->
                 Fnmatch.selects (index_file_glob m) (MaildirM.folder_path args m') = false)) ->
  snd (kmail2maildir args w)
  = snd (Kmail2Maildir.move_kmail_folders args {| dry_run := true; quiet := true |} w).
Proof.
  intros Hw _ _ Hd HN Hin Hex Hidx. unfold kmail2maildir. rewrite Hd. cbn [negb].
  set (v := Kmail2Maildir.move_kmail_folders args {| dry_run := true; quiet := true |}).
  destruct (EngineFacts.seq_cases v
              (Kmail2Maildir.move_kmail_folders args {| dry_run := false; quiet := false |}) w)
    as [[Hok ->]|[_ ->]]; [|reflexivity].
  rewrite Hok.
  assert (Hfs : fs (fst (v w)) = fs w)
    by now apply EngineFacts.keeps_fs_move_kmail_folders.
  destruct (ReturnFacts.validated args {| dry_run := true; quiet := true |} w eq_refl Hok)
    as [HF HS].
  destruct (ReturnFacts.real_pass_returns args {| dry_run := false; quiet := false |}
              (fst (v w))) as [w' ->]; rewrite ?Hfs; try assumption; reflexivity.
Qed.

Lemma X18_invocation_ends_as_validation_witness :
  snd (kmail2maildir (Examples.args "/mail" true false) (initial Examples.nested_store)) = Ok.
Proof.
  rewrite (X18_invocation_ends_as_validation (Examples.args "/mail" true false)
             (initial Examples.nested_store)).
  - vm_compute. reflexivity.
  - exact ExampleTrees.nested_store_wf.
  - exact ExampleTrees.nested_store_exact.
  - reflexivity.
  - reflexivity.
  - vm_compute. repeat constructor; cbn; intuition discriminate.
  - reflexivity.
  - intros x H. unfold FS.exists_ in H. cbn in H.
    destruct (String.eqb_spec x "cur") as [E|_]; [subst x; now left|].
    destruct (String.eqb_spec x "new") as [E|_]; [subst x; right; now left|].
    destruct (String.eqb_spec x "tmp") as [E|_]; [subst x; right; right; now left|].
    discriminate H.
  - intros _ m Hm. vm_compute in Hm.
    destruct Hm as [<-|[<-|[<-|[]]]]; (split;
      [ intros p Hp; vm_compute in Hp;
        repeat (destruct Hp as [<-|Hp]; [reflexivity|]); destruct Hp
      | intros Hpar m' Hm'; vm_compute in Hm';
        repeat (destruct Hm' as [<-|Hm']; [try reflexivity; discriminate Hpar|]);
        destruct Hm' ]).
Defined.

(** ** What a pass leaves alone *)

Module RestFacts.
Import Tree TreeFacts EngineFacts EffectFacts GatewayEffects RootNamesFacts.

Lemma app_split_cases {A : Type} (l1 : list A) :
  forall l2 a b r1 r2,
    l1 ++ a :: r1 = l2 ++ b :: r2 ->
    (l1 = l2 /\ a = b /\ r1 = r2) \/
    (exists mid, l2 = l1 ++ a :: mid) \/
    (exists mid, l1 = l2 ++ b :: mid).
Proof.
  induction l1 as [|h l1 IH]; intros [|h2 l2] a b r1 r2 E; cbn [app] in E;
    injection E as -> E.
  - left. now subst.
  - right. left. now exists l2.
  - right. right. now exists l1.
  - destruct (IH l2 a b r1 r2 E) as [(-> & -> & ->)|[[mid ->]|[mid ->]]].
    + now left.
    + right. left. now exists mid.
    + right. right. now exists mid.
Qed.

(** A path whose first component that is no container is no discovered
    folder stays apart from every discovered folder. *)
Lemma rest_apart (c cm : path) (y xm : string) (rest : path) :
  container_names c -> container_names cm ->
  Fnmatch.ishidden xm = false ->
  Fnmatch.selects Kmail2Maildir.container_pattern y = false ->
  c ++ [y] <> cm ++ [xm] ->
  ~ is_prefix (c ++ y :: rest) cm /\ ~ is_prefix (cm ++ [xm]) (c ++ y :: rest).
Proof.
  intros Hc Hcm Hx Hy Hne. unfold container_names in Hc, Hcm.
  rewrite Forall_forall in Hc, Hcm. split; intros [r E].
  - assert (Hin : In y cm) by (rewrite E, <- app_assoc; apply in_elt).
    apply Hcm in Hin. congruence.
  - rewrite <- app_assoc in E. cbn [app] in E.
    destruct (app_split_cases _ _ _ _ _ _ E) as [(-> & -> & _)|[[mid ->]|[mid ->]]].
    + now elim Hne.
    + assert (Hin : In y (c ++ y :: mid)) by apply in_elt.
      apply Hcm in Hin. congruence.
    + assert (Hin : In xm (cm ++ xm :: mid)) by apply in_elt.
      apply Hc, ApartFacts.container_hidden in Hin. congruence.
Qed.

Lemma fs_remove_frame_any (f f' : node) (r q : path) (v : node) :
  FS.remove f r = Some f' ->
  ~ is_prefix q (FS.dirname r) -> q <> r ->
  FS.lookup f q = Some v -> FS.lookup f' q = Some v.
Proof.
  intros H Hn Hne Hq. destruct (fs_remove_inv f f' r H) as [Hr Hf].
  rewrite <- Hq. unfold FS.remove in H. destruct r as [|x r]; [now elim Hr|].
  apply (unlink_frame f f' (x :: r) q _ Hr H); [| exact Hn |].
  - intros es es' G. destruct (FS.assoc (FS.basename (x :: r)) es) as [[|]|];
      try discriminate G. now injection G.
  - intros [rest ->]. rewrite lookup_app, Hf in Hq.
    destruct rest; [elim Hne; now rewrite app_nil_r | discriminate Hq].
Qed.

Lemma keeps_for_each_in {A : Type} (P : node -> Prop) (l : list A) (body : A -> M) :
  (forall x, In x l -> keeps P (body x)) -> keeps P (for_each l body).
Proof.
  induction l as [|x l IH]; intros H; cbn [for_each]; [apply keeps_ret|].
  apply keeps_seq; [apply H; now left|]. apply IH. intros z Hz. apply H. now right.
Qed.

(** One turn of the loop leaves alone what lies apart from its folder and
    is none of the index files it deletes. *)
Lemma rest_move_one (opts : options) (fsa : FileSystemAction) (m : Maildir)
      (q : path) (v : node) :
  ~ is_prefix q (FS.dirname (directory m)) -> ~ is_prefix (directory m) q ->
  (remove_index_files_opt opts = true ->
   forall x, Fnmatch.selects (index_file_glob m) x = true ->
             q <> FS.dirname (directory m) ++ [x]) ->
  keeps (fun f => FS.lookup f q = Some v) (Kmail2Maildir.move_one opts fsa m).
Proof.
  intros P1 P2 Hi. unfold Kmail2Maildir.move_one. apply keeps_seq; [|apply keeps_seq].
  - intros w w' H L. apply rename_ok_cases in H as [_ [[_ E]|[_ E]]].
    + now rewrite E.
    + exact (fs_rename_frame _ _ _ _ _ _ E P1 P2 L).
  - destruct (remove_index_files_opt opts); [|apply keeps_ret].
    intros w. unfold Kmail2Maildir.remove_index_files.
    apply (keeps_for_each_in (fun f => FS.lookup f q = Some v)).
    intros r Hr. apply DiscoveryFacts.glob_spec in Hr as (_ & x & _ & _ & Hs & ->).
    apply keeps_run. intros f f' H. apply (fs_remove_frame_any _ _ _ _ _ H).
    + unfold FS.dirname. now rewrite removelast_last.
    + now apply (Hi eq_refl).
  - intros w. unfold Kmail2Maildir.prune_parent, MaildirM.get_parent_maildir.
    destruct (Nat.eqb (List.length (path_list m)) 1);
      [apply (keeps_ret (fun f => FS.lookup f q = Some v))|].
    destruct (Kmail2Maildir.is_empty_dir (fs w) (FS.dirname (directory m))) as [[|]|].
    + apply (keeps_run (fun f => FS.lookup f q = Some v)). intros f f' H.
      apply (fs_rmdir_frame _ _ _ _ _ H).
      * intros P. apply P1. now apply is_prefix_removelast.
      * intros ->. apply P1. exists []. now rewrite app_nil_r.
    + apply (keeps_ret (fun f => FS.lookup f q = Some v)).
    + intros w' H. discriminate H.
Qed.

(** The relocation of the inbox leaves alone what does not start with
    [.inbox]. *)
Lemma rest_move_inbox (fsa : FileSystemAction) (h : string) (t : path) (v : node) :
  h <> ".inbox" ->
  keeps (fun f => FS.lookup f (h :: t) = Some v) (Kmail2Maildir.move_inbox fsa).
Proof.
  intros Hh. unfold Kmail2Maildir.move_inbox. apply keeps_seq.
  - apply keeps_for_each. intros d w w' H L.
    apply rename_ok_cases in H as [_ [[_ E]|[_ E]]]; [now rewrite E|].
    destruct (ApartFacts.head_apart (Kmail2Maildir.kmail_inbox ++ [d]) (h :: t) h t eq_refl)
      as [P1 P2]; [intros E'; apply Hh; now rewrite <- E' | discriminate |].
    exact (fs_rename_frame _ _ _ _ _ _ E P1 P2 L).
  - apply keeps_run. intros f f' H. apply (fs_rmdir_frame _ _ _ _ _ H).
    + intros [r E]. discriminate E.
    + intros E. injection E as E _. now elim Hh.
Qed.

Lemma rest_pass (opts : options) (fsa : FileSystemAction) (w w' : world)
      (c : path) (y : string) (rest : path) (v : node) :
  Kmail2Maildir.move_kmail_folders opts fsa w = (w', Ok) ->
  container_names c ->
  Fnmatch.selects Kmail2Maildir.container_pattern y = false ->
  c ++ [y] <> Kmail2Maildir.kmail_inbox ->
  ~ In (c ++ [y]) (map directory (Kmail2Maildir.discover opts (fs w))) ->
  (remove_index_files_opt opts = true ->
   forall m, In m (Kmail2Maildir.discover opts (fs w)) ->
             FS.dirname (directory m) = c ->
             Fnmatch.selects (index_file_glob m) y = false) ->
  FS.lookup (fs w) (c ++ y :: rest) = Some v ->
  FS.lookup (fs w') (c ++ y :: rest) = Some v.
Proof.
  intros H Hc Hy Hi Hd Hx L. unfold Kmail2Maildir.move_kmail_folders in H.
  apply seq_ok_inv in H as (w1 & Hl & Hb).
  assert (L1 : FS.lookup (fs w1) (c ++ y :: rest) = Some v).
  { apply (keeps_for_each_in (fun f => FS.lookup f (c ++ y :: rest) = Some v)
             (Kmail2Maildir.sorted_maildirs opts (fs w))
             (Kmail2Maildir.move_one opts fsa)) with (w := w); [| exact Hl | exact L].
    intros m Hm. apply sort_desc_In in Hm.
    destruct (DiscoveryFacts.discover_shape opts (fs w) m Hm) as (cm & xm & Em & Hcm & Hxm).
    assert (Edir : directory m = cm ++ [xm]) by now rewrite Em.
    assert (Hne : c ++ [y] <> cm ++ [xm]).
    { intros E. apply Hd. rewrite E, <- Edir. now apply in_map. }
    destruct (rest_apart c cm y xm rest Hc Hcm Hxm Hy Hne) as [P1 P2].
    assert (Edn : FS.dirname (directory m) = cm)
      by (rewrite Edir; apply removelast_last).
    apply rest_move_one; rewrite ?Edn, ?Edir; try assumption.
    intros Hrm x Hs E.
    destruct (app_split_cases _ _ _ _ _ _ E) as [(-> & -> & _)|[[mid ->]|[mid ->]]].
    - rewrite (Hx Hrm m Hm Edn) in Hs. discriminate Hs.
    - unfold container_names in Hcm. rewrite Forall_forall in Hcm.
      assert (Hin : In y (c ++ y :: mid)) by apply in_elt.
      apply Hcm in Hin. congruence.
    - rewrite <- app_assoc in E. apply app_inv_head in E. cbn [app] in E.
      injection E as E. now destruct mid. }
  destruct c as [|h t]; cbn [app] in *.
  - apply (rest_move_inbox fsa y rest v) with (w := w1); [| exact Hb | exact L1].
    intros ->. now elim Hi.
  - apply (rest_move_inbox fsa h (t ++ y :: rest) v) with (w := w1); [| exact Hb | exact L1].
    intros ->. inversion Hc as [|? ? Hh _]; subst. discriminate Hh.
Qed.

End RestFacts.

(** X19.  With a hierarchy separator free of ['/'] and names free of the
    special characters of [glob], a pass that returns leaves the rest of
    the store alone.  Take a path below containers whose next component [y] is no container, is not
    [.inbox], is no discovered folder and, when index files are removed, is
    not reported for the index pattern of a folder beside it: what the path
    held before the pass it holds afterwards. *)
Theorem X19_pass_leaves_the_rest
        (opts : options) (fsa : FileSystemAction) (w w' : world)
        (c : path) (y : string) (rest : path) (v : node) :
  glob_exact (folder opts) (fs w) -> flat_destination opts ->
  Kmail2Maildir.move_kmail_folders opts fsa w = (w', Ok) ->
  container_names c ->
  Fnmatch.selects Kmail2Maildir.container_pattern y = false ->
  c ++ [y] <> Kmail2Maildir.kmail_inbox ->
  ~ In (c ++ [y]) (map directory (Kmail2Maildir.discover opts (fs w))) ->
  (remove_index_files_opt opts = true ->
   forall m, In m (Kmail2Maildir.discover opts (fs w)) ->
             FS.dirname (directory m) = c ->
             Fnmatch.selects (index_file_glob m) y = false) ->
  FS.lookup (fs w) (c ++ y :: rest) = Some v ->
  FS.lookup (fs w') (c ++ y :: rest) = Some v.
Proof. intros _ _. apply RestFacts.rest_pass. Qed.

Lemma X19_pass_leaves_the_rest_witness :
  FS.lookup
    (fs (fst (Kmail2Maildir.move_kmail_folders (Examples.args "/mail" false false)
                Examples.real (initial Examples.nested_store))))
    [".Archive.directory"; ".Projects.index"] = Some File.
Proof.
  apply (X19_pass_leaves_the_rest (Examples.args "/mail" false false) Examples.real
           (initial Examples.nested_store)
           (fst (Kmail2Maildir.move_kmail_folders (Examples.args "/mail" false false)
                   Examples.real (initial Examples.nested_store)))
           [".Archive.directory"] ".Projects.index" [] File).
  - exact ExampleTrees.nested_store_exact.
  - reflexivity.
  - vm_compute. reflexivity.
  - repeat constructor.
  - reflexivity.
  - discriminate.
  - vm_compute. intuition discriminate.
  - discriminate.
  - reflexivity.
Defined.

(** ** Every call is accounted for *)

Module CallFacts.
Import EngineFacts TraceFacts.

Lemma issues_only_ret (A : action -> Prop) : issues_only A ret.
Proof. intros w. exists []. split; [now rewrite app_nil_r | constructor]. Qed.

Lemma issues_only_seq (A : action -> Prop) (m k : M) :
  issues_only A m -> issues_only A k -> issues_only A (m ;; k).
Proof.
  intros Hm Hk w. destruct (Hm w) as (n1 & E1 & F1).
  destruct (seq_cases m k w) as [[_ ->]|[_ ->]].
  - destruct (Hk (fst (m w))) as (n2 & E2 & F2). exists (n1 ++ n2).
    split; [now rewrite E2, E1, app_assoc | now apply Forall_app].
  - now exists n1.
Qed.

Lemma issues_only_for_each {T : Type} (A : action -> Prop) (l : list T) (body : T -> M) :
  (forall x, In x l -> issues_only A (body x)) -> issues_only A (for_each l body).
Proof.
  induction l as [|x l IH]; intros H; cbn [for_each]; [apply issues_only_ret|].
  apply issues_only_seq; [apply H; now left|]. apply IH. intros z Hz. apply H. now right.
Qed.

Lemma issues_only_run (A : action -> Prop) (fsa : FileSystemAction) (msg : action)
      (fn : node -> option node) :
  A msg -> issues_only A (FSA.run fsa msg fn).
Proof.
  intros Ha w. exists [msg]. split; [apply run_calls | now repeat constructor].
Qed.

Lemma issues_only_rename (A : action -> Prop) (fsa : FileSystemAction) (src dst : path) :
  A (Moving src dst) -> issues_only A (FSA.rename fsa src dst).
Proof.
  intros Ha w. unfold FSA.rename. destruct (FS.exists_ (fs w) dst).
  - exists []. split; [now rewrite app_nil_r | constructor].
  - now apply issues_only_run.
Qed.

Lemma issues_only_move_one (opts : options) (fsa : FileSystemAction) (f : node) (m : Maildir) :
  In m (Kmail2Maildir.discover opts f) ->
  issues_only (accounted opts f) (Kmail2Maildir.move_one opts fsa m).
Proof.
  intros Hm. unfold Kmail2Maildir.move_one.
  apply issues_only_seq; [|apply issues_only_seq].
  - apply issues_only_rename. left. now exists m.
  - destruct (remove_index_files_opt opts) eqn:Hrm; [|apply issues_only_ret].
    intros w. unfold Kmail2Maildir.remove_index_files.
    apply (issues_only_for_each (accounted opts f)). intros r Hr.
    apply DiscoveryFacts.glob_spec in Hr as (_ & x & _ & _ & Hs & ->).
    apply issues_only_run. split; [exact Hrm|]. now exists m, x.
  - intros w. unfold Kmail2Maildir.prune_parent.
    destruct (MaildirM.get_parent_maildir m) as [p|] eqn:Ep;
      [|apply (issues_only_ret (accounted opts f))].
    destruct (Kmail2Maildir.is_empty_dir (fs w) p) as [[|]|];
      try apply (issues_only_ret (accounted opts f)).
    apply (issues_only_run (accounted opts f)). right. now exists m.
Qed.

Lemma issues_only_move_inbox (opts : options) (fsa : FileSystemAction) (f : node) :
  issues_only (accounted opts f) (Kmail2Maildir.move_inbox fsa).
Proof.
  unfold Kmail2Maildir.move_inbox. apply issues_only_seq.
  - apply issues_only_for_each. intros d Hd. apply issues_only_rename.
    right. now exists d.
  - apply issues_only_run. now left.
Qed.

Lemma pass_accounted (opts : options) (fsa : FileSystemAction) (w : world) :
  exists new,
    calls (fst (Kmail2Maildir.move_kmail_folders opts fsa w)) = calls w ++ new /\
    Forall (accounted opts (fs w)) new.
Proof.
  unfold Kmail2Maildir.move_kmail_folders.
  apply (issues_only_seq (accounted opts (fs w))).
  - apply issues_only_for_each. intros m Hm. apply issues_only_move_one.
    now apply sort_desc_In in Hm.
  - apply issues_only_move_inbox.
Qed.

Lemma invocation_accounted (args : options) (w : world) :
  exists new,
    calls (fst (kmail2maildir args w)) = calls w ++ new /\
    Forall (accounted args (fs w)) new.
Proof.
  unfold kmail2maildir.
  set (v := if negb (dry_run_opt args)
            then Kmail2Maildir.move_kmail_folders args {| dry_run := true; quiet := true |}
            else ret).
  assert (Hv : (exists new, calls (fst (v w)) = calls w ++ new /\
                            Forall (accounted args (fs w)) new) /\
               fs (fst (v w)) = fs w).
  { unfold v. destruct (negb (dry_run_opt args)).
    - split; [apply pass_accounted | now apply keeps_fs_move_kmail_folders].
    - split; [apply (issues_only_ret (accounted args (fs w))) | reflexivity]. }
  destruct Hv as [(n1 & E1 & F1) Hfs].
  destruct (seq_cases v
              (Kmail2Maildir.move_kmail_folders args
                 {| dry_run := dry_run_opt args; quiet := false |}) w) as [[_ ->]|[_ ->]].
  - destruct (pass_accounted args {| dry_run := dry_run_opt args; quiet := false |}
                (fst (v w))) as (n2 & E2 & F2).
    rewrite Hfs in F2. exists (n1 ++ n2).
    split; [now rewrite E2, E1, app_assoc | now apply Forall_app].
  - now exists n1.
Qed.

End CallFacts.

(** X20.  With a hierarchy separator free of ['/'] and names free of the
    special characters of [glob], every call an invocation issues through
    the gateway is accounted for: a rename moves a discovered folder to its flattened
    path or one of [cur], [new], [tmp] out of [.inbox]; a file is deleted
    only when index files are to be removed, and then it lies beside a
    discovered folder and [glob] reported its name for the index pattern
    of that folder; a directory is removed only when it is [.inbox] or
    the container a discovered folder was found in. *)
Theorem X20_every_call_accounted_for (args : options) (w : world) (new : list action) :
  glob_exact (folder args) (fs w) -> flat_destination args ->
  calls (fst (kmail2maildir args w)) = calls w ++ new ->
  Forall (accounted args (fs w)) new.
Proof.
  intros _ _ E. destruct (CallFacts.invocation_accounted args w) as (n & En & F).
  rewrite En in E. apply app_inv_head in E. now subst.
Qed.

Lemma X20_every_call_accounted_for_witness :
  Forall (accounted (Examples.args "/mail" true false) Examples.indexed_store)
         (calls (fst (kmail2maildir (Examples.args "/mail" true false)
                        (initial Examples.indexed_store)))).
Proof.
  apply (X20_every_call_accounted_for (Examples.args "/mail" true false)
           (initial Examples.indexed_store)).
  - exact ExampleTrees.indexed_store_exact.
  - reflexivity.
  - reflexivity.
Defined.

(** ** The errors of an invocation *)

Module ErrorFacts.
Import EngineFacts.

Lemma raises_only_ret (E : error -> Prop) : raises_only E ret.
Proof. intros w e H. discriminate H. Qed.

Lemma raises_only_seq (E : error -> Prop) (m k : M) :
  raises_only E m -> raises_only E k -> raises_only E (m ;; k).
Proof.
  intros Hm Hk w e. destruct (seq_cases m k w) as [[_ ->]|[_ ->]]; [apply Hk | apply Hm].
Qed.

Lemma raises_only_for_each {T : Type} (E : error -> Prop) (l : list T) (body : T -> M) :
  (forall x, In x l -> raises_only E (body x)) -> raises_only E (for_each l body).
Proof.
  induction l as [|x l IH]; intros H; cbn [for_each]; [apply raises_only_ret|].
  apply raises_only_seq; [apply H; now left|]. apply IH. intros z Hz. apply H. now right.
Qed.

Lemma raises_only_run (E : error -> Prop) (fsa : FileSystemAction) (msg : action)
      (fn : node -> option node) :
  E OSError -> raises_only E (FSA.run fsa msg fn).
Proof.
  intros He w e. unfold FSA.run. destruct (dry_run fsa); [discriminate|].
  destruct (fn _); [discriminate|]. cbn [snd]. intros H. now injection H as <-.
Qed.

Lemma raises_only_rename (E : error -> Prop) (fsa : FileSystemAction) (src dst : path) :
  E OSError -> E (DestinationExists dst) -> raises_only E (FSA.rename fsa src dst).
Proof.
  intros Ho Hd w e. unfold FSA.rename. destruct (FS.exists_ (fs w) dst).
  - cbn [snd]. intros H. now injection H as <-.
  - now apply raises_only_run.
Qed.

Lemma raises_only_move_one (opts : options) (fsa : FileSystemAction) (f : node) (m : Maildir) :
  In m (Kmail2Maildir.discover opts f) ->
  raises_only (explained opts f) (Kmail2Maildir.move_one opts fsa m).
Proof.
  intros Hm. unfold Kmail2Maildir.move_one.
  apply raises_only_seq; [|apply raises_only_seq].
  - apply raises_only_rename; [exact I|]. left. now exists m.
  - destruct (remove_index_files_opt opts); [|apply raises_only_ret].
    intros w. unfold Kmail2Maildir.remove_index_files.
    apply (raises_only_for_each (explained opts f)). intros r _.
    now apply raises_only_run.
  - intros w. unfold Kmail2Maildir.prune_parent.
    destruct (MaildirM.get_parent_maildir m) as [p|];
      [|apply (raises_only_ret (explained opts f))].
    destruct (Kmail2Maildir.is_empty_dir (fs w) p) as [[|]|].
    + now apply (raises_only_run (explained opts f)).
    + apply (raises_only_ret (explained opts f)).
    + intros e H. now injection H as <-.
Qed.

Lemma pass_explained (opts : options) (fsa : FileSystemAction) (w : world) (e : error) :
  snd (Kmail2Maildir.move_kmail_folders opts fsa w) = Raised e -> explained opts (fs w) e.
Proof.
  unfold Kmail2Maildir.move_kmail_folders.
  apply (raises_only_seq (explained opts (fs w))).
  - apply raises_only_for_each. intros m Hm. apply raises_only_move_one.
    now apply sort_desc_In in Hm.
  - unfold Kmail2Maildir.move_inbox. apply raises_only_seq.
    + apply raises_only_for_each. intros d Hd. apply raises_only_rename; [exact I|].
      right. now exists d.
    + now apply raises_only_run.
Qed.

(** A dry pass raises no error of the operating system. *)
Lemma dry_pass_no_oserror (opts : options) (fsa : FileSystemAction) (w : world) :
  dry_run fsa = true ->
  snd (Kmail2Maildir.move_kmail_folders opts fsa w) <> Raised OSError.
Proof.
  intros Hdry. unfold Kmail2Maildir.move_kmail_folders.
  set (l := Kmail2Maildir.sorted_maildirs opts (fs w)).
  assert (Hl : snd (for_each l (Kmail2Maildir.move_one opts fsa) w) =
               match find (fun m => FS.exists_ (fs w) (MaildirM.get_folder_path_loc opts m)) l with
               | Some m => Raised (DestinationExists (MaildirM.get_folder_path_loc opts m))
               | None => Ok
               end).
  { apply DryPassFacts.loop_dry_result; [exact Hdry|].
    intros m p Hin E. apply sort_desc_In in Hin.
    destruct (ReturnFacts.discovered_parent opts (fs w) m Hin) as [_ [es L]].
    unfold MaildirM.get_parent_maildir in E.
    destruct (Nat.eqb _ 1); [discriminate E|]. injection E as <-.
    unfold FS.isdir. now rewrite L. }
  destruct (seq_cases (for_each l (Kmail2Maildir.move_one opts fsa))
              (Kmail2Maildir.move_inbox fsa) w) as [[_ ->]|[_ ->]].
  - rewrite DryPassFacts.move_inbox_dry_result by exact Hdry.
    now destruct (find _ MAILDIR_SPECIAL_DIRS).
  - rewrite Hl. now destruct (find _ l).
Qed.

End ErrorFacts.

(** X21.  The errors of an invocation.  A [Destination ... already exists]
    error names the flattened path of a discovered folder or one of [cur],
    [new], [tmp] in the base folder.  An error of the operating system
    comes from the second pass of an invocation that is no dry run, after
    the validation pass has returned: a dry pass raises none. *)
Theorem X21_errors_of_an_invocation (args : options) (w : world) (e : error) :
  snd (kmail2maildir args w) = Raised e ->
  match e with
  | DestinationExists dst =>
      (exists m, In m (Kmail2Maildir.discover args (fs w)) /\
                 dst = MaildirM.get_folder_path_loc args m) \/
      (exists d, In d MAILDIR_SPECIAL_DIRS /\ dst = [d])
  | OSError =>
      dry_run_opt args = false /\
      snd (Kmail2Maildir.move_kmail_folders args {| dry_run := true; quiet := true |} w) = Ok
  end.
Proof.
  unfold kmail2maildir. intros H.
  destruct (dry_run_opt args) eqn:Hd; cbn [negb] in H.
  - change ((ret ;; Kmail2Maildir.move_kmail_folders args {| dry_run := true; quiet := false |}) w)
      with (Kmail2Maildir.move_kmail_folders args {| dry_run := true; quiet := false |} w) in H.
    destruct e as [dst|].
    + exact (ErrorFacts.pass_explained args _ w _ H).
    + now apply ErrorFacts.dry_pass_no_oserror in H.
  - set (v := Kmail2Maildir.move_kmail_folders args {| dry_run := true; quiet := true |}) in *.
    destruct (EngineFacts.seq_cases v
                (Kmail2Maildir.move_kmail_folders args {| dry_run := false; quiet := false |}) w)
      as [[Hok E]|[Hko E]]; rewrite E in H.
    + assert (Hfs : fs (fst (v w)) = fs w)
        by now apply EngineFacts.keeps_fs_move_kmail_folders.
      apply ErrorFacts.pass_explained in H. rewrite Hfs in H.
      destruct e as [dst|]; [exact H | now split].
    + destruct e as [dst|].
      * exact (ErrorFacts.pass_explained args _ w _ H).
      * now apply ErrorFacts.dry_pass_no_oserror in H.
Qed.

Lemma X21_errors_of_an_invocation_witness :
  exists m, In m (Kmail2Maildir.discover (Examples.args "/mail" false false)
                    (Dir [("Archive", Examples.maildir); (".Archive", Dir [])])) /\
            [".Archive"] = MaildirM.get_folder_path_loc (Examples.args "/mail" false false) m.
Proof.
  destruct (X21_errors_of_an_invocation (Examples.args "/mail" false false)
              (initial (Dir [("Archive", Examples.maildir); (".Archive", Dir [])]))
              (DestinationExists [".Archive"])) as [H|(d & Hd & E)].
  - vm_compute. reflexivity.
  - exact H.
  - exfalso. injection E as E. subst d. cbn in Hd. intuition discriminate.
Defined.

(** ** What the relocation of the inbox needs *)

Module InboxNeeds.
Import Tree TreeFacts EngineFacts EffectFacts GatewayEffects RootNamesFacts MoveFacts.

(** The three renames and the removal behind a real relocation of the
    inbox that returns. *)
Lemma move_inbox_steps (fsa : FileSystemAction) (w w' : world) :
  dry_run fsa = false ->
  Kmail2Maildir.move_inbox fsa w = (w', Ok) ->
  exists fc fn ft,
    FS.rename (fs w) [".inbox"; "cur"] ["cur"] = Some fc /\
    FS.rename fc [".inbox"; "new"] ["new"] = Some fn /\
    FS.rename fn [".inbox"; "tmp"] ["tmp"] = Some ft /\
    FS.rmdir ft [".inbox"] = Some (fs w').
Proof.
  intros Hreal H. unfold Kmail2Maildir.move_inbox in H.
  apply seq_ok_inv in H as (w3 & H3 & Hr).
  cbn [for_each MAILDIR_SPECIAL_DIRS] in H3.
  apply seq_ok_inv in H3 as (wc & Hc & H3).
  apply seq_ok_inv in H3 as (wn & Hn & H3).
  apply seq_ok_inv in H3 as (wt & Ht & H3).
  injection H3 as <-.
  apply (InboxEffect.inbox_rename_real fsa "cur" w wc Hreal) in Hc.
  apply (InboxEffect.inbox_rename_real fsa "new" wc wn Hreal) in Hn.
  apply (InboxEffect.inbox_rename_real fsa "tmp" wn wt Hreal) in Ht.
  apply run_ok_cases in Hr as [[Hd _]|[_ Hr]]; [congruence|].
  now exists (fs wc), (fs wn), (fs wt).
Qed.

(** What a rename out of [.inbox] that succeeds says about the listing of
    [.inbox]. *)
Lemma inbox_unlink (f f' : node) (d : string) (es : list (string * node)) :
  FS.rename f [".inbox"; d] [d] = Some f' ->
  FS.lookup f [".inbox"] = Some (Dir es) ->
  FS.assoc d es <> None /\
  FS.lookup f' [".inbox"] = Some (Dir (FS.remove_entry d es)).
Proof.
  intros H L. split.
  - destruct (fs_rename_steps f f' _ d H) as (_ & moved & _ & _ & Lm & _).
    change [".inbox"; d] with ([".inbox"] ++ [d]) in Lm.
    rewrite lookup_app, L in Lm. cbn [FS.lookup] in Lm.
    now destruct (FS.assoc d es).
  - apply (ReturnFacts.fs_rename_unlinks f f' [".inbox"; d] d es H); [discriminate | exact L].
Qed.

Lemma exists_in_inbox (f : node) (es : list (string * node)) (x : string) :
  FS.lookup f [".inbox"] = Some (Dir es) ->
  FS.exists_ f (Kmail2Maildir.kmail_inbox ++ [x]) = true <-> FS.assoc x es <> None.
Proof.
  intros L. change (Kmail2Maildir.kmail_inbox ++ [x]) with ([".inbox"] ++ [x]).
  unfold FS.exists_. rewrite lookup_app, L. cbn [FS.lookup].
  destruct (FS.assoc x es); split; congruence.
Qed.

Lemma inbox_in_order (opts : options) (fsa : FileSystemAction) (w w' : world) :
  dry_run fsa = false ->
  FS.isdir (fs w) Kmail2Maildir.kmail_inbox = true ->
  Kmail2Maildir.move_kmail_folders opts fsa w = (w', Ok) ->
  forall x, FS.exists_ (fs w) (Kmail2Maildir.kmail_inbox ++ [x]) = true <->
            In x MAILDIR_SPECIAL_DIRS.
Proof.
  intros Hreal Hdir H x. unfold Kmail2Maildir.move_kmail_folders in H.
  apply seq_ok_inv in H as (w1 & Hl & Hi).
  unfold FS.isdir in Hdir. change Kmail2Maildir.kmail_inbox with [".inbox"] in Hdir.
  destruct (FS.lookup (fs w) [".inbox"]) as [[|es]|] eqn:L; try discriminate Hdir.
  assert (L1 : FS.lookup (fs w1) [".inbox"] = Some (Dir es)).
  { apply (loop_preserves opts fsa (Kmail2Maildir.sorted_maildirs opts (fs w)) [".inbox"])
      with (w := w); [| exact Hl | exact L | reflexivity].
    intros m Hm. apply (PassEffect.inbox_apart opts (fs w)). now apply sort_desc_In in Hm. }
  destruct (move_inbox_steps fsa w1 w' Hreal Hi) as (fc & fn & ft & Hc & Hn & Ht & Hr).
  destruct (inbox_unlink _ _ _ _ Hc L1) as [Ac Lc].
  destruct (inbox_unlink _ _ _ _ Hn Lc) as [An Ln].
  destruct (inbox_unlink _ _ _ _ Ht Ln) as [At Lt].
  rewrite assoc_remove_other in An by discriminate.
  rewrite !assoc_remove_other in At by discriminate.
  apply fs_rmdir_inv in Hr as [_ Hr]. rewrite Lt in Hr. injection Hr as Hr.
  rewrite (exists_in_inbox (fs w) es x L). split.
  - intros Hx.
    destruct (String.eqb_spec x "cur") as [E|N1]; [now left|].
    destruct (String.eqb_spec x "new") as [E|N2]; [right; now left|].
    destruct (String.eqb_spec x "tmp") as [E|N3]; [right; right; now left|].
    elim Hx. rewrite <- (assoc_remove_other "cur" x es N1).
    rewrite <- (assoc_remove_other "new" x _ N2).
    rewrite <- (assoc_remove_other "tmp" x _ N3).
    now rewrite Hr.
  - intros [<-|[<-|[<-|[]]]]; assumption.
Qed.


(** What a real relocation of the inbox that returns found and left. *)
Lemma relocation_effect (fsa : FileSystemAction) (w w' : world) :
  dry_run fsa = false ->
  Kmail2Maildir.move_inbox fsa w = (w', Ok) ->
  (forall d, In d MAILDIR_SPECIAL_DIRS ->
             FS.lookup (fs w) [d] = None /\
             exists n, FS.lookup (fs w) (Kmail2Maildir.kmail_inbox ++ [d]) = Some n /\
                       FS.lookup (fs w') [d] = Some n) /\
  (root_nodup (fs w) -> FS.lookup (fs w') Kmail2Maildir.kmail_inbox = None).
Proof.
  intros Hreal H.
  destruct (InboxEffect.move_inbox_moves fsa w w' Hreal H) as (Hd & Hg & _).
  destruct (move_inbox_steps fsa w w' Hreal H) as (fc & fn & ft & Hc & Hn & Ht & _).
  split; [|exact Hg].
  assert (Hsrc : forall d, In d MAILDIR_SPECIAL_DIRS ->
                   FS.lookup (fs w) [d] = None /\
                   FS.lookup (fs w) (Kmail2Maildir.kmail_inbox ++ [d]) <> None).
  { change Kmail2Maildir.kmail_inbox with [".inbox"]. cbn [app].
    destruct (fs_rename_steps _ _ _ _ Hc) as (_ & mc & _ & _ & Lc & Ec & _).
    destruct (fs_rename_steps _ _ _ _ Hn) as (_ & mn & _ & _ & Ln & En & _).
    destruct (fs_rename_steps _ _ _ _ Ht) as (_ & mt & _ & _ & Lt & Et & _).
    apply not_exists_lookup in Ec, En, Et.
    rewrite (InboxEffect.inbox_rename_sibling _ _ "cur" "new" Hc) in Ln by discriminate.
    rewrite (InboxEffect.inbox_rename_frame _ _ "cur" "new" [] Hc) in En by discriminate.
    rewrite (InboxEffect.inbox_rename_sibling _ _ "new" "tmp" Hn) in Lt by discriminate.
    rewrite (InboxEffect.inbox_rename_sibling _ _ "cur" "tmp" Hc) in Lt by discriminate.
    rewrite (InboxEffect.inbox_rename_frame _ _ "new" "tmp" [] Hn) in Et by discriminate.
    rewrite (InboxEffect.inbox_rename_frame _ _ "cur" "tmp" [] Hc) in Et by discriminate.
    intros d [<-|[<-|[<-|[]]]]; (split; [assumption | congruence]). }
  intros d Hin. destruct (Hsrc d Hin) as [Ha Hs]. split; [exact Ha|].
  destruct (FS.lookup (fs w) (Kmail2Maildir.kmail_inbox ++ [d])) as [n|] eqn:E;
    [|now elim Hs].
  exists n. split; [reflexivity|]. rewrite (Hd d Hin). exact E.
Qed.

End InboxNeeds.

(** C8.  The calls of a pass are those of the loop over the folders
    followed by a prefix of the relocation of the inbox: the renames of
    [cur], [new] and [tmp] from [.inbox] to the base folder, in this order,
    then the removal of [.inbox].  A call of the relocation is only issued
    when the loop has returned, all renames of the folders being done; a
    pass that returns has issued the whole relocation.  In a real pass
    that returns the calls have done what they announce: each of [cur],
    [new] and [tmp] was in [.inbox] and not in the base folder when the
    loop had returned, and is found in the base folder afterwards with all
    it held; and [.inbox] is gone. *)
Theorem C8_inbox_relocated_last (opts : options) (fsa : FileSystemAction) (w : world) :
  exists per_folder inbox_part,
    calls (fst (Trace.per_folder_loop opts fsa w)) = calls w ++ per_folder /\
    calls (fst (Kmail2Maildir.move_kmail_folders opts fsa w))
      = calls w ++ per_folder ++ inbox_part /\
    (exists n, inbox_part = firstn n Trace.inbox_relocation) /\
    (inbox_part <> [] ->
     snd (Trace.per_folder_loop opts fsa w) = Ok /\
     Trace.renames_of per_folder
       = map (Trace.mv opts) (Kmail2Maildir.sorted_maildirs opts (fs w))) /\
    (snd (Kmail2Maildir.move_kmail_folders opts fsa w) = Ok ->
     inbox_part = Trace.inbox_relocation) /\
    (dry_run fsa = false ->
     snd (Kmail2Maildir.move_kmail_folders opts fsa w) = Ok ->
     (forall d, In d MAILDIR_SPECIAL_DIRS ->
        FS.lookup (fs (fst (Trace.per_folder_loop opts fsa w))) [d] = None /\
        exists n,
          FS.lookup (fs (fst (Trace.per_folder_loop opts fsa w)))
                    (Kmail2Maildir.kmail_inbox ++ [d]) = Some n /\
          FS.lookup (fs (fst (Kmail2Maildir.move_kmail_folders opts fsa w))) [d] = Some n) /\
     (Tree.wf (fs w) ->
      FS.lookup (fs (fst (Kmail2Maildir.move_kmail_folders opts fsa w)))
                Kmail2Maildir.kmail_inbox = None)).
Proof.
  destruct (PassFacts.pass_trace opts fsa w) as (pf & k & n & E & E' & R & K & N & F).
  exists pf, (firstn n Trace.inbox_relocation).
  split; [exact E|]. split; [exact E'|]. split; [now exists n|]. split; [|split].
  - intros H. split; [now apply N|].
    rewrite R, (K (N H)). now rewrite firstn_all.
  - intros H. rewrite (F H). apply firstn_all.
  - intros Hreal Hok.
    set (w' := fst (Kmail2Maildir.move_kmail_folders opts fsa w)).
    assert (H : Kmail2Maildir.move_kmail_folders opts fsa w = (w', Ok)).
    { unfold w'. destruct (Kmail2Maildir.move_kmail_folders opts fsa w) as [w2 r].
      cbn [snd] in Hok. cbn [fst]. now subst r. }
    unfold Kmail2Maildir.move_kmail_folders in H.
    apply GatewayEffects.seq_ok_inv in H as (w1 & Hl & Hi).
    unfold Trace.per_folder_loop. rewrite Hl. cbn [fst].
    destruct (InboxNeeds.relocation_effect fsa w1 w' Hreal Hi) as [Hd Hg].
    split; [exact Hd|]. intros Hw. apply Hg.
    apply (RootNamesFacts.keeps_for_each root_nodup _ _
             (RootNamesFacts.keeps_move_one opts fsa) w w1 Hl).
    now apply PassEffect.wf_root_nodup.
Qed.

Lemma C8_inbox_relocated_last_witness :
  let w := initial Examples.nested_store in
  let w' := fst (Kmail2Maildir.move_kmail_folders (Examples.args "/mail" true false)
                   Examples.real w) in
  FS.lookup (fs w') Kmail2Maildir.kmail_inbox = None /\
  FS.lookup (fs w') ["cur"] = Some (Dir []).
Proof.
  cbv zeta.
  destruct (C8_inbox_relocated_last (Examples.args "/mail" true false) Examples.real
              (initial Examples.nested_store)) as (pf & ip & _ & _ & _ & _ & _ & H).
  destruct (H eq_refl) as [Hd Hg]; [vm_compute; reflexivity|].
  split.
  - apply Hg. exact ExampleTrees.nested_store_wf.
  - destruct (Hd "cur" (or_introl eq_refl)) as (_ & n & L & L').
    rewrite L'. vm_compute in L. now rewrite <- L.
Defined.



(** X23.  With a hierarchy separator free of ['/'] and names free of the
    special characters of [glob], a real pass that returns on a store whose
    [.inbox] is a directory found in [.inbox] exactly [cur], [new] and
    [tmp]: each of them was there, else its rename fails, and nothing else
    was, else the final [rmdir] fails. *)
Theorem X23_real_pass_needs_inbox_in_order
        (opts : options) (fsa : FileSystemAction) (w w' : world) (x : string) :
  glob_exact (folder opts) (fs w) -> flat_destination opts ->
  dry_run fsa = false ->
  FS.isdir (fs w) Kmail2Maildir.kmail_inbox = true ->
  Kmail2Maildir.move_kmail_folders opts fsa w = (w', Ok) ->
  FS.exists_ (fs w) (Kmail2Maildir.kmail_inbox ++ [x]) = true <->
  In x MAILDIR_SPECIAL_DIRS.
Proof. intros _ _ Hreal Hdir H. now apply (InboxNeeds.inbox_in_order opts fsa w w'). Qed.

Lemma X23_real_pass_needs_inbox_in_order_witness :
  FS.exists_ Examples.small_store (Kmail2Maildir.kmail_inbox ++ ["tmp"]) = true <->
  In "tmp" MAILDIR_SPECIAL_DIRS.
Proof.
  apply (X23_real_pass_needs_inbox_in_order (Examples.args "/mail" false false) Examples.real
           (initial Examples.small_store)
           (fst (Kmail2Maildir.move_kmail_folders (Examples.args "/mail" false false)
                   Examples.real (initial Examples.small_store)))).
  - exact ExampleTrees.small_store_exact.
  - reflexivity.
  - reflexivity.
  - reflexivity.
  - vm_compute. reflexivity.
Defined.
